(** * SHRDLURN community and logging server: a shallow embedding of
    [server/server.py] and the properties of its handlers.

    Conventions of the embedding.
    - Python [str] values are [string]; the character-level algorithm
      [reverse_readline] works on the characters of the file, [list ascii].
    - Python [int] is [Z]; Python [float] is the kernel's binary64 [float].
    - A handler is a function from the server state to an outcome and a new
      state ([M]); an exception leaves the state as it was when it was raised.
    - The data folder is a finite map: [structs] maps the name of an owner's
      folder to the files in it, [logs] maps a log file name to its content.
      Names used as path components are plain names ([os.path.join] selects
      the entry of that name), the entries of the structs folder are folders
      and their entries are files; text files are ASCII with the line
      terminator LF.
    - The folder of the logs holds files only.  The times of modification
      that the file system reports are an input of the replay of the
      utterances ([stat_mtime]); the calls that put a client into a room or
      take it out of one are recorded beside the server ([hub]).
    - The built-in operations follow CPython 3.  [json.loads], [json.dumps],
      the C library's [pow] and the power of a negative base (where CPython 2
      and 3 differ) are parameters of the development ([Libs]): every theorem
      holds for any choice of them. *)

From Stdlib Require Import ZArith String Ascii List Floats Lia Bool.
From Stdlib Require Import DecimalString DecimalZ DecimalPos Sorted.
From stdpp Require Import base option list strings gmap.

Local Open Scope Z_scope.

(* ===================================================================== *)
(** * Text: lines, splitting, stripping                                   *)
(* ===================================================================== *)

Module Text.

(** The line terminator. *)
Definition nl : ascii := "010"%char.

Definition is_nl (c : ascii) : bool := bool_decide (c = nl).

(** [s.split('\n')] on the characters of [s]. *)
Fixpoint split_nl (s : list ascii) : list (list ascii) :=
  match s with
  | [] => [[]]
  | c :: s' =>
      if is_nl c then [] :: split_nl s'
      else match split_nl s' with
           | l :: ls => (c :: l) :: ls
           | [] => [[c]]
           end
  end.

(** ['\n'.join(ls)]. *)
Fixpoint join_nl (ls : list (list ascii)) : list ascii :=
  match ls with
  | [] => []
  | [l] => l
  | l :: ls' => l ++ nl :: join_nl ls'
  end.

(** [len(l) > 0], the truth value of a string. *)
Definition nonempty (l : list ascii) : bool :=
  match l with [] => false | _ => true end.

(** [lines[-1] += segment]. *)
Definition add_to_last (lines : list (list ascii)) (seg : list ascii)
  : list (list ascii) :=
  match last lines with
  | Some l => removelast lines ++ [l ++ seg]
  | None => lines
  end.

(** A line: no line terminator in it. *)
Definition nl_free (l : list ascii) : Prop := nl ∉ l.

(** The file of the given entries, each followed by the line terminator. *)
Definition file_of (entries : list (list ascii)) : list ascii :=
  concat (map (fun e => e ++ [nl]) entries).

End Text.

(* ===================================================================== *)
(** * Exceptions and outcomes                                             *)
(* ===================================================================== *)

(** The exception classes the modelled code can raise. *)
Inductive exn : Type :=
  | AttributeError
  | IndexError
  | KeyError
  | OSError
  | OverflowError
  | TypeError
  | UnboundLocalError
  | ValueError
  | ZeroDivisionError.

(** The outcome of an expression or statement: a value, or an exception. *)
Inductive result (A : Type) : Type :=
  | Ok (a : A)
  | Raise (e : exn).
Arguments Ok {A} a.
Arguments Raise {A} e.

Definition rbind {A B} (r : result A) (k : A -> result B) : result B :=
  match r with
  | Ok a => k a
  | Raise e => Raise e
  end.

Notation "x <-? r ; k" := (rbind r (fun x => k))
  (at level 200, r at level 100, k at level 200, right associativity,
   format "x  <-?  r ;  '/' k").

(* ===================================================================== *)
(** * [reverse_readline]                                                  *)
(* ===================================================================== *)

Module ReverseReadline.
Import Text.

(** How a generator stops: it runs to its end, or an exception escapes. *)
Inductive gen_end : Type :=
  | StopIteration
  | Raised (e : exn).

(** [fh.seek(pos); fh.read(n)]: at most [n] characters from [pos] on, all
    the rest of the file when [n] is negative. *)
Definition fh_read (pos n : Z) (content : list ascii) : list ascii :=
  let rest := drop (Z.to_nat pos) content in
  if n <? 0 then rest else take (Z.to_nat n) rest.

(** The body of the [while] loop after the read: what it yields, and the new
    [segment].  [buffer[-1] is not '\n'] compares one-character strings, which
    CPython keeps unique, so it is the comparison of the characters. *)
Definition rr_body (segment : option (list ascii)) (buffer : list ascii)
  : result (list (list ascii) * list ascii) :=
  let lines := split_nl buffer in
  r <-? match segment with
        | None => Ok ([], lines)
        | Some seg =>
            match last buffer with
            | None => Raise IndexError
            | Some c =>
                if negb (is_nl c) then Ok ([], add_to_last lines seg)
                else Ok ([seg], lines)
            end
        end;
  let '(first, lines) := r in
  Ok (first ++ filter (fun l => nonempty l = true) (rev (tail lines)),
      hd [] lines).

(** The [while remaining_size > 0] loop; [fuel] bounds its iterations. *)
Fixpoint rr_loop (fuel : nat) (content : list ascii) (buf_size : Z)
    (segment : option (list ascii)) (offset remaining_size : Z)
  : option (list (list ascii) * gen_end) :=
  if remaining_size >? 0 then
    match fuel with
    | O => None
    | S fuel' =>
        let file_size := Z.of_nat (length content) in
        let offset := Z.min file_size (offset + buf_size) in
        let buffer :=
          fh_read (file_size - offset) (Z.min remaining_size buf_size) content in
        let remaining_size := remaining_size - buf_size in
        match rr_body segment buffer with
        | Raise e => Some ([], Raised e)
        | Ok (ys, seg) =>
            match rr_loop fuel' content buf_size (Some seg) offset remaining_size with
            | Some (zs, e) => Some (ys ++ zs, e)
            | None => None
            end
        end
    end
  else
    Some (match segment with Some s => [s] | None => [] end, StopIteration).

(** The lines [reverse_readline] yields on a file of the given characters, in
    order, and how the generator ends.  The loop runs at most once per
    character of the file (see [rr_chars_total]). *)
Definition rr_chars (content : list ascii) (buf_size : Z)
  : option (list (list ascii) * gen_end) :=
  rr_loop (S (length content)) content buf_size None 0
          (Z.of_nat (length content)).

Definition reverse_readline (content : string) (buf_size : Z)
  : option (list string * gen_end) :=
  match rr_chars (list_ascii_of_string content) buf_size with
  | Some (ys, e) => Some (map string_of_list_ascii ys, e)
  | None => None
  end.

(** The default [buf_size]. *)
Definition default_buf_size : Z := 8192.

(** What the loop has yielded once it has read the suffix [s] of the file:
    the non-empty lines of [s] after its first line, last line first. *)
Definition yielded (s : list ascii) : list (list ascii) :=
  filter (fun l => nonempty l = true) (rev (tail (split_nl s))).

(** [segment] once the loop has read the suffix [s]: none before the first
    read, the first line of [s] afterwards. *)
Definition segment_of (segment : option (list ascii)) (s : list ascii) : Prop :=
  match segment with
  | None => s = []
  | Some g => s <> [] /\ g = hd [] (split_nl s)
  end.

(** No blank line: no two line terminators follow each other. *)
Definition no_blank (c : list ascii) : Prop :=
  forall u v, c <> u ++ nl :: nl :: v.

(** All the lines of the file, last line first, as the generator yields them
    on a file with no blank line. *)
Definition reversed_lines (c : list ascii) : list (list ascii) :=
  yielded c ++ match c with [] => [] | _ => [hd [] (split_nl c)] end.

End ReverseReadline.


(* ===================================================================== *)
(** * Python values and the built-in operations the server uses           *)
(* ===================================================================== *)

Module Py.
Import Text.

(** The values the handlers see: what [json.loads] and the socket layer
    build, and the numbers the score is made of.  A complex number is only
    ever a quotient [num / (base ** expo)] with a negative [base], and is
    kept as that quotient. *)
#[warnings="-register-all"]
Inductive pyval : Type :=
  | PNone
  | PBool (b : bool)
  | PInt (z : Z)
  | PFloat (f : float)
  | PComplex (num : Z) (base expo : float)
  | PStr (s : string)
  | PList (l : list pyval)
  | PDict (d : list (string * pyval)).

(** ** Dictionaries: insertion-ordered, one entry per key *)

Fixpoint dict_get (d : list (string * pyval)) (k : string) : option pyval :=
  match d with
  | [] => None
  | (k', v) :: d' => if String.eqb k' k then Some v else dict_get d' k
  end.

Fixpoint dict_set (d : list (string * pyval)) (k : string) (v : pyval)
  : list (string * pyval) :=
  match d with
  | [] => [(k, v)]
  | (k', v') :: d' =>
      if String.eqb k' k then (k', v) :: d' else (k', v') :: dict_set d' k v
  end.

(** ** Strings *)

(** [prefix p s]: [s.startswith(p)]. *)
Fixpoint starts_with (p s : string) : bool :=
  match p, s with
  | EmptyString, _ => true
  | String a p', String b s' => Ascii.eqb a b && starts_with p' s'
  | String _ _, EmptyString => false
  end.

(** [p in s] for two strings. *)
Fixpoint is_substring (p s : string) : bool :=
  starts_with p s ||
  match s with
  | EmptyString => false
  | String _ s' => is_substring p s'
  end.

(** [s[:n]]. *)
Definition str_take (n : nat) (s : string) : string :=
  string_of_list_ascii (take n (list_ascii_of_string s)).

(** [s[:-n]] for a positive [n]. *)
Definition str_drop_end (n : nat) (s : string) : string :=
  str_take (String.length s - n) s.

(** The characters [str.strip] and [int] skip, among the first 128. *)
Definition is_space (c : ascii) : bool :=
  let n := nat_of_ascii c in
  ((9 <=? n)%nat && (n <=? 13)%nat) || ((28 <=? n)%nat && (n <=? 32)%nat).

Fixpoint lstrip (s : string) : string :=
  match s with
  | EmptyString => EmptyString
  | String c s' => if is_space c then lstrip s' else s
  end.

Fixpoint rstrip (s : string) : string :=
  match s with
  | EmptyString => EmptyString
  | String c s' =>
      match rstrip s' with
      | EmptyString => if is_space c then EmptyString else String c EmptyString
      | r => String c r
      end
  end.

(** [s.strip()]. *)
Definition strip (s : string) : string := lstrip (rstrip s).

(** [f.readlines()] on a file of content [s]: the lines, each with its
    terminator, the last one without if the file does not end with one. *)
Fixpoint readlines (s : string) : list string :=
  match s with
  | EmptyString => []
  | String c s' =>
      if is_nl c then String c EmptyString :: readlines s'
      else match readlines s' with
           | [] => [String c EmptyString]
           | l :: ls => String c l :: ls
           end
  end.

(** The [i]-th call of [f.readline()] on a freshly opened file: the [i]-th
    line, or the empty string at the end of the file. *)
Definition readline_nth (i : nat) (s : string) : string :=
  nth i (readlines s) EmptyString.

(** ** Integers *)

(** [str(z)] *)
Definition py_str (z : Z) : string := NilZero.string_of_int (Z.to_int z).

(** [int(s)] for a string: blanks around, a sign, decimal digits (the
    underscores Python 3.6 allows between digits are not accepted). *)
Definition int_of_str (s : string) : result Z :=
  let digits (neg : bool) (t : string) : result Z :=
    match NilZero.uint_of_string t with
    | Some d => Ok (if neg then - Z.of_uint d else Z.of_uint d)
    | None => Raise ValueError
    end in
  match strip s with
  | EmptyString => Raise ValueError
  | String c t =>
      if Ascii.eqb c "-" then digits true t
      else if Ascii.eqb c "+" then digits false t
      else digits false (String c t)
  end.

(** [int(f)] for a float: towards zero. *)
Definition int_of_float (f : float) : result Z :=
  match Prim2SF f with
  | S754_zero _ => Ok 0
  | S754_infinity _ => Raise OverflowError
  | S754_nan => Raise ValueError
  | S754_finite s m e =>
      let a := if 0 <=? e then Z.pos m * 2 ^ e else Z.pos m / 2 ^ (- e) in
      Ok (if s then - a else a)
  end.

(** [float(z)], rounded to nearest even; an integer beyond the range of the
    floats raises. *)
Definition float_of_int (z : Z) : result float :=
  let f := SF2Prim (binary_normalize prec emax z 0 false) in
  if PrimFloat.is_infinity f then Raise OverflowError else Ok f.

(** ** Operations on values *)

(** [int(v)] *)
Definition py_int (v : pyval) : result Z :=
  match v with
  | PInt z => Ok z
  | PBool b => Ok (if b then 1 else 0)
  | PFloat f => int_of_float f
  | PStr s => int_of_str s
  | PNone | PComplex _ _ _ | PList _ | PDict _ => Raise TypeError
  end.

(** [v[k]] for a string [k]. *)
Definition py_getitem (v : pyval) (k : string) : result pyval :=
  match v with
  | PDict d => match dict_get d k with
               | Some x => Ok x
               | None => Raise KeyError
               end
  | _ => Raise TypeError
  end.

(** [v[k] = x] for a string [k]. *)
Definition py_setitem (v : pyval) (k : string) (x : pyval) : result pyval :=
  match v with
  | PDict d => Ok (PDict (dict_set d k x))
  | _ => Raise TypeError
  end.

(** [v == s] for a string [s]. *)
Definition py_eq_str (v : pyval) (s : string) : bool :=
  match v with
  | PStr s' => String.eqb s' s
  | _ => false
  end.

(** [s in v] for a string [s]: a key of a dictionary, an element of a list,
    a substring of a string. *)
Definition py_contains (v : pyval) (s : string) : result bool :=
  match v with
  | PDict d => Ok (match dict_get d s with Some _ => true | None => false end)
  | PList l => Ok (existsb (fun x => py_eq_str x s) l)
  | PStr s' => Ok (is_substring s s')
  | PNone | PBool _ | PInt _ | PFloat _ | PComplex _ _ _ => Raise TypeError
  end.

(** [v.append(x)] *)
Definition py_append (v : pyval) (x : pyval) : result pyval :=
  match v with
  | PList l => Ok (PList (l ++ [x]))
  | _ => Raise AttributeError
  end.

(** [len(v)] *)
Definition py_len (v : pyval) : result Z :=
  match v with
  | PList l => Ok (Z.of_nat (length l))
  | PDict d => Ok (Z.of_nat (length d))
  | PStr s => Ok (Z.of_nat (String.length s))
  | PNone | PBool _ | PInt _ | PFloat _ | PComplex _ _ _ => Raise TypeError
  end.

(** [v + s] for a string [s]. *)
Definition py_add_str (v : pyval) (s : string) : result string :=
  match v with
  | PStr s' => Ok (String.append s' s)
  | _ => Raise TypeError
  end.

(** A component handed to [os.path.join]: it has to be a string. *)
Definition py_path (v : pyval) : result string :=
  match v with
  | PStr s => Ok s
  | _ => Raise TypeError
  end.

End Py.

(* ===================================================================== *)
(** * The libraries the server calls                                      *)
(* ===================================================================== *)

Import Py.

(** [json.loads] ([None]: the text is not JSON, a [ValueError]),
    [json.dumps], the C library's [pow] on finite positive arguments, and
    [n / (x ** y)] for a negative [x] and a [y] that is not an integer, which
    CPython 3 computes in the complex numbers and CPython 2 refuses with a
    [ValueError]. *)
Class Libs : Type := {
  json_loads : string -> option pyval;
  json_dumps : pyval -> string;
  libm_pow : float -> float -> float;
  neg_pow_quotient : Z -> float -> float -> result pyval;
}.

(* ===================================================================== *)
(** * The scoring function                                                *)
(* ===================================================================== *)

#[warnings="-inexact-float"]
Definition GRAVITY : float := 1.4%float.
Definition TIME_INTERVAL : float := 1800%float.

(** [z / f] for an integer and a float. *)
Definition int_truediv (z : Z) (f : float) : result float :=
  x <-? float_of_int z;
  if PrimFloat.eqb f 0 then Raise ZeroDivisionError else Ok (x / f)%float.

(** [x ** y] for a float [x] and a positive, finite exponent [y] that is not
    an integer (as [GRAVITY] is), after CPython's [float_pow]: zero stays
    zero, an overflow of [pow] raises; [None] stands for a negative base,
    where the result is not a float. *)
Definition float_pow {L : Libs} (x y : float) : result (option float) :=
  if PrimFloat.is_nan x then Ok (Some x)
  else if PrimFloat.is_infinity x then Ok (Some infinity)
  else if PrimFloat.eqb x 0 then Ok (Some 0%float)
  else if PrimFloat.ltb x 0 then Ok None
  else if PrimFloat.eqb x 1 then Ok (Some 1%float)
  else
    let r := libm_pow x y in
    if PrimFloat.is_infinity r then Raise OverflowError else Ok (Some r).

(** [score_struct] at the time [now] of [current_unix_time()]:
    [time_ago = (now / TIME_INTERVAL) - (int(timestamp) / TIME_INTERVAL)],
    and the result [(upvotesN + 1) / ((time_ago + 2) ** GRAVITY)]. *)
Definition score_at {L : Libs} (now : Z) (timestamp : pyval) (upvotesN : Z)
  : result pyval :=
  a <-? int_truediv now TIME_INTERVAL;
  t <-? py_int timestamp;
  b <-? int_truediv t TIME_INTERVAL;
  let time_ago := (a - b)%float in
  let base := (time_ago + 2)%float in
  d <-? float_pow base GRAVITY;
  match d with
  | None => neg_pow_quotient (upvotesN + 1) base GRAVITY
  | Some d =>
      n <-? float_of_int (upvotesN + 1);
      if PrimFloat.eqb d 0 then Raise ZeroDivisionError
      else Ok (PFloat (n / d)%float)
  end.

(* ===================================================================== *)
(** * The server state and its handlers                                   *)
(* ===================================================================== *)

(** A message sent to clients: to the room [ev_room] when it is a
    broadcast, to the client of the request otherwise. *)
Record event : Type := Event {
  ev_name : string;
  ev_payload : pyval;
  ev_room : option string;
}.

(** The state the handlers share: the clock, [session.uid] (one attribute of
    one module-level object; absent until a session message sets it), the
    struct files by owner folder and file name, the log files by file name,
    and the messages sent so far, oldest first.  The clock does not advance
    while a handler runs. *)
Record server : Type := Server {
  now : Z;
  session_uid : option string;
  structs : gmap string (gmap string string);
  logs : gmap string string;
  emitted : list event;
}.

(** A statement or expression with effects on the server. *)
Definition M (A : Type) : Type := server -> result A * server.

Definition ret {A} (a : A) : M A := fun st => (Ok a, st).

Definition raise {A} (e : exn) : M A := fun st => (Raise e, st).

Definition bind {A B} (m : M A) (k : A -> M B) : M B :=
  fun st =>
    match m st with
    | (Ok a, st') => k a st'
    | (Raise e, st') => (Raise e, st')
    end.

#[global] Instance M_ret : MRet M := @ret.
#[global] Instance M_bind : MBind M := fun A B k m => bind m k.

(** An expression without effects. *)
Definition lift {A} (r : result A) : M A := fun st => (r, st).

Definition gets {A} (f : server -> A) : M A := fun st => (Ok (f st), st).

(** [for x in xs: body(x)] *)
Fixpoint for_each {A} (xs : list A) (body : A -> M unit) : M unit :=
  match xs with
  | [] => ret tt
  | x :: xs' => body x;; for_each xs' body
  end.

Definition current_unix_time : M Z := gets now.

(** Reading [session.uid]: the attribute is missing until it is set. *)
Definition get_session_uid : M string :=
  u ← gets session_uid;
  match u with
  | Some uid => ret uid
  | None => raise AttributeError
  end.

(** [emit(name, payload)] and [emit(name, payload, broadcast=True, room=r)]. *)
Definition emit (name : string) (payload : pyval) (room : option string)
  : M unit :=
  fun st =>
    (Ok tt, Server (now st) (session_uid st) (structs st) (logs st)
              (emitted st ++ [Event name payload room])).

Definition community : option string := Some "community"%string.

(** ** Files *)

(** The file [fname] of the folder [uid] under [STRUCTS_FOLDER], if any. *)
Definition struct_file (st : server) (uid fname : string) : option string :=
  folder ← structs st !! uid; folder !! fname.

(** Writing the whole content of a struct file, in an existing folder. *)
Definition write_struct (uid fname content : string) : M unit :=
  fun st =>
    match structs st !! uid with
    | Some folder =>
        (Ok tt, Server (now st) (session_uid st)
                  (<[uid := <[fname := content]> folder]> (structs st))
                  (logs st) (emitted st))
    | None => (Raise OSError, st)
    end.

(** [make_dir_if_necessary] on the folder [uid] under [STRUCTS_FOLDER]. *)
Definition make_dir_if_necessary (uid : string) : M unit :=
  fun st =>
    match structs st !! uid with
    | Some _ => (Ok tt, st)
    | None =>
        (Ok tt, Server (now st) (session_uid st)
                  (<[uid := ∅]> (structs st)) (logs st) (emitted st))
    end.

(** [os.listdir] on the folder [uid] under [STRUCTS_FOLDER]. *)
Definition listdir (uid : string) : M (list string) :=
  fun st =>
    match structs st !! uid with
    | Some folder => (Ok (map fst (map_to_list folder)), st)
    | None => (Raise OSError, st)
    end.

(** Appending to the log file [fname] under [LOG_FOLDER], created if it is
    not there. *)
Definition append_log (fname text : string) : M unit :=
  fun st =>
    (Ok tt, Server (now st) (session_uid st) (structs st)
              (<[fname := String.append (default EmptyString (logs st !! fname)) text]>
                 (logs st))
              (emitted st)).

(** ** [score_struct], [scrub_uid], [log] *)

Definition score_struct {L : Libs} (timestamp : pyval) (upvotesN : Z) : M pyval :=
  t ← current_unix_time;
  lift (score_at t timestamp upvotesN).

Definition scrub_uid (uid : string) : string := str_take 8 uid.

Definition dot_json : string := ".json".

(** [log(message)]; the dictionary [message] is changed in place, and the
    result is the dictionary the caller holds afterwards. *)
Definition log {L : Libs} (message : pyval) : M pyval :=
  uid ← get_session_uid;
  let path := String.append uid dot_json in
  t ← current_unix_time;
  message ← lift (py_setitem message "timestamp" (PInt t));
  append_log path (String.append (json_dumps message) (String Text.nl EmptyString));;
  ret message.

(** ** The handlers *)

Definition newline : string := String Text.nl EmptyString.

(** The identifier [handle_share] gives a new struct in a folder with the
    files [names]: ["1"] in an empty folder, the largest number a file is
    named after plus one otherwise. *)
Definition new_struct_id_of (names : list string) : result string :=
  match names with
  | [] => Ok "1"%string
  | _ =>
      ids <-? foldr (fun name acc =>
                       i <-? int_of_str (str_drop_end 5 name);
                       others <-? acc;
                       Ok (i :: others))
                    (Ok []) names;
      Ok (py_str (foldr Z.max (hd 0 ids) ids + 1))
  end.

(** The handler of [share]. *)
Definition handle_share {L : Libs} (data : pyval) : M unit :=
  uid ← get_session_uid;
  make_dir_if_necessary uid;;
  names ← listdir uid;
  new_struct_id ← lift (new_struct_id_of names);
  let new_struct_path := String.append new_struct_id dot_json in
  submission_time ← current_unix_time;
  score ← score_struct (PInt submission_time) 0;
  (* the file is opened and its first two lines are written before
     [data["struct"]] is evaluated; they stay when that raises *)
  let head :=
    String.append "[]" (String.append newline
      (String.append (py_str submission_time) newline)) in
  write_struct uid new_struct_path head;;
  struct ← lift (py_getitem data "struct");
  write_struct uid new_struct_path (String.append head (json_dumps struct));;
  emit "struct"
       (PDict [("uid", PStr (scrub_uid uid)); ("id", PStr new_struct_id);
               ("score", score); ("upvotes", PList []); ("struct", struct)]%string)
       community.

(** The handler of [upvote].  The struct file is read through a handle that
    is opened before the file is rewritten; the file is taken to fit the
    read buffer, so that the handle still gives the old second and third
    lines after the file is truncated. *)
Definition upvote {L : Libs} (data : pyval) : M unit :=
  uid ← get_session_uid;
  if String.eqb uid "" then ret tt else
  owner ← lift (v <-? py_getitem data "uid"; py_path v);
  fname ← lift (v <-? py_getitem data "id"; py_add_str v dot_json);
  file ← gets (fun st => struct_file st owner fname);
  match file with
  | None => ret tt
  | Some content =>
      upvotes ← lift (match json_loads (strip (readline_nth 0 content)) with
                      | Some v => Ok v
                      | None => Raise ValueError
                      end);
      present ← lift (py_contains upvotes uid);
      (* [timestamp] is assigned only where the voter is added *)
      r ← (if negb present then
             upvotes ← lift (py_append upvotes (PStr uid));
             let timestamp := readline_nth 1 content in
             write_struct owner fname
               (String.append (json_dumps upvotes)
                  (String.append newline
                     (String.append timestamp (readline_nth 2 content))));;
             ret (upvotes, Some timestamp)
           else ret (upvotes, None));
      let '(upvotes, timestamp) := r in
      timestamp ← match timestamp with
                  | Some t => ret t
                  | None => raise UnboundLocalError
                  end;
      n ← lift (py_len upvotes);
      score ← score_struct (PStr timestamp) n;
      uid_field ← lift (py_getitem data "uid");
      id_field ← lift (py_getitem data "id");
      emit "upvote"
           (PDict [("uid", uid_field); ("id", id_field);
                   ("up", PStr (scrub_uid uid)); ("score", score)]%string)
           community
  end.

(** The handler of [log]. *)
Definition handle_log {L : Libs} (data : pyval) : M unit :=
  has_type ← lift (py_contains data "type");
  if negb has_type then ret tt else
  data ← log data;
  type ← lift (py_getitem data "type");
  if py_eq_str type "accept" then
    uid ← get_session_uid;
    msg ← lift (py_getitem data "msg");
    query ← lift (py_getitem msg "query");
    t ← current_unix_time;
    emit "new_accept"
         (PDict [("uid", PStr (scrub_uid uid)); ("query", query);
                 ("timestamp", PInt t)]%string)
         community
  else if py_eq_str type "define" then
    uid ← get_session_uid;
    msg ← lift (py_getitem data "msg");
    defined ← lift (py_getitem msg "defineAs");
    t ← current_unix_time;
    emit "new_define"
         (PDict [("uid", PStr (scrub_uid uid)); ("defined", defined);
                 ("timestamp", PInt t)]%string)
         community
  else ret tt.

(** The handler of [session], on the message [{"sessionId": sessionId}]. *)
Definition session {L : Libs} (sessionId : string) : M unit :=
  (fun st => (Ok tt, Server (now st) (Some sessionId) (structs st) (logs st)
                       (emitted st)));;
  log (PDict [("type", PStr "connect")]%string);;
  ret tt.

(** The handler of [connect]. *)
Definition connect : M unit :=
  emit "ok" (PDict [("data", PStr "Connected")]%string) None.

(** The handler of [disconnect]. *)
Definition disconnect {L : Libs} : M unit :=
  uid ← get_session_uid;
  log (PDict [("sessionId", PStr uid); ("type", PStr "disconnect")]%string);;
  ret tt.

(** ** Replay on joining the community room *)

(** What [emit_structs] does with one file of the folder [uid]. *)
Definition emit_struct_file {L : Libs} (uid fname content : string) : M unit :=
  let lines := readlines content in
  if negb (length lines =? 3)%nat then ret tt else
  let loads (i : nat) : M pyval :=
    match json_loads (strip (nth i lines EmptyString)) with
    | Some v => ret v
    | None => raise ValueError
    end in
  upvotes ← loads 0%nat;
  timestamp ← loads 1%nat;
  struct ← loads 2%nat;
  n ← lift (py_len upvotes);
  score ← score_struct timestamp n;
  emit "struct"
       (PDict [("uid", PStr (scrub_uid uid)); ("id", PStr (str_drop_end 5 fname));
               ("score", score); ("upvotes", upvotes); ("struct", struct)]%string)
       None.

(** [emit_structs]: every file of every folder under [STRUCTS_FOLDER], in
    the order [os.listdir] gives them. *)
Definition emit_structs {L : Libs} : M unit :=
  folders ← gets (fun st => map_to_list (structs st));
  for_each folders (fun '(uid, _) =>
    files ← gets (fun st => map_to_list (default ∅ (structs st !! uid)));
    for_each files (fun '(fname, _) =>
      file ← gets (fun st => struct_file st uid fname);
      match file with
      | Some content => emit_struct_file uid fname content
      | None => raise OSError
      end)).

(** The loop of [emit_utterances] over the lines of one log file, newest
    first: the lines of type [accept] or [define], until there are eleven. *)
Fixpoint collect_utterances {L : Libs} (lines : list string)
    (utts : list string) (count : Z) : result (list string) :=
  match lines with
  | [] => Ok utts
  | line :: rest =>
      data <-? match json_loads line with
               | Some v => Ok v
               | None => Raise ValueError
               end;
      type <-? py_getitem data "type";
      let '(utts, count) :=
        if py_eq_str type "accept" || py_eq_str type "define"
        then (utts ++ [line], count + 1) else (utts, count) in
      if count >? 10 then Ok utts else collect_utterances rest utts count
  end.

(** The utterances [emit_utterances] sends for the log file of content
    [content]. *)
Definition utterances_of {L : Libs} (content : string) : option (result (list string)) :=
  match ReverseReadline.reverse_readline content ReverseReadline.default_buf_size with
  | Some (lines, ReverseReadline.StopIteration) =>
      Some (collect_utterances lines [] 0)
  | Some (lines, ReverseReadline.Raised e) =>
      Some (match collect_utterances lines [] 0 with
            | Ok utts => if (Z.of_nat (length utts) >? 10) then Ok utts else Raise e
            | Raise e' => Raise e'
            end)
  | None => None
  end.

(** ** Replay of the utterances *)

(** What [emit_utterances] keeps of a log file: its time of modification,
    its name without the extension, its path. *)
Definition file_info : Type := float * string * string.

Definition info_mtime (info : file_info) : float := info.1.1.

(** One step of the scan of [latest_5] for its earliest file: the time and
    the index of the earliest so far, and the next file with its index. *)
Definition earlier_of (acc : float * nat) (item : nat * file_info)
  : float * nat :=
  let '(earliest_time, earliest_idx) := acc in
  let '(idx, l) := item in
  if PrimFloat.ltb (info_mtime l) earliest_time then (info_mtime l, idx)
  else (earliest_time, earliest_idx).

(** The scan: [earliest_time] and [earliest_idx] after the loop over
    [enumerate(latest_5)], which starts from the first file. *)
Definition earliest (latest_5 : list file_info) : result (float * nat) :=
  match latest_5 with
  | [] => Raise IndexError
  | first :: _ =>
      Ok (foldl earlier_of (info_mtime first, 0%nat)
                (imap (fun idx l => (idx, l)) latest_5))
  end.

(** What the walk does with one file: it joins [latest_5] while there are
    fewer than five, and takes the place of the earliest of them afterwards
    if it is later than that one. *)
Definition keep_latest (latest_5 : list file_info) (info : file_info)
  : result (list file_info) :=
  if (length latest_5 <? 5)%nat then Ok (latest_5 ++ [info])
  else
    e <-? earliest latest_5;
    let '(earliest_time, earliest_idx) := e in
    if PrimFloat.ltb earliest_time (info_mtime info)
    then Ok (<[earliest_idx := info]> latest_5)
    else Ok latest_5.

(** The walk over the files of [LOG_FOLDER], in the order of the listing;
    [stat_mtime] is what [os.stat(path).st_mtime] gives for each of them. *)
Fixpoint walk_logs (stat_mtime : string -> float) (files : list string)
    (latest_5 : list file_info) : result (list file_info) :=
  match files with
  | [] => Ok latest_5
  | fname :: files' =>
      let path := fname in
      let mtime := stat_mtime path in
      latest_5 <-? keep_latest latest_5 (mtime, str_drop_end 5 fname, path);
      walk_logs stat_mtime files' latest_5
  end.

(** One file put into a list that is sorted from the largest key down,
    before the files of the same key. *)
Fixpoint insert_desc (x : Z * file_info) (l : list (Z * file_info))
  : list (Z * file_info) :=
  match l with
  | [] => [x]
  | y :: l' => if x.1 <? y.1 then y :: insert_desc x l' else x :: l
  end.

(** [sorted(latest_5, key=lambda s: int(s[0]), reverse=True)]: the keys are
    computed first, in the order of the list; files of the same key keep
    their order. *)
Definition sorted_latest (latest_5 : list file_info) : result (list file_info) :=
  keyed <-? foldr (fun info acc =>
                     k <-? int_of_float (info_mtime info);
                     others <-? acc;
                     Ok ((k, info) :: others))
                  (Ok []) latest_5;
  Ok (map snd (foldr insert_desc [] keyed)).

(** The message [emit_utterances] sends for one log file. *)
Definition utterances_message (uid : string) (utts : list string) : pyval :=
  PDict [("uid", PStr uid); ("utterances", PList (map PStr utts))]%string.

(** The body of the second loop of [emit_utterances].  The bound on the
    loop of [reverse_readline] is never reached, so that [utterances_of] is
    never [None]. *)
Definition emit_file_utterances {L : Libs} (info : file_info) : M unit :=
  let '(_, uid, path) := info in
  let uid := scrub_uid uid in
  file ← gets (fun st => logs st !! path);
  match file with
  | None => raise OSError
  | Some content =>
      utts ← lift (default (Raise OSError) (utterances_of content));
      emit "utterances" (utterances_message uid utts) None
  end.

(** [emit_utterances], where [stat_mtime] gives the time of modification of
    each log file as the file system reports it during the call. *)
Definition emit_utterances {L : Libs} (stat_mtime : string -> float) : M unit :=
  files ← gets (fun st => map fst (map_to_list (logs st)));
  latest_5 ← lift (walk_logs stat_mtime files []);
  ordered ← lift (sorted_latest latest_5);
  for_each ordered emit_file_utterances.

(** ** Rooms *)

(** A call of the socket layer that puts the client of the request into a
    room, or takes it out of one. *)
Inductive room_call : Type :=
  | JoinRoom (room : pyval)
  | LeaveRoom (room : pyval).

(** The server together with the calls made to the socket layer about the
    rooms so far, oldest first. *)
Record hub : Type := Hub {
  hub_server : server;
  hub_calls : list room_call;
}.

(** A statement or expression with effects on the server and the rooms. *)
Definition H (A : Type) : Type := hub -> result A * hub.

#[global] Instance H_ret : MRet H := fun A a h => (Ok a, h).
#[global] Instance H_bind : MBind H := fun A B k m h =>
  match m h with
  | (Ok a, h') => k a h'
  | (Raise e, h') => (Raise e, h')
  end.

(** A statement on the server, run where the rooms are in reach. *)
Definition on_server {A} (m : M A) : H A :=
  fun h => let '(r, st) := m (hub_server h) in (r, Hub st (hub_calls h)).

(** A room is a key of the table of rooms of the socket layer: a list or a
    dictionary cannot be one. *)
Definition room_key (room : pyval) : result pyval :=
  match room with
  | PList _ | PDict _ => Raise TypeError
  | _ => Ok room
  end.

Definition join_room (room : pyval) : H unit :=
  fun h =>
    match room_key room with
    | Ok room => (Ok tt, Hub (hub_server h) (hub_calls h ++ [JoinRoom room]))
    | Raise e => (Raise e, h)
    end.

Definition leave_room (room : pyval) : H unit :=
  fun h =>
    match room_key room with
    | Ok room => (Ok tt, Hub (hub_server h) (hub_calls h ++ [LeaveRoom room]))
    | Raise e => (Raise e, h)
    end.

(** The handler of [join]. *)
Definition on_join {L : Libs} (stat_mtime : string -> float) (data : pyval)
  : H unit :=
  room ← on_server (lift (py_getitem data "room"));
  join_room room;;
  if py_eq_str room "community" then
    on_server emit_structs;;
    on_server (emit_utterances stat_mtime)
  else mret tt.

(** The handler of [leave]. *)
Definition on_leave (data : pyval) : H unit :=
  username ← on_server (lift (py_getitem data "sessionId"));
  room ← on_server (lift (py_getitem data "room"));
  leave_room room.

(* ===================================================================== *)
(** * Reference libraries, to run the handlers on concrete requests       *)
(* ===================================================================== *)

Module Reference.

(** ** JSON, for the fragment with integers, strings without escapes,
    arrays and objects *)

Definition quote : ascii := "034"%char.

Definition is_json_ws (c : ascii) : bool :=
  let n := nat_of_ascii c in
  (n =? 32)%nat || (n =? 9)%nat || (n =? 10)%nat || (n =? 13)%nat.

Fixpoint skip_ws (s : string) : string :=
  match s with
  | String c s' => if is_json_ws c then skip_ws s' else s
  | EmptyString => EmptyString
  end.

Definition is_digit (c : ascii) : bool :=
  let n := nat_of_ascii c in (48 <=? n)%nat && (n <=? 57)%nat.

(** The longest prefix of digits, and the rest. *)
Fixpoint span_digits (s : string) : string * string :=
  match s with
  | String c s' =>
      if is_digit c then let '(d, r) := span_digits s' in (String c d, r)
      else (EmptyString, s)
  | EmptyString => (EmptyString, EmptyString)
  end.

(** A string, after its opening quote. *)
Fixpoint parse_string_body (s : string) : option (string * string) :=
  match s with
  | EmptyString => None
  | String c s' =>
      if Ascii.eqb c quote then Some (EmptyString, s')
      else if Ascii.eqb c "\" || (nat_of_ascii c <? 32)%nat then None
      else match parse_string_body s' with
           | Some (t, r) => Some (String c t, r)
           | None => None
           end
  end.

Definition parse_int (s : string) : option (pyval * string) :=
  let '(neg, t) := match s with
                   | String "-" t => (true, t)
                   | _ => (false, s)
                   end in
  let '(d, r) := span_digits t in
  match d, r with
  | EmptyString, _ => None
  | String "0" (String _ _), _ => None
  | _, String "." _ | _, String "e" _ | _, String "E" _ => None
  | _, _ =>
      match NilZero.uint_of_string d with
      | Some u => Some (PInt (if neg then - Z.of_uint u else Z.of_uint u), r)
      | None => None
      end
  end.

Definition parse_literal (lit : string) (v : pyval) (s : string)
  : option (pyval * string) :=
  if starts_with lit s
  then Some (v, string_of_list_ascii
                  (drop (String.length lit) (list_ascii_of_string s)))
  else None.

Fixpoint parse_value (fuel : nat) (s : string) : option (pyval * string) :=
  match fuel with
  | O => None
  | S fuel =>
      match skip_ws s with
      | EmptyString => None
      | String c s' =>
          if Ascii.eqb c quote then
            '(t, r) ← parse_string_body s'; Some (PStr t, r)
          else if Ascii.eqb c "[" then
            match skip_ws s' with
            | String "]" r => Some (PList [], r)
            | _ => '(vs, r) ← parse_elements fuel s'; Some (PList vs, r)
            end
          else if Ascii.eqb c "{" then
            match skip_ws s' with
            | String "}" r => Some (PDict [], r)
            | _ => '(kvs, r) ← parse_members fuel s';
                   Some (PDict (foldl (fun d '(k, v) => dict_set d k v) [] kvs), r)
            end
          else if Ascii.eqb c "n" then parse_literal "null" PNone (String c s')
          else if Ascii.eqb c "t" then parse_literal "true" (PBool true) (String c s')
          else if Ascii.eqb c "f" then parse_literal "false" (PBool false) (String c s')
          else parse_int (String c s')
      end
  end
with parse_elements (fuel : nat) (s : string) : option (list pyval * string) :=
  match fuel with
  | O => None
  | S fuel =>
      '(v, r) ← parse_value fuel s;
      match skip_ws r with
      | String "," r' => '(vs, r'') ← parse_elements fuel r'; Some (v :: vs, r'')
      | String "]" r' => Some ([v], r')
      | _ => None
      end
  end
with parse_members (fuel : nat) (s : string)
  : option (list (string * pyval) * string) :=
  match fuel with
  | O => None
  | S fuel =>
      match skip_ws s with
      | String c s' =>
          if Ascii.eqb c quote then
            '(k, r) ← parse_string_body s';
            match skip_ws r with
            | String ":" r' =>
                '(v, r'') ← parse_value fuel r';
                match skip_ws r'' with
                | String "," r3 =>
                    '(kvs, r4) ← parse_members fuel r3; Some ((k, v) :: kvs, r4)
                | String "}" r3 => Some ([(k, v)], r3)
                | _ => None
                end
            | _ => None
            end
          else None
      | EmptyString => None
      end
  end.

Definition loads (s : string) : option pyval :=
  match parse_value (2 * String.length s + 2) s with
  | Some (v, r) => match skip_ws r with EmptyString => Some v | _ => None end
  | None => None
  end.

Definition quoted (s : string) : string :=
  String quote (String.append s (String quote EmptyString)).

Fixpoint dumps (v : pyval) : string :=
  match v with
  | PNone => "null"
  | PBool true => "true"
  | PBool false => "false"
  | PInt z => py_str z
  | PFloat _ | PComplex _ _ _ => "NaN"
  | PStr s => quoted s
  | PList l =>
      String.append "[" (String.append (String.concat ", " (map dumps l)) "]")
  | PDict d =>
      String.append "{"
        (String.append
           (String.concat ", "
              (map (fun '(k, x) =>
                      String.append (quoted k) (String.append ": " (dumps x))) d))
           "}")
  end.

(** ** [pow] on positive floats, as [exp (y * ln x)] from their series *)

Definition ln2 : float := 0x1.62e42fefa39efp-1%float.

(** [2 * (y + y^3/3 + y^5/5 + ...)] with [y = (m-1)/(m+1)], [k] terms from
    the one of degree [d]. *)
Fixpoint atanh_series (k : nat) (y2 term d : float) : float :=
  match k with
  | O => 0%float
  | S k' => (term / d + atanh_series k' y2 (term * y2) (d + 2))%float
  end.

Definition ln (x : float) : float :=
  let '(m, e) := Z.frexp x in
  let y := ((m - 1) / (m + 1))%float in
  (2 * atanh_series 40 (y * y) y 1 + SF2Prim (binary_normalize prec emax e 0 false) * ln2)%float.

(** [1 + r + r^2/2! + ...], [k] terms from the one of degree [d]. *)
Fixpoint exp_series (k : nat) (r term d : float) : float :=
  match k with
  | O => 0%float
  | S k' => (term + exp_series k' r (term * r / d) (d + 1))%float
  end.

Definition exp (t : float) : float :=
  match int_of_float (t / ln2) with
  | Ok n =>
      let r := (t - SF2Prim (binary_normalize prec emax n 0 false) * ln2)%float in
      Z.ldexp (exp_series 30 r 1 1) n
  | Raise _ => nan
  end.

Definition pow (x y : float) : float := exp (y * ln x).

(** The libraries of CPython 3. *)
Definition libs : Libs := {|
  json_loads := loads;
  json_dumps := dumps;
  libm_pow := pow;
  neg_pow_quotient := fun n x y => Ok (PComplex n x y);
|}.

End Reference.

(* ===================================================================== *)
(** * Vocabulary of the statements                                        *)
(* ===================================================================== *)

(** The content of a log file to which the given entries were appended in
    turn, each followed by the line terminator. *)
Definition log_text (entries : list string) : string :=
  foldr (fun e acc => String.append e (String.append newline acc))
        EmptyString entries.

(** A log entry is one line of text: not empty, no line terminator in it. *)
Definition entry_ok (e : string) : Prop :=
  e <> EmptyString /\ Text.nl ∉ list_ascii_of_string e.

(** The last [n] elements of a list. *)
Definition last_n {A} (n : nat) (l : list A) : list A :=
  drop (length l - n) l.

(** The name of the file of the struct numbered [k]. *)
Definition struct_name (k : Z) : string := String.append (py_str k) dot_json.

(** A folder of structs is numbered when its files are exactly those named
    after the numbers from one to the number of its files. *)
Definition numbered (folder : gmap string string) : Prop :=
  forall name,
    is_Some (folder !! name)
    <-> exists k, 1 <= k <= Z.of_nat (size folder) /\ name = struct_name k.

Definition well_numbered (st : server) : Prop :=
  forall uid folder, structs st !! uid = Some folder -> numbered folder.

(** What can happen to the server: the clock moves, or a handler runs on a
    message of a client.  Joining the community room replays the structs;
    the replay of the utterances, which only sends messages, is left out. *)
Inductive step {L : Libs} : server -> server -> Prop :=
  | step_clock st t :
      step st (Server t (session_uid st) (structs st) (logs st) (emitted st))
  | step_connect st r st' : connect st = (r, st') -> step st st'
  | step_session sessionId st r st' :
      session sessionId st = (r, st') -> step st st'
  | step_disconnect st r st' : disconnect st = (r, st') -> step st st'
  | step_log data st r st' : handle_log data st = (r, st') -> step st st'
  | step_share data st r st' : handle_share data st = (r, st') -> step st st'
  | step_upvote data st r st' : upvote data st = (r, st') -> step st st'
  | step_join st r st' : emit_structs st = (r, st') -> step st st'.

(** The names of the struct files, by folder. *)
Definition shape (st : server) : gmap string (gset string) :=
  dom <$> structs st.

(** The state after the messages [evs] were sent. *)
Definition with_events (st : server) (evs : list event) : server :=
  Server (now st) (session_uid st) (structs st) (logs st) (emitted st ++ evs).

(** The files of a folder, each with the name of the folder, its name and
    its content, in the order of the listing. *)
Definition files_of (uid : string) (folder : gmap string string)
  : list (string * string * string) :=
  map (fun '(fname, content) => (uid, fname, content)) (map_to_list folder).

(** The struct files, in the order [emit_structs] visits them: folder by
    folder. *)
Definition all_files (st : server) : list (string * string * string) :=
  flat_map (fun '(uid, folder) => files_of uid folder)
           (map_to_list (structs st)).

(** A struct file of exactly three lines. *)
Definition three_lines (file : string * string * string) : Prop :=
  length (readlines file.2) = 3%nat.

(** The [struct] message of a struct file, at the time [t]: its three lines
    decoded, the score of its timestamp and number of upvotes. *)
Definition struct_event {L : Libs} (t : Z) (file : string * string * string)
  : result event :=
  let '(uid, fname, content) := file in
  let lines := readlines content in
  let loads (i : nat) : result pyval :=
    match json_loads (strip (nth i lines EmptyString)) with
    | Some v => Ok v
    | None => Raise ValueError
    end in
  upvotes <-? loads 0%nat;
  timestamp <-? loads 1%nat;
  struct <-? loads 2%nat;
  n <-? py_len upvotes;
  score <-? score_at t timestamp n;
  Ok (Event "struct"
        (PDict [("uid", PStr (scrub_uid uid)); ("id", PStr (str_drop_end 5 fname));
                ("score", score); ("upvotes", upvotes); ("struct", struct)]%string)
        None).

(** The first two lines of a new struct file. *)
Definition share_head (t : Z) : string :=
  String.append "[]" (String.append newline (String.append (py_str t) newline)).

(** The message [handle_share] broadcasts. *)
Definition share_message (uid id : string) (score struct : pyval) : pyval :=
  PDict [("uid", PStr (scrub_uid uid)); ("id", PStr id); ("score", score);
         ("upvotes", PList []); ("struct", struct)]%string.

(** A statement that neither adds nor removes a struct file, when run in a
    state whose shape satisfies [Q]. *)
Definition keeps_shape_if (Q : gmap string (gset string) -> Prop)
    {A} (m : M A) : Prop :=
  forall st, Q (shape st) -> shape (m st).2 = shape st.

(** The shapes in which the folder [uid] has a file [fname]. *)
Definition has_file (uid fname : string) (sh : gmap string (gset string))
  : Prop :=
  exists names, sh !! uid = Some names /\ fname ∈ names.

(** The state after the struct file [fname] of the folder [uid] was
    rewritten with [content]. *)
Definition with_struct (st : server) (uid fname content : string) : server :=
  Server (now st) (session_uid st)
         (<[uid := <[fname := content]> (default ∅ (structs st !! uid))]> (structs st))
         (logs st) (emitted st).

(** A struct file after an upvote: the new upvoters, then the second and
    third line of the old content. *)
Definition upvoted_text {L : Libs} (upvotes : pyval) (content : string) : string :=
  String.append (json_dumps upvotes)
    (String.append newline
       (String.append (readline_nth 1 content) (readline_nth 2 content))).

(** The message [upvote] broadcasts. *)
Definition upvote_message (data_uid data_id : pyval) (uid : string)
    (score : pyval) : pyval :=
  PDict [("uid", data_uid); ("id", data_id); ("up", PStr (scrub_uid uid));
         ("score", score)]%string.

(** A log line that decodes to something with a [type]. *)
Definition typed_entry {L : Libs} (line : string) : Prop :=
  exists v type, json_loads line = Some v /\ py_getitem v "type" = Ok type.

(** A log line of type [accept] or [define]. *)
Definition is_utterance {L : Libs} (line : string) : bool :=
  match json_loads line with
  | Some v =>
      match py_getitem v "type" with
      | Ok type => py_eq_str type "accept" || py_eq_str type "define"
      | Raise _ => false
      end
  | None => false
  end.

(** A float that is a number: neither an infinity nor a NaN. *)
Definition finite_float (f : float) : bool :=
  match Prim2SF f with
  | S754_zero _ | S754_finite _ _ _ => true
  | S754_infinity _ | S754_nan => false
  end.

(** The strings of a list, one after the other. *)
Definition str_concat (ls : list string) : string :=
  foldr String.append EmptyString ls.

(** The voters upvote a struct in turn, each after opening a session. *)
Fixpoint upvote_in_turn {L : Libs} (data : pyval) (voters : list string)
    (st : server) : server :=
  match voters with
  | [] => st
  | voter :: others =>
      upvote_in_turn data others (upvote data (session voter st).2).2
  end.

(** The codec stores the value [v] faithfully as a first line: what
    [json.dumps] writes has no line terminator in it and is decoded back to
    [v] from the line. *)
Definition stored_faithfully {L : Libs} (v : pyval) : Prop :=
  (Text.nl ∉ list_ascii_of_string (json_dumps v))
  /\ json_loads (strip (String.append (json_dumps v) newline)) = Some v.

(** ** What a request leaves in place *)

(** A statement that takes every state to one that [R] relates to it,
    whether it returns or raises. *)
Definition respects (R : relation server) {A} (m : M A) : Prop :=
  forall st, R st (m st).2.

Definition respects_hub (R : relation server) {A} (m : H A) : Prop :=
  forall h, R (hub_server h) (hub_server (m h).2).

(** A message to the client of the request alone, of one of the names. *)
Definition replayed (names : list string) (ev : event) : Prop :=
  ev_name ev ∈ names /\ ev_room ev = None.

(** Nothing happened but messages that satisfy [P] being sent. *)
Definition sends_only (P : event -> Prop) (st st' : server) : Prop :=
  exists evs, st' = with_events st evs /\ Forall P evs.

(** Nothing that was recorded is lost: every log file has its old content
    at its beginning, every struct file is still there, and so is the uid of
    the session if there was one. *)
Definition keeps_records (st st' : server) : Prop :=
  (forall fname old,
      logs st !! fname = Some old ->
      exists more, logs st' !! fname = Some (String.append old more))
  /\ (forall uid fname,
         is_Some (struct_file st uid fname) -> is_Some (struct_file st' uid fname))
  /\ (is_Some (session_uid st) -> is_Some (session_uid st')).

(** What can happen to the server and the rooms: a step of the server, or
    a client joins or leaves a room. *)
Inductive serve {L : Libs} : hub -> hub -> Prop :=
  | serve_step h st' :
      step (hub_server h) st' -> serve h (Hub st' (hub_calls h))
  | serve_join stat_mtime data h r h' :
      on_join stat_mtime data h = (r, h') -> serve h h'
  | serve_leave data h r h' :
      on_leave data h = (r, h') -> serve h h'.

(** ** Log entries *)

(** The entry [log] writes for the message of items [d] at the time [t],
    and its line in the log file. *)
Definition log_entry (d : list (string * pyval)) (t : Z) : pyval :=
  PDict (dict_set d "timestamp" (PInt t)).

Definition log_line {L : Libs} (d : list (string * pyval)) (t : Z) : string :=
  String.append (json_dumps (log_entry d t)) newline.

(** The name of the log file of the session of [uid]. *)
Definition log_name (uid : string) : string := String.append uid dot_json.

(** The state after [text] was appended to the log of the session of [uid]. *)
Definition with_log (st : server) (uid text : string) : server :=
  Server (now st) (session_uid st) (structs st)
         (<[log_name uid :=
              String.append (default EmptyString (logs st !! log_name uid)) text]>
            (logs st))
         (emitted st).

(** ** Lines *)

(** [content.split('\n')]: the lines of a text, without their terminators;
    the last one is empty when the text ends with a terminator. *)
Definition split_lines (content : string) : list string :=
  map string_of_list_ascii (Text.split_nl (list_ascii_of_string content)).

(** ** Times of modification *)

(** What the walk keeps of the log file [fname]. *)
Definition log_info (stat_mtime : string -> float) (fname : string) : file_info :=
  (stat_mtime fname, str_drop_end 5 fname, fname).

(** Where a float that is a number stands among the numbers: its sign,
    then its exponent, then its mantissa. *)
Definition float_rank (f : float) : Z * Z * Z :=
  match Prim2SF f with
  | S754_finite true m e => (-1, - e, - Z.pos m)
  | S754_finite false m e => (1, e, Z.pos m)
  | _ => (0, 0, 0)
  end.

Definition rank_lt (a b : Z * Z * Z) : Prop :=
  a.1.1 < b.1.1
  \/ (a.1.1 = b.1.1 /\ (a.1.2 < b.1.2 \/ (a.1.2 = b.1.2 /\ a.2 < b.2))).

(** The file [other] was not modified after the file [kept]. *)
Definition not_after (kept other : file_info) : Prop :=
  PrimFloat.ltb (info_mtime kept) (info_mtime other) = false.

(** The whole seconds of the time of modification of [a] are at least
    those of [b]. *)
Definition seconds_ge (a b : file_info) : Prop :=
  exists ka kb,
    int_of_float (info_mtime a) = Ok ka
    /\ int_of_float (info_mtime b) = Ok kb
    /\ kb <= ka.

(** Files whose times of modification are numbers. *)
Definition finite_times (infos : list file_info) : Prop :=
  Forall (fun info => finite_float (info_mtime info) = true) infos.

(** The whole seconds of the time of modification of a file. *)
Definition seconds_of (info : file_info) : Z :=
  match int_of_float (info_mtime info) with
  | Ok k => k
  | Raise _ => 0
  end.

(** The [utterances] message for a log file of the entries
    [entries_of path]: its last eleven utterances, newest first. *)
Definition utterances_event {L : Libs} (entries_of : string -> list string)
    (info : file_info) : event :=
  Event "utterances"
    (utterances_message (scrub_uid info.1.2)
       (rev (last_n 11 (filter (fun e => is_utterance e = true)
                               (entries_of info.2)))))
    None.

(** The state after [session.uid] was set. *)
Definition with_session (st : server) (uid : string) : server :=
  Server (now st) (Some uid) (structs st) (logs st) (emitted st).

(** The message [session] logs. *)
Definition connect_message : list (string * pyval) :=
  [("type", PStr "connect")]%string.

(** The message [disconnect] logs. *)
Definition disconnect_message (uid : string) : list (string * pyval) :=
  [("sessionId", PStr uid); ("type", PStr "disconnect")]%string.

(* ===================================================================== *)
(** * Concrete requests and states                                        *)
(* ===================================================================== *)

Module Examples.

Definition owner : string := "abcdef1234567890".
Definition voter : string := "0123456789abcdef".

Definition cube : pyval := PDict [("shape", PStr "cube")]%string.

(** A struct file as the server writes it: the upvoters, the time of
    submission, the struct. *)
Definition struct_text (upvoters : list string) (t : Z) (struct : pyval)
  : string :=
  String.append (Reference.dumps (PList (map PStr upvoters)))
    (String.append newline
       (String.append (py_str t)
          (String.append newline (Reference.dumps struct)))).

(** A struct file cut short after its second line. *)
Definition cut_text (t : Z) : string :=
  String.append "[]" (String.append newline (String.append (py_str t) newline)).

(** Three lines, none of them JSON. *)
Definition garbled_text : string :=
  String.append "x" (String.append newline
    (String.append "y" (String.append newline "z"))).

(** The server before any struct was shared, the owner's session open. *)
Definition empty_server : server :=
  Server 1480000000 (Some owner) ∅ ∅ [].

(** One struct of the owner, upvoted by the voter, whose session is open,
    an hour after it was shared. *)
Definition upvoted_server : server :=
  Server 1480003600 (Some voter)
         {[ owner := {[ "1.json"%string := struct_text [voter] 1480000000 cube ]} ]}
         ∅ [].

(** One struct of the owner, not upvoted yet; the voter's session is open,
    an hour after it was shared. *)
Definition shared_server : server :=
  Server 1480003600 (Some voter)
         {[ owner := {[ "1.json"%string := struct_text [] 1480000000 cube ]} ]}
         ∅ [].

(** A complete struct file and one cut short. *)
Definition mixed_server : server :=
  Server 1480003600 (Some voter)
         {[ owner := {[ "1.json"%string := struct_text [voter] 1480000000 cube;
                        "2.json"%string := cut_text 1480000100 ]} ]}
         ∅ [].

(** A struct file of three lines that are not JSON. *)
Definition garbled_server : server :=
  Server 1480003600 (Some voter)
         {[ owner := {[ "1.json"%string := garbled_text ]} ]}
         ∅ [].

Definition upvote_request (uid id : string) : pyval :=
  PDict [("uid", PStr uid); ("id", PStr id)]%string.

Definition share_request (struct : pyval) : pyval :=
  PDict [("struct", struct)]%string.

(** A log request without [type]. *)
Definition untyped_log_request : pyval :=
  PDict [("msg", PDict [("query", PStr "add red")])]%string.

(** Two log lines. *)
Definition two_entries : list string :=
  [Reference.dumps (PDict [("type", PStr "accept"); ("timestamp", PInt 1480000000)]);
   Reference.dumps (PDict [("type", PStr "define"); ("timestamp", PInt 1480000060)])]%string.

(** The server before any session message. *)
Definition fresh_server : server := Server 1480000000 None ∅ ∅ [].

(** Requests to join and to leave a room. *)
Definition join_request (room : string) : pyval :=
  PDict [("room", PStr room)]%string.

Definition leave_request (room : string) : pyval :=
  PDict [("sessionId", PStr owner); ("room", PStr room)]%string.

(** A log request of type [accept], with a timestamp of the client's. *)
Definition accept_request : list (string * pyval) :=
  [("type", PStr "accept"); ("msg", PDict [("query", PStr "add red")]);
   ("timestamp", PInt 7)]%string.

(** The log of the owner holds two entries; the owner's session is open. *)
Definition logged_server : server :=
  Server 1480003600 (Some owner) ∅ {[ log_name owner := log_text two_entries ]} [].

(** A text with a blank line. *)
Definition blank_text : string :=
  String.append "a" (String.append newline (String.append newline
    (String.append "b" newline))).

(** Six log files and their times of modification, the third the earliest. *)
Definition six_logs : list string :=
  ["a.json"; "b.json"; "c.json"; "d.json"; "e.json"; "f.json"]%string.

Definition six_mtimes (fname : string) : float :=
  if String.eqb fname "a.json" then 1480000010.5%float
  else if String.eqb fname "b.json" then 1480000020.25%float
  else if String.eqb fname "c.json" then 1480000001%float
  else if String.eqb fname "d.json" then 1480000040%float
  else if String.eqb fname "e.json" then 1480000030.75%float
  else 1480000005%float.

(** A line that is no JSON, and eleven accepted queries. *)
Definition torn_line : string := "{".

Definition eleven_accepts : list string :=
  repeat (Reference.dumps
            (PDict [("type", PStr "accept"); ("timestamp", PInt 1480000000)]%string))
         11.

(** One struct of the owner, upvoted once, and the log of the owner. *)
Definition community_server : server :=
  Server 1480003600 (Some voter)
         {[ owner := {[ "1.json"%string := struct_text [voter] 1480000000 cube ]} ]}
         {[ log_name owner := log_text two_entries ]} [].

End Examples.
(* ===================================================================== *)
(** * Facts: splitting text into lines                                    *)
(* ===================================================================== *)

Module TextFacts.
Import Text.

Lemma is_nl_true c : is_nl c = true <-> c = nl.
Proof. unfold is_nl. apply bool_decide_eq_true. Qed.

Lemma is_nl_false c : is_nl c = false <-> c <> nl.
Proof. unfold is_nl. apply bool_decide_eq_false. Qed.

Lemma split_nl_nonnil s : split_nl s <> [].
Proof.
  destruct s as [|c s]; simpl; [discriminate|].
  destruct (is_nl c); [discriminate|].
  destruct (split_nl s); discriminate.
Qed.

Lemma split_nl_snoc s : exists xs x, split_nl s = xs ++ [x].
Proof.
  destruct (split_nl s) as [|l ls] eqn:E using rev_ind.
  - now apply split_nl_nonnil in E.
  - eauto.
Qed.

Lemma split_nl_free l : nl_free l -> split_nl l = [l].
Proof.
  unfold nl_free. induction l as [|c l IH]; intros Hfree; [reflexivity|].
  simpl. destruct (is_nl c) eqn:Hc.
  - apply is_nl_true in Hc. subst. exfalso. apply Hfree. left.
  - rewrite IH; [reflexivity|]. intros Hin. apply Hfree. now right.
Qed.

Lemma split_nl_app_nl l s :
  nl_free l -> split_nl (l ++ nl :: s) = l :: split_nl s.
Proof.
  unfold nl_free. induction l as [|c l IH]; intros Hfree; simpl.
  - reflexivity.
  - destruct (is_nl c) eqn:Hc.
    + apply is_nl_true in Hc. subst. exfalso. apply Hfree. left.
    + rewrite IH; [reflexivity|]. intros Hin. apply Hfree. now right.
Qed.

Lemma split_nl_lines_free s : Forall nl_free (split_nl s).
Proof.
  induction s as [|c s IH]; simpl.
  - repeat constructor. unfold nl_free. apply not_elem_of_nil.
  - destruct (is_nl c) eqn:Hc.
    + constructor; [|exact IH]. unfold nl_free. apply not_elem_of_nil.
    + destruct (split_nl s) as [|l ls].
      * repeat constructor. unfold nl_free. apply is_nl_false in Hc.
        intros Hin. apply list_elem_of_singleton in Hin. congruence.
      * inversion IH as [|? ? Hl Hls]; subst. constructor; [|exact Hls].
        unfold nl_free in *. apply is_nl_false in Hc.
        intros Hin. apply elem_of_cons in Hin as [Heq|Hin]; [congruence|auto].
Qed.

Lemma join_split_nl s : join_nl (split_nl s) = s.
Proof.
  induction s as [|c s IH]; [reflexivity|].
  simpl. destruct (is_nl c) eqn:Hc.
  - apply is_nl_true in Hc. subst c.
    pose proof (split_nl_nonnil s) as Hne.
    simpl. destruct (split_nl s) as [|l ls]; [congruence|].
    simpl. now rewrite <- IH.
  - pose proof (split_nl_nonnil s) as Hne.
    destruct (split_nl s) as [|l ls]; [congruence|].
    rewrite <- IH. destruct ls; reflexivity.
Qed.

Lemma split_join_nl ls :
  ls <> [] -> Forall nl_free ls -> split_nl (join_nl ls) = ls.
Proof.
  induction ls as [|l ls IH]; intros Hne Hfree; [congruence|].
  inversion Hfree as [|? ? Hl Hls]; subst.
  destruct ls as [|l' ls'].
  - simpl. now apply split_nl_free.
  - change (join_nl (l :: l' :: ls')) with (l ++ nl :: join_nl (l' :: ls')).
    rewrite split_nl_app_nl by assumption.
    now rewrite IH.
Qed.

Lemma join_nl_cons l ls :
  ls <> [] -> join_nl (l :: ls) = l ++ nl :: join_nl ls.
Proof. destruct ls; [congruence|reflexivity]. Qed.

Lemma join_nl_splice xs x y ys :
  join_nl (xs ++ (x ++ y) :: ys) = join_nl (xs ++ [x]) ++ join_nl (y :: ys).
Proof.
  induction xs as [|a xs IH].
  - simpl. destruct ys as [|z ys]; [reflexivity|].
    now rewrite <- app_assoc.
  - rewrite <- !app_comm_cons.
    rewrite !join_nl_cons by (now destruct xs).
    rewrite IH. now rewrite <- app_assoc.
Qed.

(** Splitting a concatenation: the last line of the first part and the first
    line of the second are one line. *)
Lemma split_nl_app a b xs x y ys :
  split_nl a = xs ++ [x] -> split_nl b = y :: ys ->
  split_nl (a ++ b) = xs ++ (x ++ y) :: ys.
Proof.
  intros Ha Hb.
  rewrite <- (join_split_nl a), <- (join_split_nl b), Ha, Hb.
  rewrite <- join_nl_splice.
  apply split_join_nl; [now destruct xs|].
  pose proof (split_nl_lines_free a) as Fa.
  pose proof (split_nl_lines_free b) as Fb.
  rewrite Ha in Fa. rewrite Hb in Fb.
  apply Forall_app in Fa as [Fxs Fx].
  inversion Fx as [|? ? Hx _]; subst.
  inversion Fb as [|? ? Hy Hys]; subst.
  apply Forall_app. split; [exact Fxs|].
  constructor; [|exact Hys].
  unfold nl_free in *. rewrite elem_of_app. tauto.
Qed.

Lemma split_nl_snoc_nl b : split_nl (b ++ [nl]) = split_nl b ++ [[]].
Proof.
  destruct (split_nl_snoc b) as (xs & x & Hb).
  rewrite (split_nl_app b [nl] xs x [] [[]] Hb eq_refl).
  rewrite Hb, app_nil_r, <- app_assoc. reflexivity.
Qed.

Lemma hd_split_nl_nil s : s <> [] -> hd [] (split_nl s) = [] -> exists t, s = nl :: t.
Proof.
  destruct s as [|c s]; [congruence|]. intros _. simpl.
  destruct (is_nl c) eqn:Hc.
  - apply is_nl_true in Hc. subst. eauto.
  - destruct (split_nl s); simpl; discriminate.
Qed.

Lemma file_of_join entries : file_of entries = join_nl (entries ++ [[]]).
Proof.
  induction entries as [|e es IH]; [reflexivity|].
  unfold file_of in *. simpl concat. rewrite IH.
  rewrite <- app_comm_cons, join_nl_cons by (now destruct es).
  now rewrite <- app_assoc.
Qed.

Lemma split_nl_file_of entries :
  Forall nl_free entries -> split_nl (file_of entries) = entries ++ [[]].
Proof.
  intros Hfree. rewrite file_of_join. apply split_join_nl.
  - now destruct entries.
  - apply Forall_app. split; [exact Hfree|].
    repeat constructor. unfold nl_free. apply not_elem_of_nil.
Qed.

(** A file of non-empty entries has no blank line: no two line terminators
    follow each other. *)
Lemma file_of_no_blank entries u v :
  Forall nl_free entries -> Forall (fun e => e <> []) entries ->
  file_of entries <> u ++ nl :: nl :: v.
Proof.
  intros Hfree Hne Heq.
  pose proof (split_nl_file_of entries Hfree) as Hs.
  rewrite Heq in Hs.
  replace (u ++ nl :: nl :: v) with ((u ++ [nl]) ++ nl :: v) in Hs
    by (now rewrite <- app_assoc).
  destruct (split_nl_snoc u) as (xs & x & Hu).
  assert (Hun : split_nl (u ++ [nl]) = (xs ++ [x]) ++ [[]])
    by (now rewrite split_nl_snoc_nl, Hu).
  assert (Hv : split_nl (nl :: v) = [] :: split_nl v) by reflexivity.
  rewrite (split_nl_app _ _ _ _ _ _ Hun Hv) in Hs.
  destruct (split_nl_snoc v) as (ys & y & Hsv). rewrite Hsv in Hs.
  simpl in Hs.
  replace ((xs ++ [x]) ++ [] :: ys ++ [y])
    with (((xs ++ [x]) ++ [] :: ys) ++ [y]) in Hs
    by (now rewrite <- !app_assoc).
  apply app_inj_tail in Hs as [Hs _].
  rewrite Forall_forall in Hne. apply (Hne []); [|reflexivity].
  rewrite <- Hs. apply elem_of_app. right. left.
Qed.

End TextFacts.

(* ===================================================================== *)
(** * Facts: [reverse_readline] yields the lines in reverse               *)
(* ===================================================================== *)

Module ReverseReadlineFacts.
Import Text TextFacts ReverseReadline.

Lemma add_to_last_snoc xs x seg : add_to_last (xs ++ [x]) seg = xs ++ [x ++ seg].
Proof.
  unfold add_to_last. rewrite last_snoc.
  now rewrite removelast_last.
Qed.

Lemma tail_app_nonnil {A} (xs ys : list A) : xs <> [] -> tail (xs ++ ys) = tail xs ++ ys.
Proof. destruct xs; [congruence|reflexivity]. Qed.

Lemma hd_app_nonnil {A} (d : A) (xs ys : list A) : xs <> [] -> hd d (xs ++ ys) = hd d xs.
Proof. destruct xs; [congruence|reflexivity]. Qed.

Lemma last_nl_split buffer : last buffer = Some nl -> exists b, buffer = b ++ [nl].
Proof.
  destruct buffer as [|c l] using rev_ind; [discriminate|].
  rewrite last_snoc. intros [= ->]. eauto.
Qed.

(** One iteration: the new segment is the first line of the longer suffix, and
    what is yielded extends [yielded]. *)
Lemma rr_body_spec segment buffer s :
  buffer <> [] -> segment_of segment s ->
  (last buffer = Some nl -> s <> [] -> hd [] (split_nl s) <> []) ->
  exists ys,
    rr_body segment buffer = Ok (ys, hd [] (split_nl (buffer ++ s)))
    /\ yielded (buffer ++ s) = yielded s ++ ys.
Proof.
  intros Hbuf Hseg Hblank.
  destruct (split_nl_snoc buffer) as (xs & x & Hb).
  destruct (split_nl s) as [|y ys] eqn:Hs; [now apply split_nl_nonnil in Hs|].
  pose proof (split_nl_app buffer s xs x y ys Hb Hs) as Happ.
  unfold rr_body, yielded. rewrite Happ, Hb.
  destruct segment as [g|]; simpl in Hseg.
  - destruct Hseg as [Hsne ->]. rewrite Hs in *. simpl hd in *.
    destruct (last buffer) as [c|] eqn:Hlast;
      [|destruct buffer using rev_ind; [congruence|now rewrite last_snoc in Hlast]].
    destruct (is_nl c) eqn:Hc; simpl.
    + apply is_nl_true in Hc. subst c.
      destruct (last_nl_split buffer Hlast) as (b & ->).
      rewrite split_nl_snoc_nl in Hb. apply app_inj_tail in Hb as [<- <-].
      pose proof (split_nl_nonnil b) as Hbn.
      eexists. split.
      * rewrite hd_app_nonnil by assumption.
        rewrite (hd_app_nonnil _ (split_nl b)) by assumption. reflexivity.
      * rewrite !tail_app_nonnil by assumption.
        rewrite !rev_app_distr. simpl. rewrite !filter_app.
        rewrite <- !app_assoc. f_equal.
        assert (Hy : nonempty y = true)
          by (specialize (Hblank eq_refl Hsne); now destruct y).
        rewrite (filter_cons_True _ y) by assumption.
        reflexivity.
    + rewrite add_to_last_snoc. eexists. split.
      * now destruct xs.
      * replace (xs ++ (x ++ y) :: ys) with ((xs ++ [x ++ y]) ++ ys)
          by (now rewrite <- app_assoc).
        rewrite tail_app_nonnil by (now destruct xs).
        rewrite rev_app_distr, filter_app. reflexivity.
  - subst s. simpl in Hs. injection Hs as <- <-.
    simpl. rewrite app_nil_r. eexists. split; reflexivity.
Qed.

Lemma fh_read_chunk (c : list ascii) (k n : nat) :
  (0 < n)%nat -> (k + n <= length c)%nat ->
  fh_read (Z.of_nat k) (Z.of_nat n) c ++ drop (k + n) c = drop k c
  /\ fh_read (Z.of_nat k) (Z.of_nat n) c <> [].
Proof.
  intros Hn Hlen. unfold fh_read.
  assert ((Z.of_nat n <? 0) = false) as -> by lia.
  rewrite !Nat2Z.id. split.
  - rewrite <- drop_drop. apply take_drop.
  - intros Hnil. apply (f_equal length) in Hnil.
    rewrite length_take, length_drop in Hnil. simpl in Hnil. lia.
Qed.

Lemma filter_all {A} (P : A -> Prop) `{forall x, Decision (P x)} (l : list A) :
  Forall P l -> filter P l = l.
Proof.
  induction 1 as [|x l Hx Hl IH]; [reflexivity|].
  rewrite filter_cons_True by assumption. now rewrite IH.
Qed.

Lemma reversed_lines_exit segment c :
  segment_of segment c ->
  yielded c ++ match segment with Some s => [s] | None => [] end
  = reversed_lines c.
Proof.
  unfold reversed_lines. destruct segment as [g|]; simpl; intros Hseg.
  - destruct Hseg as [Hne ->]. destruct c; [congruence|reflexivity].
  - rewrite Hseg. reflexivity.
Qed.

(** The loop, from any iteration on: with enough fuel it runs to its end, and
    what it yields completes [yielded] to all the lines of the file. *)
Lemma rr_loop_spec (c : list ascii) (buf_size : Z) :
  0 < buf_size -> no_blank c ->
  forall fuel segment offset remaining_size,
    (Z.to_nat remaining_size <= fuel)%nat ->
    0 <= offset ->
    (0 < remaining_size -> remaining_size = Z.of_nat (length c) - offset) ->
    (remaining_size <= 0 -> offset = Z.of_nat (length c)) ->
    segment_of segment (drop (Z.to_nat (Z.of_nat (length c) - offset)) c) ->
    exists zs,
      rr_loop fuel c buf_size segment offset remaining_size
        = Some (zs, StopIteration)
      /\ yielded (drop (Z.to_nat (Z.of_nat (length c) - offset)) c) ++ zs
         = reversed_lines c.
Proof.
  intros Hbuf Hblank.
  induction fuel as [|fuel IH]; intros segment offset remaining Hfuel Hoff Hpos Hend Hseg.
  - assert (remaining <= 0) as Hle by lia.
    assert ((remaining >? 0) = false) as Hgt by lia.
    simpl. rewrite Hgt. specialize (Hend Hle). subst offset.
    rewrite Z.sub_diag in *. change (Z.to_nat 0) with 0%nat in *.
    rewrite drop_0 in *.
    eexists. split; [reflexivity|]. now apply reversed_lines_exit.
  - destruct (remaining >? 0) eqn:Hgt.
    2:{ assert (remaining <= 0) as Hle by lia.
        simpl. rewrite Hgt. specialize (Hend Hle). subst offset.
        rewrite Z.sub_diag in *. change (Z.to_nat 0) with 0%nat in *.
        rewrite drop_0 in *.
        eexists. split; [reflexivity|]. now apply reversed_lines_exit. }
    assert (0 < remaining) as Hrem by lia.
    specialize (Hpos Hrem).
    cbn [rr_loop]. rewrite Hgt.
    set (N := Z.of_nat (length c)) in *.
    set (offset' := Z.min N (offset + buf_size)).
    set (n := Z.min remaining buf_size).
    set (s := drop (Z.to_nat (N - offset)) c) in *.
    assert (Hk : N - offset' = Z.of_nat (Z.to_nat (N - offset'))) by lia.
    assert (Hn : n = Z.of_nat (Z.to_nat n)) by lia.
    assert (Hsum : (Z.to_nat (N - offset') + Z.to_nat n)%nat = Z.to_nat (N - offset))
      by lia.
    destruct (fh_read_chunk c (Z.to_nat (N - offset')) (Z.to_nat n))
      as [Hchunk Hne]; [lia|lia|].
    rewrite <- Hk, <- Hn, Hsum in Hchunk. rewrite <- Hk, <- Hn in Hne.
    fold s in Hchunk.
    set (buffer := fh_read (N - offset') n c) in *.
    destruct (rr_body_spec segment buffer s Hne Hseg) as (ys & Hbody & Hys).
    { intros Hlast Hs Hhd.
      destruct (last_nl_split buffer Hlast) as (b & Hb).
      destruct (hd_split_nl_nil s Hs Hhd) as (t & Ht).
      apply (Hblank (take (Z.to_nat (N - offset')) c ++ b) t).
      rewrite <- (take_drop (Z.to_nat (N - offset')) c) at 1.
      rewrite <- Hchunk, Hb, Ht, <- !app_assoc. reflexivity. }
    rewrite Hbody. rewrite Hchunk in Hbody, Hys.
    destruct (IH (Some (hd [] (split_nl (drop (Z.to_nat (N - offset')) c))))
                offset' (remaining - buf_size)) as (zs & Hloop & Hzs).
    + lia.
    + lia.
    + intros ?. lia.
    + intros ?. lia.
    + simpl. split; [|reflexivity].
      rewrite <- Hchunk. now destruct buffer.
    + rewrite Hchunk, Hloop. eexists. split; [reflexivity|].
      rewrite <- Hzs, Hys, <- app_assoc. reflexivity.
Qed.

(** On a file with no blank line and a positive buffer size the generator
    yields every line of the file, last line first, and stops. *)
Lemma rr_chars_reversed_lines (c : list ascii) (buf_size : Z) :
  0 < buf_size -> no_blank c ->
  rr_chars c buf_size = Some (reversed_lines c, StopIteration).
Proof.
  intros Hbuf Hblank. unfold rr_chars.
  destruct (rr_loop_spec c buf_size Hbuf Hblank (S (length c)) None 0
              (Z.of_nat (length c))) as (zs & Hloop & Hzs).
  - lia.
  - lia.
  - lia.
  - intros ?. lia.
  - simpl. rewrite Z.sub_0_r, Nat2Z.id. apply drop_all.
  - rewrite Hloop. rewrite Z.sub_0_r, Nat2Z.id, drop_all in Hzs.
    unfold yielded in Hzs. simpl in Hzs. now rewrite <- Hzs.
Qed.

Lemma reversed_lines_file_of entries :
  Forall nl_free entries -> Forall (fun e => e <> []) entries ->
  reversed_lines (file_of entries) = rev entries.
Proof.
  intros Hfree Hne. unfold reversed_lines, yielded.
  rewrite split_nl_file_of by assumption.
  destruct entries as [|e es]; [reflexivity|].
  inversion Hne as [|? ? He Hes]; subst.
  assert (Hfile : file_of (e :: es) <> []).
  { unfold file_of. simpl. now destruct e. }
  destruct (file_of (e :: es)); [congruence|].
  simpl tail. simpl hd. rewrite rev_app_distr. simpl.
  rewrite filter_cons_False by (simpl; congruence).
  f_equal. apply filter_all. apply Forall_rev.
  eapply Forall_impl; [exact Hes|]. intros l0 Hl0. now destruct l0.
Qed.

Lemma rr_loop_enough_fuel (c : list ascii) (buf_size : Z) :
  0 < buf_size ->
  forall fuel segment offset remaining_size,
    (Z.to_nat remaining_size <= fuel)%nat ->
    rr_loop fuel c buf_size segment offset remaining_size <> None.
Proof.
  intros Hbuf. induction fuel as [|fuel IH]; intros segment offset remaining Hfuel.
  - simpl. assert ((remaining >? 0) = false) as -> by lia. discriminate.
  - cbn [rr_loop]. destruct (remaining >? 0) eqn:Hgt; [|discriminate].
    destruct (rr_body _ _) as [[ys seg]|e]; [|discriminate].
    specialize (IH (Some seg) (Z.min (Z.of_nat (length c)) (offset + buf_size))
                  (remaining - buf_size) ltac:(lia)).
    destruct (rr_loop fuel c buf_size (Some seg) _ _) as [[zs e]|];
      [discriminate|congruence].
Qed.

Lemma fh_read_past_end (c : list ascii) (pos n : Z) :
  Z.of_nat (length c) <= pos -> fh_read pos n c = [].
Proof.
  intros Hpos. unfold fh_read.
  assert (drop (Z.to_nat pos) c = []) as -> by (apply drop_ge; lia).
  destruct (n <? 0); [reflexivity|apply take_nil].
Qed.

(** With a buffer size that is not positive the generator reads nothing and
    fails at its second read. *)
Lemma rr_chars_no_buffer (c : list ascii) (buf_size : Z) :
  buf_size <= 0 -> c <> [] ->
  rr_chars c buf_size = Some ([], Raised IndexError).
Proof.
  intros Hbuf Hc. unfold rr_chars.
  destruct c as [|a c]; [congruence|].
  set (content := a :: c). set (N := Z.of_nat (length content)).
  assert (HN : 0 < N) by (subst N content; simpl length; lia).
  change (S (length content)) with (S (S (length c))).
  cbn [rr_loop]. fold N.
  assert ((N >? 0) = true) as -> by lia.
  rewrite fh_read_past_end by (fold N; lia).
  cbn [rr_body split_nl rbind tail hd rev filter app].
  assert ((N - buf_size >? 0) = true) as -> by lia.
  rewrite fh_read_past_end by (fold N; lia).
  reflexivity.
Qed.

(** The generator always comes to an end: the fuel of [rr_chars] is enough
    for every file and every buffer size. *)
Theorem rr_chars_total (c : list ascii) (buf_size : Z) :
  exists lines stop, rr_chars c buf_size = Some (lines, stop).
Proof.
  destruct (Z.lt_ge_cases 0 buf_size) as [Hpos|Hneg].
  - pose proof (rr_loop_enough_fuel c buf_size Hpos (S (length c)) None 0
                  (Z.of_nat (length c)) ltac:(lia)) as Hsome.
    unfold rr_chars. destruct (rr_loop _ _ _ _ _ _) as [[lines stop]|];
      [eauto|congruence].
  - destruct c as [|a c].
    + exists [], StopIteration. reflexivity.
    + exists [], (Raised IndexError). now apply rr_chars_no_buffer.
Qed.

End ReverseReadlineFacts.

(* ===================================================================== *)
(** * Facts: the handlers of [log] and [upvote]                           *)
(* ===================================================================== *)

Section HandlerFacts.
Context {L : Libs}.

Lemma bind_eq {A B} (m : M A) (k : A -> M B) st :
  (m ≫= k) st
  = match m st with
    | (Ok a, st') => k a st'
    | (Raise e, st') => (Raise e, st')
    end.
Proof. reflexivity. Qed.

Lemma bind_ret {A B} (a : A) (k : A -> M B) st : (ret a ≫= k) st = k a st.
Proof. reflexivity. Qed.

Lemma bind_lift {A B} (r : result A) (k : A -> M B) st :
  (lift r ≫= k) st = match r with Ok a => k a st | Raise e => (Raise e, st) end.
Proof. unfold mbind, M_bind, bind, lift. now destruct r. Qed.

Lemma bind_gets {A B} (f : server -> A) (k : A -> M B) st :
  (gets f ≫= k) st = k (f st) st.
Proof. reflexivity. Qed.

Lemma bind_session {B} (k : string -> M B) st :
  (get_session_uid ≫= k) st
  = match session_uid st with
    | Some uid => k uid st
    | None => (Raise AttributeError, st)
    end.
Proof.
  unfold get_session_uid, mbind, M_bind, bind, gets, ret, raise.
  now destruct (session_uid st).
Qed.

(** C8. A log request whose data has no [type] changes nothing: no log file
    is written and nothing is sent.  The handler returns, except on data
    that is no container at all, where the membership test raises. *)
Theorem handle_log_without_type (data : pyval) (st : server) :
  py_contains data "type" <> Ok true ->
  handle_log data st
  = (match py_contains data "type" with
     | Ok _ => Ok tt
     | Raise e => Raise e
     end, st).
Proof.
  intros Hno. unfold handle_log. rewrite bind_lift.
  destruct (py_contains data "type") as [[|]|e]; [congruence|reflexivity..].
Qed.


(** C1, as the code has it. A second upvote by a voter already in the
    upvoters of the struct leaves the stored file as it is, but the handler
    does not get to the broadcast: [timestamp] is read before it was ever
    assigned, and the handler raises. *)
Theorem upvote_again_raises (data : pyval) (st : server)
    (uid owner id content : string) (upvotes : list pyval) :
  session_uid st = Some uid ->
  uid <> EmptyString ->
  py_getitem data "uid" = Ok (PStr owner) ->
  py_getitem data "id" = Ok (PStr id) ->
  struct_file st owner (String.append id dot_json) = Some content ->
  json_loads (strip (readline_nth 0 content)) = Some (PList upvotes) ->
  PStr uid ∈ upvotes ->
  upvote data st = (Raise UnboundLocalError, st).
Proof.
  intros Huid Hne Hu Hi Hfile Hloads Hin.
  unfold upvote. rewrite bind_session, Huid.
  destruct (String.eqb_spec uid ""); [congruence|].
  rewrite bind_lift, Hu. simpl. rewrite bind_lift, Hi. simpl.
  rewrite bind_gets, Hfile, bind_lift, Hloads, bind_lift. simpl.
  assert (existsb (fun x => py_eq_str x uid) upvotes = true) as ->.
  { apply existsb_exists. exists (PStr uid). split.
    - now apply list_elem_of_In.
    - simpl. apply String.eqb_refl. }
  reflexivity.
Qed.

(** C7, as the code has it. For a struct submitted exactly two intervals
    after the current time, [time_ago + 2] is zero, its power is zero, and
    the division raises; so for the timestamp decoded from a struct file as
    for the line read from it. *)
Theorem score_struct_two_intervals_ahead
    (uid : option string) (files : gmap string (gmap string string))
    (logfiles : gmap string string) (sent : list event) :
  let st := Server 1800000000 uid files logfiles sent in
  score_struct (PInt 1800003600) 1 st = (Raise ZeroDivisionError, st)
  /\ score_struct (PStr "1800003600") 1 st = (Raise ZeroDivisionError, st).
Proof. split; reflexivity. Qed.

Lemma not_among_upvotes (uid : string) (upvotes : list pyval) :
  PStr uid ∉ upvotes -> existsb (fun x => py_eq_str x uid) upvotes = false.
Proof.
  intros Hnot. apply not_true_is_false. intros Hex.
  apply existsb_exists in Hex as (x & Hin & Heq).
  destruct x; simpl in Heq; try discriminate.
  apply String.eqb_eq in Heq. subst. now apply list_elem_of_In in Hin.
Qed.

(** What [upvote] does for a voter who is not among the upvoters. *)
Lemma upvote_adds_voter (data : pyval) (st : server)
    (uid owner id content : string) (upvotes : list pyval) :
  session_uid st = Some uid ->
  uid <> EmptyString ->
  py_getitem data "uid" = Ok (PStr owner) ->
  py_getitem data "id" = Ok (PStr id) ->
  struct_file st owner (String.append id dot_json) = Some content ->
  json_loads (strip (readline_nth 0 content)) = Some (PList upvotes) ->
  PStr uid ∉ upvotes ->
  let upvotes' := PList (upvotes ++ [PStr uid]) in
  let st' := with_struct st owner (String.append id dot_json)
               (upvoted_text upvotes' content) in
  upvote data st
  = match score_at (now st) (PStr (readline_nth 1 content))
            (Z.of_nat (length (upvotes ++ [PStr uid]))) with
    | Ok score =>
        (Ok tt,
         with_events st'
           [Event "upvote" (upvote_message (PStr owner) (PStr id) uid score)
                  community])
    | Raise e => (Raise e, st')
    end.
Proof.
  intros Huid Hne Hu Hi Hfile Hloads Hnot upvotes' st'.
  unfold upvote. rewrite bind_session, Huid.
  destruct (String.eqb_spec uid ""); [congruence|].
  rewrite bind_lift, Hu. simpl. rewrite bind_lift, Hi. simpl.
  rewrite bind_gets, Hfile, bind_lift, Hloads, bind_lift. simpl.
  rewrite (not_among_upvotes uid upvotes Hnot). simpl.
  unfold struct_file in Hfile.
  destruct (structs st !! owner) as [folder|] eqn:Hfolder; [|discriminate].
  unfold mbind, M_bind, bind, write_struct, lift, ret, raise, score_struct,
    current_unix_time, gets, emit. simpl. rewrite Hfolder. simpl.
  fold upvotes'. subst st'. unfold with_struct, upvoted_text. rewrite Hfolder.
  simpl. destruct (score_at _ _ _); reflexivity.
Qed.


End HandlerFacts.

(* ===================================================================== *)
(** * Facts: the lines of a struct file                                   *)
(* ===================================================================== *)

Module LineFacts.
Import Text.

Lemma append_nil_r (s : string) : String.append s EmptyString = s.
Proof.
  induction s as [|c s IH]; [reflexivity|].
  change (String c (String.append s EmptyString) = String c s). now rewrite IH.
Qed.

(** A first line without terminator inside, then the rest. *)
Lemma readlines_first (d s : string) :
  nl ∉ list_ascii_of_string d ->
  readlines (String.append d (String.append newline s))
  = String.append d newline :: readlines s.
Proof.
  induction d as [|c d IH]; intros Hfree.
  - reflexivity.
  - simpl in Hfree. apply not_elem_of_cons in Hfree as [Hc Hd].
    simpl. assert (is_nl c = false) as -> by (now apply bool_decide_eq_false).
    now rewrite (IH Hd).
Qed.

(** The lines from the [i]-th on are the lines of what they make up. *)
Lemma readlines_drop (c : string) (i : nat) :
  readlines (str_concat (drop i (readlines c))) = drop i (readlines c).
Proof.
  revert i. induction c as [|ch c IH]; intros i.
  - now destruct i.
  - simpl. destruct (is_nl ch) eqn:Hch.
    + destruct i as [|i]; [|apply IH].
      simpl. rewrite Hch. f_equal. apply (IH 0%nat).
    + destruct (readlines c) as [|l ls] eqn:Hc.
      * destruct i as [|i]; [|now destruct i].
        simpl. now rewrite Hch.
      * destruct i as [|i]; [|apply (IH (S i))].
        simpl. rewrite Hch. specialize (IH 0%nat). simpl in IH.
        now rewrite IH.
Qed.

(** The first [k] lines are the lines of what they make up. *)
Lemma readlines_take (c : string) (k : nat) :
  readlines (str_concat (take k (readlines c))) = take k (readlines c).
Proof.
  revert k. induction c as [|ch c IH]; intros k.
  - now destruct k.
  - destruct k as [|k]; [reflexivity|].
    simpl. destruct (is_nl ch) eqn:Hch.
    + simpl. rewrite Hch. f_equal. apply IH.
    + destruct (readlines c) as [|l ls] eqn:Hc.
      * simpl. rewrite Hch. now destruct k.
      * simpl. rewrite Hch. specialize (IH (S k)). simpl in IH.
        now rewrite IH.
Qed.

Lemma nth_drop_add {A} (l : list A) (i j : nat) (d : A) :
  nth j (drop i l) d = nth (i + j) l d.
Proof.
  revert l. induction i as [|i IH]; intros l; [reflexivity|].
  destruct l as [|x l]; [now destruct j|]. apply IH.
Qed.

(** Two lines that follow each other in a file are the lines of what they
    make up. *)
Lemma readlines_pair (c : string) (i : nat) :
  readlines (String.append (nth i (readlines c) EmptyString)
                           (nth (S i) (readlines c) EmptyString))
  = take 2 (drop i (readlines c)).
Proof.
  rewrite <- (readlines_drop c i).
  set (c' := str_concat (drop i (readlines c))).
  rewrite <- (readlines_take c' 2). f_equal.
  subst c'. rewrite (readlines_drop c i).
  replace i with (i + 0)%nat at 1 by lia.
  replace (S i) with (i + 1)%nat by lia.
  rewrite <- !nth_drop_add.
  destruct (drop i (readlines c)) as [|a [|b ys]]; simpl;
    now rewrite ?append_nil_r.
Qed.

Lemma nth_take_lt {A} (l : list A) (i k : nat) (d : A) :
  (i < k)%nat -> nth i (take k l) d = nth i l d.
Proof.
  revert i k. induction l as [|x l IH]; intros i k Hik.
  - now rewrite take_nil.
  - destruct k as [|k]; [lia|]. destruct i as [|i]; [reflexivity|].
    simpl. apply IH. lia.
Qed.

(** A struct file rewritten by [upvote]: the new first line, the old second
    and third line. *)
Lemma upvoted_text_lines {L : Libs} (v : pyval) (content : string) :
  nl ∉ list_ascii_of_string (json_dumps v) ->
  readline_nth 0 (upvoted_text v content) = String.append (json_dumps v) newline
  /\ readline_nth 1 (upvoted_text v content) = readline_nth 1 content
  /\ readline_nth 2 (upvoted_text v content) = readline_nth 2 content.
Proof.
  intros Hfree.
  assert (Hlines : readlines (upvoted_text v content)
                   = String.append (json_dumps v) newline
                     :: take 2 (drop 1 (readlines content))).
  { unfold upvoted_text. rewrite readlines_first by assumption.
    unfold readline_nth. now rewrite (readlines_pair content 1). }
  unfold readline_nth. rewrite Hlines. simpl nth.
  repeat split.
  - rewrite nth_take_lt by lia. apply (nth_drop_add _ 1 0).
  - rewrite nth_take_lt by lia. apply (nth_drop_add _ 1 1).
Qed.

End LineFacts.

(* ===================================================================== *)
(** * Facts: upvotes of several voters, one after the other               *)
(* ===================================================================== *)

Section InTurnFacts.
Context {L : Libs}.
Import LineFacts.

(** Opening a session sets [session.uid] and writes to the log. *)
Lemma session_run (sessionId : string) (st : server) :
  exists logfiles,
    session sessionId st
    = (Ok tt, Server (now st) (Some sessionId) (structs st) logfiles (emitted st)).
Proof. eexists. reflexivity. Qed.

Lemma struct_file_with_struct st uid fname content :
  struct_file (with_struct st uid fname content) uid fname = Some content.
Proof.
  unfold struct_file, with_struct. simpl.
  rewrite lookup_insert_eq. simpl. apply lookup_insert_eq.
Qed.

(** After the upvote of a new voter the struct file holds the new
    upvoters, whether the score could be computed or not. *)
Lemma upvote_adds_voter_file (data : pyval) (st : server)
    (uid owner id content : string) (upvotes : list pyval) :
  session_uid st = Some uid ->
  uid <> EmptyString ->
  py_getitem data "uid" = Ok (PStr owner) ->
  py_getitem data "id" = Ok (PStr id) ->
  struct_file st owner (String.append id dot_json) = Some content ->
  json_loads (strip (readline_nth 0 content)) = Some (PList upvotes) ->
  PStr uid ∉ upvotes ->
  struct_file (upvote data st).2 owner (String.append id dot_json)
  = Some (upvoted_text (PList (upvotes ++ [PStr uid])) content).
Proof.
  intros Huid Hne Hu Hi Hfile Hloads Hnot.
  rewrite (upvote_adds_voter data st uid owner id content upvotes)
    by assumption.
  destruct (score_at _ _ _); apply struct_file_with_struct.
Qed.


End InTurnFacts.

(* ===================================================================== *)
(** * Facts: [reverse_readline] on a log file                             *)
(* ===================================================================== *)

Module LogScanFacts.
Import Text TextFacts ReverseReadline ReverseReadlineFacts.

Lemma chars_append (a b : string) :
  list_ascii_of_string (String.append a b)
  = list_ascii_of_string a ++ list_ascii_of_string b.
Proof. induction a as [|c a IH]; simpl; [reflexivity|now rewrite IH]. Qed.

Lemma chars_log_text entries :
  list_ascii_of_string (log_text entries)
  = file_of (map list_ascii_of_string entries).
Proof.
  induction entries as [|e es IH]; [reflexivity|].
  unfold file_of in *. simpl. rewrite !chars_append, IH.
  now rewrite <- app_assoc.
Qed.

Lemma strings_of_chars (entries : list string) :
  map string_of_list_ascii (map list_ascii_of_string entries) = entries.
Proof.
  induction entries as [|e es IH]; simpl; [reflexivity|].
  now rewrite string_of_list_ascii_of_string, IH.
Qed.

Lemma filter_rev {A} (P : A -> Prop) `{forall x, Decision (P x)} (l : list A) :
  filter P (rev l) = rev (filter P l).
Proof.
  induction l as [|x l IH]; [reflexivity|].
  simpl rev. rewrite filter_app, IH.
  destruct (decide (P x)) as [Hx|Hx].
  - rewrite (filter_cons_True P x l Hx), (filter_cons_True P x [] Hx).
    reflexivity.
  - rewrite (filter_cons_False P x l Hx), (filter_cons_False P x [] Hx).
    simpl. now rewrite app_nil_r.
Qed.

(** The first [n] of the reversed list are the last [n], reversed. *)
Lemma take_rev_last_n {A} (n : nat) (l : list A) :
  take n (rev l) = rev (last_n n l).
Proof. unfold last_n. apply firstn_rev. Qed.

(** The generator on a log file: the entries, newest first. *)
Lemma reverse_readline_log_text (entries : list string) (buf_size : Z) :
  0 < buf_size ->
  Forall entry_ok entries ->
  reverse_readline (log_text entries) buf_size
  = Some (rev entries, StopIteration).
Proof.
  intros Hbuf Hok.
  assert (Hfree : Forall nl_free (map list_ascii_of_string entries)).
  { apply Forall_map. eapply Forall_impl; [exact Hok|]. now intros e [_ He]. }
  assert (Hne : Forall (fun e => e <> []) (map list_ascii_of_string entries)).
  { apply Forall_map. eapply Forall_impl; [exact Hok|].
    intros e [He _] Hnil. apply He.
    rewrite <- (string_of_list_ascii_of_string e). now rewrite Hnil. }
  unfold reverse_readline. rewrite chars_log_text.
  rewrite rr_chars_reversed_lines.
  - rewrite reversed_lines_file_of by assumption.
    now rewrite map_rev, strings_of_chars.
  - exact Hbuf.
  - intros u v. now apply file_of_no_blank.
Qed.

(** C2. On a log file of entries, each one non-empty line, and for every
    positive buffer size, [reverse_readline] yields exactly the entries,
    newest first, and stops; so the first [maxCount] of the yielded lines
    that satisfy a predicate are the last [maxCount] entries of the log that
    satisfy it, newest first. *)
Theorem reverse_readline_newest_first (entries : list string) (buf_size : Z) :
  0 < buf_size ->
  Forall entry_ok entries ->
  exists lines,
    reverse_readline (log_text entries) buf_size = Some (lines, StopIteration)
    /\ lines = rev entries
    /\ forall (P : string -> Prop) (dec : forall e, Decision (P e)) (maxCount : nat),
         take maxCount (filter P lines)
         = rev (last_n maxCount (filter P entries)).
Proof.
  intros Hbuf Hok. exists (rev entries).
  split; [now apply reverse_readline_log_text|].
  split; [reflexivity|].
  intros P dec maxCount. rewrite filter_rev. apply take_rev_last_n.
Qed.

Section Utterances.
Context {L : Libs}.

(** The loop of [emit_utterances], started with [count] utterances: it adds
    the next utterances until there are eleven. *)
Lemma collect_utterances_spec (lines utts : list string) (count : Z) :
  Forall typed_entry lines ->
  0 <= count <= 10 ->
  collect_utterances lines utts count
  = Ok (utts ++ take (Z.to_nat (11 - count))
                  (filter (fun e => is_utterance e = true) lines)).
Proof.
  intros Htyped. revert utts count.
  induction Htyped as [|line lines (v & type & Hv & Htype) _ IH];
    intros utts count Hcount.
  - rewrite filter_nil, take_nil, app_nil_r. reflexivity.
  - cbn [collect_utterances]. rewrite Hv. simpl. rewrite Htype. simpl.
    assert (Hutt : is_utterance line
                   = py_eq_str type "accept" || py_eq_str type "define")
      by (unfold is_utterance; now rewrite Hv, Htype).
    destruct (py_eq_str type "accept" || py_eq_str type "define").
    + rewrite filter_cons_True by assumption.
      destruct (count + 1 >? 10) eqn:Hfull.
      * assert (count = 10) as -> by lia. reflexivity.
      * rewrite IH by lia.
        replace (Z.to_nat (11 - count)) with (S (Z.to_nat (11 - (count + 1))))
          by lia.
        simpl. now rewrite <- app_assoc.
    + rewrite filter_cons_False by (rewrite Hutt; discriminate).
      assert ((count >? 10) = false) as -> by lia.
      now apply IH.
Qed.

(** The utterances sent for a log file: its last eleven entries of type
    [accept] or [define], newest first. *)
Theorem utterances_of_log_text (entries : list string) :
  Forall entry_ok entries ->
  Forall typed_entry entries ->
  utterances_of (log_text entries)
  = Some (Ok (rev (last_n 11 (filter (fun e => is_utterance e = true) entries)))).
Proof.
  intros Hok Htyped. unfold utterances_of.
  rewrite reverse_readline_log_text by (assumption || reflexivity).
  rewrite collect_utterances_spec; [|now apply Forall_rev|lia].
  simpl. rewrite filter_rev. now rewrite take_rev_last_n.
Qed.

End Utterances.

End LogScanFacts.

(* ===================================================================== *)
(** * Facts: file names and the numbers in them                           *)
(* ===================================================================== *)

Module NameFacts.

Import Reference.

Lemma digit_plain c :
  is_digit c = true ->
  is_space c = false /\ Ascii.eqb c "-" = false /\ Ascii.eqb c "+" = false.
Proof.
  destruct c as [[] [] [] [] [] [] [] []]; vm_compute; intuition congruence.
Qed.

Lemma string_of_uint_digits d :
  Forall (fun c => is_digit c = true)
         (list_ascii_of_string (NilEmpty.string_of_uint d)).
Proof. induction d; simpl; constructor; (reflexivity || assumption). Qed.

Lemma rstrip_no_space s :
  Forall (fun c => is_space c = false) (list_ascii_of_string s) -> rstrip s = s.
Proof.
  induction s as [|c s IH]; intros Hs; [reflexivity|].
  simpl in Hs. inversion Hs as [|? ? Hc Hs']; subst.
  simpl. rewrite (IH Hs'). destruct s; [now rewrite Hc|reflexivity].
Qed.

Lemma strip_no_space s :
  Forall (fun c => is_space c = false) (list_ascii_of_string s) -> strip s = s.
Proof.
  intros Hs. unfold strip. rewrite (rstrip_no_space s Hs).
  destruct s as [|c s]; [reflexivity|].
  simpl in Hs. inversion Hs as [|? ? Hc _]; subst. simpl. now rewrite Hc.
Qed.

Lemma digits_no_space s :
  Forall (fun c => is_digit c = true) (list_ascii_of_string s) ->
  Forall (fun c => is_space c = false) (list_ascii_of_string s).
Proof.
  intros H. eapply Forall_impl; [exact H|]. intros c Hc. now apply digit_plain.
Qed.

Lemma int_of_str_digits d :
  d <> Decimal.Nil ->
  int_of_str (NilEmpty.string_of_uint d) = Ok (Z.of_uint d)
  /\ int_of_str (String "-" (NilEmpty.string_of_uint d)) = Ok (- Z.of_uint d).
Proof.
  intros Hd. pose proof (string_of_uint_digits d) as Hdig.
  assert (Hparse : NilZero.uint_of_string (NilEmpty.string_of_uint d) = Some d).
  { rewrite <- (NilZero.usu d Hd). now destruct d. }
  split; unfold int_of_str.
  - rewrite strip_no_space by now apply digits_no_space.
    destruct (NilEmpty.string_of_uint d) as [|c t] eqn:Hs;
      [now destruct d|].
    simpl in Hdig. inversion Hdig as [|? ? Hc _]; subst.
    destruct (digit_plain c Hc) as (_ & -> & ->). now rewrite Hparse.
  - rewrite strip_no_space.
    + simpl. now rewrite Hparse.
    + simpl. constructor; [reflexivity|]. now apply digits_no_space.
Qed.

(** [int(str(z))] is [z]. *)
Lemma int_of_str_py_str z : int_of_str (py_str z) = Ok z.
Proof.
  unfold py_str. destruct z as [|p|p]; [reflexivity| |].
  - pose proof (DecimalPos.Unsigned.to_uint_nonnil p) as Hd.
    destruct (int_of_str_digits (Pos.to_uint p) Hd) as [H _].
    simpl. unfold NilZero.string_of_uint.
    destruct (Pos.to_uint p) eqn:Hp; [congruence|..]; rewrite H;
      f_equal; rewrite <- Hp; exact (DecimalZ.of_to (Z.pos p)).
  - pose proof (DecimalPos.Unsigned.to_uint_nonnil p) as Hd.
    destruct (int_of_str_digits (Pos.to_uint p) Hd) as [_ H].
    simpl. unfold NilZero.string_of_uint.
    destruct (Pos.to_uint p) eqn:Hp; [congruence|..]; rewrite H;
      f_equal; rewrite <- Hp; exact (DecimalZ.of_to (Z.neg p)).
Qed.

Lemma length_chars s : String.length s = length (list_ascii_of_string s).
Proof. induction s; simpl; congruence. Qed.

(** [(s + ".json")[:-5]] is [s]. *)
Lemma str_drop_end_json s : str_drop_end 5 (String.append s dot_json) = s.
Proof.
  unfold str_drop_end, str_take.
  rewrite length_chars, LogScanFacts.chars_append, length_app. simpl length.
  replace (length (list_ascii_of_string s) + 5 - 5)%nat
    with (length (list_ascii_of_string s)) by lia.
  rewrite take_app_length. apply string_of_list_ascii_of_string.
Qed.

Lemma int_of_struct_name k : int_of_str (str_drop_end 5 (struct_name k)) = Ok k.
Proof. unfold struct_name. now rewrite str_drop_end_json, int_of_str_py_str. Qed.

Lemma struct_name_inj k k' : struct_name k = struct_name k' -> k = k'.
Proof.
  intros H. pose proof (int_of_struct_name k) as Hk.
  rewrite H, int_of_struct_name in Hk. congruence.
Qed.

End NameFacts.

(* ===================================================================== *)
(** * Facts: the identifiers [handle_share] gives                         *)
(* ===================================================================== *)

Section ShareFacts.
Context {L : Libs}.
Import NameFacts.

Lemma max_le_all (n d : Z) (ids : list Z) :
  d <= n -> Forall (fun k => k <= n) ids -> foldr Z.max d ids <= n.
Proof. intros Hd. induction 1; simpl; lia. Qed.

Lemma max_is_bound (n d : Z) (ids : list Z) :
  d <= n -> Forall (fun k => k <= n) ids -> n ∈ ids -> foldr Z.max d ids = n.
Proof.
  intros Hd Hall Hin. induction Hall as [|k ids Hk Hall IH]; simpl.
  - now apply elem_of_nil in Hin.
  - pose proof (max_le_all n d ids Hd Hall).
    apply elem_of_cons in Hin as [->|Hin]; [lia|].
    rewrite (IH Hin). lia.
Qed.

(** The numbers of the files of a numbered folder, as the list comprehension
    of [handle_share] reads them. *)
Lemma ids_of_names (n : Z) (names : list string) :
  Forall (fun name => exists k, 1 <= k <= n /\ name = struct_name k) names ->
  exists ids,
    foldr (fun name acc =>
             i <-? int_of_str (str_drop_end 5 name);
             others <-? acc;
             Ok (i :: others)) (Ok []) names = Ok ids
    /\ Forall (fun k => k <= n) ids
    /\ (forall k, struct_name k ∈ names -> k ∈ ids).
Proof.
  induction 1 as [|name names (k & Hk & ->) Hall (ids & Hids & Hle & Hin)].
  - exists []. repeat split; [constructor|].
    intros k Hk. now apply elem_of_nil in Hk.
  - exists (k :: ids). simpl. rewrite int_of_struct_name. simpl.
    rewrite Hids. simpl. repeat split.
    + constructor; [lia|exact Hle].
    + intros k' Hk'. apply elem_of_cons in Hk' as [Heq|Hk'].
      * apply struct_name_inj in Heq. subst. left.
      * right. now apply Hin.
Qed.

Lemma names_of_folder (folder : gmap string string) (name : string) :
  name ∈ map fst (map_to_list folder) <-> is_Some (folder !! name).
Proof.
  rewrite list_elem_of_fmap. split.
  - intros ([k v] & -> & Hkv). apply elem_of_map_to_list in Hkv. now exists v.
  - intros [v Hv]. exists (name, v). split; [reflexivity|].
    now apply elem_of_map_to_list.
Qed.

(** In a numbered folder the new struct gets the number of files plus one. *)
Lemma new_struct_id_numbered (folder : gmap string string) :
  numbered folder ->
  new_struct_id_of (map fst (map_to_list folder))
  = Ok (py_str (Z.of_nat (size folder) + 1)).
Proof.
  intros Hnum.
  assert (Hlen : length (map fst (map_to_list folder)) = size folder)
    by (now rewrite length_map, length_map_to_list).
  destruct (ids_of_names (Z.of_nat (size folder)) (map fst (map_to_list folder)))
    as (ids & Hids & Hle & Hin).
  { apply Forall_forall. intros name Hname.
    apply names_of_folder, Hnum in Hname. exact Hname. }
  unfold new_struct_id_of.
  destruct (map fst (map_to_list folder)) as [|name names] eqn:Hnames.
  - simpl in Hlen. now rewrite <- Hlen.
  - rewrite Hids. simpl. do 2 f_equal.
    assert (Hn : Z.of_nat (size folder) ∈ ids).
    { apply Hin. rewrite <- Hnames. apply names_of_folder, Hnum.
      exists (Z.of_nat (size folder)). split; [|reflexivity].
      simpl in Hlen. lia. }
    f_equal. apply max_is_bound; [|exact Hle|exact Hn].
    destruct ids as [|k ids']; [now apply elem_of_nil in Hn|].
    simpl. now inversion Hle.
Qed.

Lemma numbered_empty : numbered ∅.
Proof.
  intros name. rewrite lookup_empty, map_size_empty. split.
  - intros [? ?]. discriminate.
  - intros (k & Hk & _). simpl in Hk. lia.
Qed.

Lemma numbered_fresh (folder : gmap string string) :
  numbered folder ->
  folder !! struct_name (Z.of_nat (size folder) + 1) = None.
Proof.
  intros Hnum. apply eq_None_not_Some. intros Hsome.
  apply Hnum in Hsome as (k & Hk & Heq).
  apply struct_name_inj in Heq. lia.
Qed.

Lemma numbered_add (folder : gmap string string) (content : string) :
  numbered folder ->
  numbered (<[struct_name (Z.of_nat (size folder) + 1) := content]> folder).
Proof.
  intros Hnum name.
  rewrite map_size_insert_None by now apply numbered_fresh.
  rewrite lookup_insert_is_Some. split.
  - intros [<-|[Hne Hsome]].
    + exists (Z.of_nat (size folder) + 1). split; [lia|reflexivity].
    + apply Hnum in Hsome as (k & Hk & ->). exists k. split; [lia|reflexivity].
  - intros (k & Hk & ->).
    destruct (decide (k = Z.of_nat (size folder) + 1)) as [->|Hne].
    + now left.
    + right. split.
      * intros Heq. apply struct_name_inj in Heq. congruence.
      * apply Hnum. exists k. split; [lia|reflexivity].
Qed.

Lemma numbered_rewrite (folder : gmap string string) (fname content : string) :
  is_Some (folder !! fname) ->
  numbered folder -> numbered (<[fname := content]> folder).
Proof.
  intros Hsome Hnum name.
  rewrite map_size_insert_Some by assumption.
  assert (Hsame : is_Some (<[fname := content]> folder !! name)
                  <-> is_Some (folder !! name)).
  { rewrite lookup_insert_is_Some. split.
    - intros [<-|[_ H]]; assumption.
    - intros H. destruct (decide (fname = name)); [now left|now right]. }
  rewrite Hsame. apply Hnum.
Qed.

Lemma server_eta st :
  Server (now st) (session_uid st) (structs st) (logs st) (emitted st) = st.
Proof. now destruct st. Qed.

(** What [handle_share] does in a numbered folder, case by case: the score
    fails and only the folder is made; the request has no struct and the
    file keeps its first two lines; or the struct is stored and announced. *)
Lemma handle_share_spec (data : pyval) (st : server) (uid : string) :
  session_uid st = Some uid ->
  numbered (default ∅ (structs st !! uid)) ->
  let folder := default ∅ (structs st !! uid) in
  let id := py_str (Z.of_nat (size folder) + 1) in
  let name := struct_name (Z.of_nat (size folder) + 1) in
  handle_share data st =
    match score_at (now st) (PInt (now st)) 0 with
    | Raise e =>
        (Raise e, Server (now st) (session_uid st) (<[uid := folder]> (structs st))
                    (logs st) (emitted st))
    | Ok score =>
        match py_getitem data "struct" with
        | Raise e =>
            (Raise e,
             Server (now st) (session_uid st)
               (<[uid := <[name := share_head (now st)]> folder]> (structs st))
               (logs st) (emitted st))
        | Ok struct =>
            (Ok tt,
             Server (now st) (session_uid st)
               (<[uid := <[name := String.append (share_head (now st))
                                     (json_dumps struct)]> folder]> (structs st))
               (logs st)
               (emitted st
                ++ [Event "struct" (share_message uid id score struct) community]))
        end
    end.
Proof.
  intros Huid Hnum folder id name.
  unfold handle_share. rewrite bind_session, Huid.
  rewrite bind_eq.
  assert (Hdir : make_dir_if_necessary uid st
                 = (Ok tt, Server (now st) (session_uid st)
                             (<[uid := folder]> (structs st)) (logs st) (emitted st))).
  { unfold make_dir_if_necessary, folder.
    destruct (structs st !! uid) as [f|] eqn:Hf; simpl; [|reflexivity].
    rewrite insert_id by assumption. now rewrite server_eta. }
  rewrite Hdir. clear Hdir.
  set (st1 := Server (now st) (session_uid st) (<[uid := folder]> (structs st))
                (logs st) (emitted st)).
  assert (Hf1 : structs st1 !! uid = Some folder) by apply lookup_insert_eq.
  rewrite bind_eq. unfold listdir at 1. rewrite Hf1.
  rewrite bind_lift, (new_struct_id_numbered folder Hnum).
  unfold current_unix_time at 1. rewrite bind_gets.
  unfold score_struct, current_unix_time. rewrite bind_eq, bind_gets.
  unfold lift at 1. change (now st1) with (now st).
  destruct (score_at (now st) (PInt (now st)) 0) as [score|e];
    [|subst st1; now rewrite Huid].
  rewrite bind_eq. unfold write_struct at 1. rewrite Hf1.
  rewrite bind_lift.
  destruct (py_getitem data "struct") as [struct|e].
  - rewrite bind_eq. unfold write_struct at 1. simpl structs.
    rewrite lookup_insert_eq. unfold emit. simpl.
    rewrite !insert_insert_eq, Huid. reflexivity.
  - simpl. rewrite !insert_insert_eq, Huid. reflexivity.
Qed.

End ShareFacts.

(* ===================================================================== *)
(** * Facts: the score                                                    *)
(* ===================================================================== *)

Section ScoreFacts.
Context {L : Libs}.

Lemma float_sub_self (y : float) : finite_float y = true -> (y - y)%float = 0%float.
Proof.
  unfold finite_float. intros Hfin.
  rewrite <- (SF2Prim_Prim2SF (y - y)), sub_spec.
  destruct (Prim2SF y) as [s|s| |s m e]; try discriminate.
  - destruct s; reflexivity.
  - unfold SF64sub, SFsub. rewrite Z.min_id. unfold shl_align.
    match goal with
    | |- context [match ?d with Z.neg _ => _ | _ => _ end] =>
        replace d with 0 by (symmetry; apply Z.sub_diag)
    end.
    simpl fst.
    match goal with
    | |- context [binary_normalize _ _ ?z _ _] =>
        replace z with 0 by (symmetry; apply Z.sub_diag)
    end.
    reflexivity.
Qed.

(** At the time of its submission a struct without upvotes scores
    [1 / (2 ** GRAVITY)]. *)
Lemma score_at_submission (t : Z) (x : float) :
  float_of_int t = Ok x ->
  finite_float (x / TIME_INTERVAL) = true ->
  PrimFloat.is_infinity (libm_pow 2 GRAVITY) = false ->
  PrimFloat.eqb (libm_pow 2 GRAVITY) 0 = false ->
  score_at t (PInt t) 0 = Ok (PFloat (1 / libm_pow 2 GRAVITY)).
Proof.
  intros Hx Hfin Hinf Hzero. unfold score_at, int_truediv.
  rewrite Hx. simpl. rewrite Hx. simpl.
  rewrite (float_sub_self _ Hfin).
  change (0 + 2)%float with 2%float.
  unfold float_pow.
  change (PrimFloat.is_nan 2) with false.
  change (PrimFloat.is_infinity 2) with false.
  change (PrimFloat.eqb 2 0) with false.
  change (PrimFloat.ltb 2 0) with false.
  change (PrimFloat.eqb 2 1) with false.
  cbn [rbind]. rewrite Hinf. cbn [rbind].
  change (float_of_int (0 + 1)) with (Ok 1%float).
  cbn [rbind]. now rewrite Hzero.
Qed.


(** The first share of an owner: the struct is stored as struct 1 of the
    owner, with no upvoters and the time of the share, and announced to the
    community under the first eight characters of the owner's identity, with
    the score [1 / (2 ** GRAVITY)]. *)
Theorem first_share_event (data struct : pyval) (st : server) (uid : string)
    (x : float) :
  session_uid st = Some uid ->
  structs st !! uid = None ->
  py_getitem data "struct" = Ok struct ->
  float_of_int (now st) = Ok x ->
  finite_float (x / TIME_INTERVAL) = true ->
  PrimFloat.is_infinity (libm_pow 2 GRAVITY) = false ->
  PrimFloat.eqb (libm_pow 2 GRAVITY) 0 = false ->
  handle_share data st
  = (Ok tt,
     with_events
       (with_struct st uid "1.json"
          (String.append (share_head (now st)) (json_dumps struct)))
       [Event "struct"
          (PDict [("uid", PStr (str_take 8 uid)); ("id", PStr "1");
                  ("score", PFloat (1 / libm_pow 2 GRAVITY));
                  ("upvotes", PList []); ("struct", struct)]%string)
          community]).
Proof.
  intros Huid Hnone Hstruct Hx Hfin Hinf Hzero.
  rewrite (handle_share_spec data st uid Huid);
    [|rewrite Hnone; apply numbered_empty].
  rewrite (score_at_submission (now st) x Hx Hfin Hinf Hzero), Hstruct.
  unfold with_events, with_struct. rewrite Hnone. reflexivity.
Qed.

End ScoreFacts.

(* ===================================================================== *)
(** * Facts: every folder of structs stays numbered                       *)
(* ===================================================================== *)

Create HintDb keeps discriminated.

Section NumberingFacts.
Context {L : Libs}.

Section Keeps.
Variable Q : gmap string (gset string) -> Prop.

Lemma keeps_ret {A} (a : A) : keeps_shape_if Q (mret a).
Proof. intros st _. reflexivity. Qed.

Lemma keeps_raise {A} (e : exn) : keeps_shape_if Q (@raise A e).
Proof. intros st _. reflexivity. Qed.

Lemma keeps_lift {A} (r : result A) : keeps_shape_if Q (lift r).
Proof. intros st _. reflexivity. Qed.

Lemma keeps_gets {A} (f : server -> A) : keeps_shape_if Q (gets f).
Proof. intros st _. reflexivity. Qed.

Lemma keeps_emit name payload room : keeps_shape_if Q (emit name payload room).
Proof. intros st _. reflexivity. Qed.

Lemma keeps_append_log fname text : keeps_shape_if Q (append_log fname text).
Proof. intros st _. reflexivity. Qed.

Lemma keeps_bind {A B} (m : M A) (k : A -> M B) :
  keeps_shape_if Q m -> (forall a, keeps_shape_if Q (k a)) ->
  keeps_shape_if Q (m ≫= k).
Proof.
  intros Hm Hk st HQ. rewrite bind_eq. specialize (Hm st HQ).
  destruct (m st) as [[a|e] st1]; simpl in *; [|exact Hm].
  rewrite (Hk a st1); [exact Hm|]. now rewrite Hm.
Qed.

Lemma keeps_for_each {A} (xs : list A) (body : A -> M unit) :
  (forall x, keeps_shape_if Q (body x)) -> keeps_shape_if Q (for_each xs body).
Proof.
  intros Hbody. induction xs as [|x xs IH]; simpl.
  - apply keeps_ret.
  - apply keeps_bind; [apply Hbody|intros _; exact IH].
Qed.

End Keeps.

Hint Resolve keeps_ret keeps_raise keeps_lift keeps_gets keeps_emit
  keeps_append_log : keeps.

(** Statements built from the ones above keep the shape. *)
Ltac keeps :=
  repeat first
    [ progress auto with keeps
    | apply keeps_bind; [|intros ?]
    | apply keeps_for_each; intros ?
    | match goal with
      | |- keeps_shape_if _ (if ?b then _ else _) => destruct b
      | |- keeps_shape_if _ (match ?x with _ => _ end) => destruct x
      end ].

Lemma keeps_get_session_uid Q : keeps_shape_if Q get_session_uid.
Proof. unfold get_session_uid. keeps. Qed.

Lemma keeps_score_struct Q timestamp n :
  keeps_shape_if Q (score_struct timestamp n).
Proof. unfold score_struct, current_unix_time. keeps. Qed.

Hint Resolve keeps_get_session_uid keeps_score_struct : keeps.

Lemma keeps_log Q message : keeps_shape_if Q (log message).
Proof. unfold log, current_unix_time. keeps. Qed.

Hint Resolve keeps_log : keeps.

Lemma keeps_handle_log Q data : keeps_shape_if Q (handle_log data).
Proof. unfold handle_log, current_unix_time. keeps. Qed.

Lemma keeps_session Q sessionId : keeps_shape_if Q (session sessionId).
Proof.
  unfold session. apply keeps_bind; [intros st _; reflexivity|intros _]. keeps.
Qed.

Lemma keeps_connect Q : keeps_shape_if Q connect.
Proof. unfold connect. keeps. Qed.

Lemma keeps_disconnect Q : keeps_shape_if Q disconnect.
Proof. unfold disconnect. keeps. Qed.

Lemma keeps_emit_struct_file Q uid fname content :
  keeps_shape_if Q (emit_struct_file uid fname content).
Proof. unfold emit_struct_file. keeps. Qed.

Hint Resolve keeps_emit_struct_file : keeps.

Lemma keeps_emit_structs Q : keeps_shape_if Q emit_structs.
Proof. unfold emit_structs. keeps. Qed.

Lemma struct_file_has_file st uid fname :
  is_Some (struct_file st uid fname) <-> has_file uid fname (shape st).
Proof.
  unfold struct_file, has_file, shape. rewrite lookup_fmap.
  destruct (structs st !! uid) as [folder|]; simpl.
  - rewrite <- elem_of_dom. split.
    + intros H. now exists (dom folder).
    + now intros (names & [= <-] & H).
  - split; [intros [? ?]; discriminate|now intros (names & [=] & _)].
Qed.

(** Rewriting a file that is there keeps the shape. *)
Lemma keeps_write_struct uid fname content :
  keeps_shape_if (has_file uid fname) (write_struct uid fname content).
Proof.
  intros st Hfile. apply struct_file_has_file in Hfile as [old Hold].
  unfold struct_file, write_struct in *.
  destruct (structs st !! uid) as [folder|] eqn:Hfolder; [|discriminate].
  simpl in Hold. unfold shape. simpl. rewrite fmap_insert.
  rewrite dom_insert_lookup_L by (now exists old).
  apply insert_id. now rewrite lookup_fmap, Hfolder.
Qed.

Hint Resolve keeps_write_struct : keeps.

Lemma keeps_upvote data : keeps_shape_if (fun _ => True) (upvote data).
Proof.
  unfold upvote.
  apply keeps_bind; [apply keeps_get_session_uid|intros uid].
  destruct (String.eqb uid ""); [apply keeps_ret|].
  apply keeps_bind; [apply keeps_lift|intros owner].
  apply keeps_bind; [apply keeps_lift|intros fname].
  intros st _. rewrite bind_gets.
  destruct (struct_file st owner fname) as [content|] eqn:Hfile; [|reflexivity].
  assert (Hhas : has_file owner fname (shape st))
    by (apply struct_file_has_file; now rewrite Hfile).
  clear Hfile. revert st Hhas.
  match goal with
  | |- forall st, _ -> shape (?m st).2 = shape st =>
      change (keeps_shape_if (has_file owner fname) m)
  end.
  keeps.
Qed.

(** Being numbered is a matter of the names alone. *)
Lemma numbered_dom (folder folder' : gmap string string) :
  dom folder = dom folder' -> numbered folder -> numbered folder'.
Proof.
  intros Hdom Hnum name.
  rewrite <- elem_of_dom, <- size_dom, <- Hdom, size_dom, elem_of_dom.
  apply Hnum.
Qed.

Lemma well_numbered_shape (st st' : server) :
  shape st' = shape st -> well_numbered st -> well_numbered st'.
Proof.
  intros Hshape Hwn uid folder' Hfolder'.
  assert (Hsh : shape st !! uid = Some (dom folder'))
    by (rewrite <- Hshape; unfold shape; now rewrite lookup_fmap, Hfolder').
  unfold shape in Hsh. rewrite lookup_fmap in Hsh.
  destruct (structs st !! uid) as [folder|] eqn:Hfolder; [|discriminate].
  simpl in Hsh. injection Hsh as Hdom.
  eapply numbered_dom; [exact Hdom|]. now apply (Hwn uid).
Qed.

Lemma well_numbered_keeps {A} (m : M A) st r st' :
  keeps_shape_if (fun _ => True) m ->
  m st = (r, st') -> well_numbered st -> well_numbered st'.
Proof.
  intros Hm Hrun. apply well_numbered_shape.
  specialize (Hm st I). now rewrite Hrun in Hm.
Qed.

Lemma well_numbered_folder st uid :
  well_numbered st -> numbered (default ∅ (structs st !! uid)).
Proof.
  intros Hwn. destruct (structs st !! uid) as [folder|] eqn:Hfolder; simpl.
  - now apply (Hwn uid).
  - apply numbered_empty.
Qed.

Lemma well_numbered_insert st uid folder t u l e :
  well_numbered st -> numbered folder ->
  well_numbered (Server t u (<[uid := folder]> (structs st)) l e).
Proof.
  intros Hwn Hnum uid' folder'. simpl. rewrite lookup_insert.
  case_decide; [intros [= <-]; exact Hnum|apply Hwn].
Qed.

Lemma well_numbered_share data st r st' :
  handle_share data st = (r, st') -> well_numbered st -> well_numbered st'.
Proof.
  intros Hrun Hwn.
  destruct (session_uid st) as [uid|] eqn:Huid.
  2:{ unfold handle_share in Hrun. rewrite bind_session, Huid in Hrun.
      now injection Hrun as _ <-. }
  pose proof (well_numbered_folder st uid Hwn) as Hnum.
  rewrite (handle_share_spec data st uid Huid Hnum) in Hrun.
  destruct (score_at (now st) (PInt (now st)) 0);
    [destruct (py_getitem data "struct")|];
    injection Hrun as _ <-;
    apply well_numbered_insert; auto using numbered_add.
Qed.

(** Every step of the server keeps the folders numbered. *)
Lemma well_numbered_step st st' :
  step st st' -> well_numbered st -> well_numbered st'.
Proof.
  destruct 1 as [st t|st r st' H|sid st r st' H|st r st' H|data st r st' H
                |data st r st' H|data st r st' H|st r st' H].
  - intros Hwn. exact Hwn.
  - eapply well_numbered_keeps; [apply keeps_connect|exact H].
  - eapply well_numbered_keeps; [apply keeps_session|exact H].
  - eapply well_numbered_keeps; [apply keeps_disconnect|exact H].
  - eapply well_numbered_keeps; [apply keeps_handle_log|exact H].
  - now apply (well_numbered_share data st r).
  - eapply well_numbered_keeps; [apply keeps_upvote|exact H].
  - eapply well_numbered_keeps; [apply keeps_emit_structs|exact H].
Qed.

Lemma well_numbered_reachable st0 st :
  structs st0 = ∅ -> rtc step st0 st -> well_numbered st.
Proof.
  intros Hempty Hreach.
  assert (Hwn0 : well_numbered st0).
  { intros uid folder. rewrite Hempty, lookup_empty. discriminate. }
  clear Hempty.
  induction Hreach as [|st1 st2 st3 Hstep _ IH]; [exact Hwn0|].
  apply IH. now apply (well_numbered_step st1).
Qed.


End NumberingFacts.

(* ===================================================================== *)
(** * Facts: the replay of the structs                                    *)
(* ===================================================================== *)

Section ReplayFacts.
Context {L : Libs}.

Lemma with_events_nil st : with_events st [] = st.
Proof. unfold with_events. rewrite app_nil_r. apply server_eta. Qed.

Lemma with_events_app st evs evs' :
  with_events (with_events st evs) evs' = with_events st (evs ++ evs').
Proof. unfold with_events. simpl. now rewrite app_assoc. Qed.

(** One file: skipped unless it has three lines; with three lines, its
    message is sent, or what fails in building it is raised. *)
Lemma emit_struct_file_spec uid fname content st :
  emit_struct_file uid fname content st
  = if decide (three_lines (uid, fname, content)) then
      match struct_event (now st) (uid, fname, content) with
      | Ok ev => (Ok tt, with_events st [ev])
      | Raise e => (Raise e, st)
      end
    else (Ok tt, st).
Proof.
  unfold emit_struct_file, three_lines, struct_event. simpl.
  destruct (decide (length (readlines content) = 3%nat)) as [Hlen|Hlen].
  - rewrite Hlen. simpl.
    destruct (json_loads (strip (nth 0 (readlines content) EmptyString)));
      [|reflexivity].
    destruct (json_loads (strip (nth 1 (readlines content) EmptyString)));
      [|reflexivity].
    destruct (json_loads (strip (nth 2 (readlines content) EmptyString)));
      [|reflexivity].
    rewrite !bind_ret. simpl. rewrite bind_lift.
    destruct (py_len _); [|reflexivity].
    simpl. unfold score_struct, current_unix_time.
    rewrite bind_eq, bind_gets. unfold lift at 1.
    destruct (score_at _ _ _); reflexivity.
  - apply Nat.eqb_neq in Hlen. now rewrite Hlen.
Qed.

(** The files of one folder. *)
Lemma emit_folder_spec (st : server) (uid : string) (folder : gmap string string)
    (files : list (string * string)) (evs0 : list event) :
  structs st !! uid = Some folder ->
  (forall fname content, (fname, content) ∈ files ->
      folder !! fname = Some content
      /\ (three_lines (uid, fname, content) ->
          exists ev, struct_event (now st) (uid, fname, content) = Ok ev)) ->
  exists evs,
    for_each files (fun '(fname, _) =>
      file ← gets (fun st => struct_file st uid fname);
      match file with
      | Some content => emit_struct_file uid fname content
      | None => raise OSError
      end) (with_events st evs0)
    = (Ok tt, with_events st (evs0 ++ evs))
    /\ Forall2 (fun file ev => struct_event (now st) file = Ok ev)
         (filter three_lines
            (map (fun '(fname, content) => (uid, fname, content)) files))
         evs.
Proof.
  intros Hfolder. revert evs0.
  induction files as [|[fname content] files IH]; intros evs0 Hfiles.
  - exists []. simpl. rewrite app_nil_r. split; [reflexivity|constructor].
  - destruct (Hfiles fname content) as [Hlookup Hev]; [left|].
    simpl for_each. rewrite bind_eq, bind_gets.
    assert (struct_file (with_events st evs0) uid fname = Some content) as ->.
    { unfold struct_file. simpl. rewrite Hfolder. exact Hlookup. }
    rewrite emit_struct_file_spec. simpl map.
    destruct (IH (evs0 ++ match struct_event (now st) (uid, fname, content) with
                          | Ok ev => if decide (three_lines (uid, fname, content))
                                     then [ev] else []
                          | Raise _ => []
                          end)) as (evs & Hrun & Hall).
    { intros f c Hin. apply Hfiles. now right. }
    destruct (decide (three_lines (uid, fname, content))) as [H3|H3].
    + destruct (Hev H3) as (ev & Hevent).
      change (now (with_events st evs0)) with (now st).
      rewrite Hevent in *. rewrite with_events_app, Hrun.
      exists (ev :: evs). rewrite <- app_assoc. split; [reflexivity|].
      rewrite filter_cons_True by assumption. now constructor.
    + destruct (struct_event (now st) (uid, fname, content));
        rewrite app_nil_r in Hrun; rewrite Hrun;
        exists evs; (split; [reflexivity|]);
        now rewrite filter_cons_False by assumption.
Qed.

Lemma all_files_spec st uid fname content :
  (uid, fname, content) ∈ all_files st <-> struct_file st uid fname = Some content.
Proof.
  unfold all_files, struct_file. rewrite list_elem_of_In, in_flat_map. split.
  - intros ([uid' folder] & Hfolder & Hfile).
    apply list_elem_of_In, elem_of_map_to_list in Hfolder.
    apply list_elem_of_In, list_elem_of_fmap in Hfile
      as ([fname' content'] & [= -> -> ->] & Hfile).
    apply elem_of_map_to_list in Hfile. now rewrite Hfolder.
  - destruct (structs st !! uid) as [folder|] eqn:Hfolder; [|discriminate].
    simpl. intros Hfile. exists (uid, folder). split.
    + now apply list_elem_of_In, elem_of_map_to_list.
    + apply list_elem_of_In, list_elem_of_fmap. exists (fname, content).
      split; [reflexivity|]. now apply elem_of_map_to_list.
Qed.

(** The folders, one after the other. *)
Lemma emit_folders_spec (st : server)
    (folders : list (string * gmap string string)) (evs0 : list event) :
  (forall uid folder, (uid, folder) ∈ folders -> structs st !! uid = Some folder) ->
  (forall file, file ∈ flat_map (fun '(uid, folder) => files_of uid folder) folders ->
      three_lines file -> exists ev, struct_event (now st) file = Ok ev) ->
  exists evs,
    for_each folders (fun '(uid, _) =>
      files ← gets (fun st => map_to_list (default ∅ (structs st !! uid)));
      for_each files (fun '(fname, _) =>
        file ← gets (fun st => struct_file st uid fname);
        match file with
        | Some content => emit_struct_file uid fname content
        | None => raise OSError
        end)) (with_events st evs0)
    = (Ok tt, with_events st (evs0 ++ evs))
    /\ Forall2 (fun file ev => struct_event (now st) file = Ok ev)
         (filter three_lines
            (flat_map (fun '(uid, folder) => files_of uid folder) folders))
         evs.
Proof.
  revert evs0.
  induction folders as [|[uid folder] folders IH]; intros evs0 Hfolders Hfiles.
  - exists []. simpl. rewrite app_nil_r. split; [reflexivity|constructor].
  - pose proof (Hfolders uid folder ltac:(left)) as Hfolder.
    simpl for_each. rewrite bind_eq, bind_gets.
    change (structs (with_events st evs0)) with (structs st).
    rewrite Hfolder. simpl default.
    destruct (emit_folder_spec st uid folder (map_to_list folder) evs0 Hfolder)
      as (evs1 & Hrun1 & Hall1).
    { intros fname content Hin. split; [now apply elem_of_map_to_list|].
      apply Hfiles. simpl. apply elem_of_app. left.
      apply list_elem_of_fmap. now exists (fname, content). }
    rewrite Hrun1.
    destruct (IH (evs0 ++ evs1)) as (evs2 & Hrun2 & Hall2).
    { intros uid' folder' Hin. apply Hfolders. now right. }
    { intros file Hin. apply Hfiles. simpl. apply elem_of_app. now right. }
    rewrite Hrun2. exists (evs1 ++ evs2). rewrite app_assoc.
    split; [reflexivity|].
    simpl flat_map. rewrite filter_app. now apply Forall2_app.
Qed.

(** C10, amended. On joining, [emit_structs] skips every struct
    file that does not have exactly three lines, without a message and
    without an error, and sends exactly one [struct] message for each file of
    three lines, in the order of the listing -- provided the three lines of
    each such file decode and its score can be computed. *)
Theorem emit_structs_replays (st : server) :
  (forall uid fname content,
      struct_file st uid fname = Some content ->
      three_lines (uid, fname, content) ->
      exists ev, struct_event (now st) (uid, fname, content) = Ok ev) ->
  exists evs,
    emit_structs st = (Ok tt, with_events st evs)
    /\ Forall2 (fun file ev => struct_event (now st) file = Ok ev)
         (filter three_lines (all_files st)) evs.
Proof.
  intros Hfiles. unfold emit_structs. rewrite bind_gets.
  destruct (emit_folders_spec st (map_to_list (structs st)) []) as (evs & Hrun & Hall).
  - intros uid folder Hin. now apply elem_of_map_to_list.
  - intros [[uid fname] content] Hin. apply Hfiles.
    now apply all_files_spec.
  - rewrite with_events_nil in Hrun. simpl in Hrun.
    exists evs. split; [exact Hrun|exact Hall].
Qed.

End ReplayFacts.

(* ===================================================================== *)
(** * Facts: what the requests leave in place                             *)
(* ===================================================================== *)

Section FrameFacts.
Context {L : Libs}.

Section Respects.
Context {R : relation server} `{!PreOrder R}.

Lemma respects_ret {A} (a : A) : respects R (mret a).
Proof. intros st. reflexivity. Qed.

Lemma respects_raise {A} (e : exn) : respects R (@raise A e).
Proof. intros st. reflexivity. Qed.

Lemma respects_lift {A} (r : result A) : respects R (lift r).
Proof. intros st. reflexivity. Qed.

Lemma respects_gets {A} (f : server -> A) : respects R (gets f).
Proof. intros st. reflexivity. Qed.

Lemma respects_bind {A B} (m : M A) (k : A -> M B) :
  respects R m -> (forall a, respects R (k a)) -> respects R (m ≫= k).
Proof.
  intros Hm Hk st. rewrite bind_eq. specialize (Hm st).
  destruct (m st) as [[a|e] st1]; simpl in *; [|exact Hm].
  etransitivity; [exact Hm|apply Hk].
Qed.

Lemma respects_for_each {A} (xs : list A) (body : A -> M unit) :
  (forall x, respects R (body x)) -> respects R (for_each xs body).
Proof.
  intros Hbody. induction xs as [|x xs IH]; simpl.
  - apply respects_ret.
  - apply respects_bind; [apply Hbody|intros _; exact IH].
Qed.

Lemma respects_get_session_uid : respects R get_session_uid.
Proof.
  unfold get_session_uid. apply respects_bind; [apply respects_gets|].
  intros [uid|]; [apply respects_ret|apply respects_raise].
Qed.

Lemma respects_score_struct timestamp n : respects R (score_struct timestamp n).
Proof.
  unfold score_struct, current_unix_time.
  apply respects_bind; [apply respects_gets|intros t; apply respects_lift].
Qed.

Lemma respects_on_server {A} (m : M A) : respects R m -> respects_hub R (on_server m).
Proof.
  intros Hm h. unfold on_server. specialize (Hm (hub_server h)).
  now destruct (m (hub_server h)) as [r st].
Qed.

Lemma respects_hub_ret {A} (a : A) : respects_hub R (mret a : H A).
Proof. intros h. reflexivity. Qed.

Lemma respects_join_room room : respects_hub R (join_room room).
Proof. intros h. unfold join_room. destruct (room_key room); reflexivity. Qed.

Lemma respects_leave_room room : respects_hub R (leave_room room).
Proof. intros h. unfold leave_room. destruct (room_key room); reflexivity. Qed.

Lemma respects_hub_bind {A B} (m : H A) (k : A -> H B) :
  respects_hub R m -> (forall a, respects_hub R (k a)) -> respects_hub R (m ≫= k).
Proof.
  intros Hm Hk h. unfold mbind, H_bind. specialize (Hm h).
  destruct (m h) as [[a|e] h1]; simpl in *; [|exact Hm].
  etransitivity; [exact Hm|apply Hk].
Qed.

End Respects.

End FrameFacts.

(** Statements built from ones that respect a relation respect it. *)
Ltac respects :=
  repeat first
    [ apply respects_ret
    | apply respects_raise
    | apply respects_lift
    | apply respects_gets
    | apply respects_get_session_uid
    | apply respects_score_struct
    | apply respects_bind; [|intros ?]
    | apply respects_for_each; intros ?
    | match goal with
      | |- respects _ (if ?b then _ else _) => destruct b
      | |- respects _ (match ?x with _ => _ end) => destruct x
      end ].

Section RecordFacts.
Context {L : Libs}.

Lemma sends_only_preorder P : PreOrder (sends_only P).
Proof.
  split.
  - intros st. exists []. split; [now rewrite with_events_nil|constructor].
  - intros st1 st2 st3 (evs & -> & H) (evs' & -> & H').
    exists (evs ++ evs'). split; [apply with_events_app|now apply Forall_app].
Qed.

#[local] Existing Instance sends_only_preorder.

Lemma sends_only_emit (P : event -> Prop) name payload room :
  P (Event name payload room) -> respects (sends_only P) (emit name payload room).
Proof. intros HP st. exists [Event name payload room]. split; [reflexivity|now repeat constructor]. Qed.

Lemma sends_only_impl (P Q : event -> Prop) {A} (m : M A) :
  (forall ev, P ev -> Q ev) -> respects (sends_only P) m -> respects (sends_only Q) m.
Proof.
  intros HPQ Hm st. destruct (Hm st) as (evs & Heq & HP).
  exists evs. split; [exact Heq|]. eapply Forall_impl; [exact HP|exact HPQ].
Qed.

Lemma emit_struct_file_sends uid fname content :
  respects (sends_only (replayed ["struct"%string])) (emit_struct_file uid fname content).
Proof.
  unfold emit_struct_file. respects.
  apply sends_only_emit. split; [apply list_elem_of_singleton; reflexivity|reflexivity].
Qed.

Lemma emit_structs_sends :
  respects (sends_only (replayed ["struct"%string])) emit_structs.
Proof.
  unfold emit_structs. respects. apply emit_struct_file_sends.
Qed.

Lemma emit_file_utterances_sends info :
  respects (sends_only (replayed ["utterances"%string])) (emit_file_utterances info).
Proof.
  unfold emit_file_utterances. destruct info as [[mtime uid] path]. respects.
  apply sends_only_emit. split; [apply list_elem_of_singleton; reflexivity|reflexivity].
Qed.

Lemma emit_utterances_sends stat_mtime :
  respects (sends_only (replayed ["utterances"%string])) (emit_utterances stat_mtime).
Proof.
  unfold emit_utterances. respects. apply emit_file_utterances_sends.
Qed.

End RecordFacts.

(* ===================================================================== *)
(** * Facts: joining and leaving a room                                   *)
(* ===================================================================== *)

Section RoomFacts.
Context {L : Libs}.

#[local] Existing Instance sends_only_preorder.

(** The handler of [join] only replays. *)
Lemma on_join_sends (stat_mtime : string -> float) (data : pyval) :
  respects_hub (sends_only (replayed ["struct"; "utterances"]%string))
    (on_join stat_mtime data).
Proof.
  unfold on_join.
  apply respects_hub_bind; [apply respects_on_server, respects_lift|intros room].
  apply respects_hub_bind; [apply respects_join_room|intros _].
  destruct (py_eq_str room "community"); [|apply respects_hub_ret].
  apply respects_hub_bind; [|intros _]; apply respects_on_server.
  - eapply sends_only_impl; [|apply emit_structs_sends].
    intros ev [Hname Hroom]. split; [|exact Hroom].
    apply list_elem_of_singleton in Hname. rewrite Hname. now left.
  - eapply sends_only_impl; [|apply emit_utterances_sends].
    intros ev [Hname Hroom]. split; [|exact Hroom].
    apply list_elem_of_singleton in Hname. rewrite Hname. right. now left.
Qed.

(** The handler of [leave] does nothing to the server. *)
Lemma on_leave_sends (P : event -> Prop) (data : pyval) :
  respects_hub (sends_only P) (on_leave data).
Proof.
  unfold on_leave.
  apply respects_hub_bind; [apply respects_on_server, respects_lift|intros u].
  apply respects_hub_bind; [apply respects_on_server, respects_lift|intros room].
  apply respects_leave_room.
Qed.

(** Whatever the request and the files, and whether it returns or raises,
    the handler of [join] does nothing to the server but send messages to the
    client of the request, each of them a [struct] or an [utterances]
    message: it writes no file, changes no session and broadcasts nothing. *)
Theorem on_join_only_replays (stat_mtime : string -> float) (data : pyval)
    (h : hub) :
  exists evs,
    hub_server (on_join stat_mtime data h).2 = with_events (hub_server h) evs
    /\ Forall (replayed ["struct"; "utterances"]%string) evs.
Proof. apply on_join_sends. Qed.

(** The rooms after the client of the request was put into [room]. *)
Lemma on_join_run (stat_mtime : string -> float) (data : pyval) (h : hub)
    (room : string) :
  py_getitem data "room" = Ok (PStr room) ->
  on_join stat_mtime data h
  = let calls := hub_calls h ++ [JoinRoom (PStr room)] in
    if String.eqb room "community" then
      match emit_structs (hub_server h) with
      | (Ok _, st1) =>
          let '(r, st2) := emit_utterances stat_mtime st1 in (r, Hub st2 calls)
      | (Raise e, st1) => (Raise e, Hub st1 calls)
      end
    else (Ok tt, Hub (hub_server h) calls).
Proof.
  intros Hroom. unfold on_join, mbind, H_bind, on_server, lift, join_room.
  rewrite Hroom. cbn [room_key py_eq_str hub_server hub_calls].
  destruct (String.eqb room "community"); [|reflexivity].
  cbn beta iota delta [hub_server hub_calls].
  destruct (emit_structs (hub_server h)) as [[[]|e] st1]; [|reflexivity].
  cbn beta iota delta [hub_server hub_calls].
  now destruct (emit_utterances stat_mtime st1).
Qed.

(** Joining the community room: the client is put into the room first, then
    the structs are replayed, then the utterances.  When the replay of the
    structs raises, the handler raises with it: the client is in the room,
    has received [struct] messages only, and no utterances. *)
Theorem on_join_community (stat_mtime : string -> float) (data : pyval)
    (h : hub) :
  py_getitem data "room" = Ok (PStr "community") ->
  let joined st := Hub st (hub_calls h ++ [JoinRoom (PStr "community")]) in
  (forall st1,
      emit_structs (hub_server h) = (Ok tt, st1) ->
      on_join stat_mtime data h
      = ((emit_utterances stat_mtime st1).1, joined (emit_utterances stat_mtime st1).2))
  /\ (forall e st1,
         emit_structs (hub_server h) = (Raise e, st1) ->
         on_join stat_mtime data h = (Raise e, joined st1)
         /\ exists evs,
              st1 = with_events (hub_server h) evs
              /\ Forall (replayed ["struct"%string]) evs).
Proof.
  intros Hroom joined. rewrite (on_join_run _ _ _ _ Hroom). simpl. split.
  - intros st1 Hrun. rewrite Hrun.
    now destruct (emit_utterances stat_mtime st1).
  - intros e st1 Hrun. rewrite Hrun. split; [reflexivity|].
    pose proof (emit_structs_sends (hub_server h)) as Hsends.
    now rewrite Hrun in Hsends.
Qed.

(** Joining any other room sends nothing and reads no file: the client is
    put into the room and that is all.  A request without [room] raises and
    puts the client nowhere. *)
Theorem on_join_other_room (stat_mtime : string -> float) (data : pyval)
    (h : hub) :
  (forall e, py_getitem data "room" = Raise e ->
             on_join stat_mtime data h = (Raise e, h))
  /\ (forall room,
         py_getitem data "room" = Ok (PStr room) ->
         room <> "community"%string ->
         on_join stat_mtime data h
         = (Ok tt, Hub (hub_server h) (hub_calls h ++ [JoinRoom (PStr room)]))).
Proof.
  split.
  - intros e Hroom. unfold on_join, mbind, H_bind, on_server, lift.
    rewrite Hroom. now destruct h.
  - intros room Hroom Hother. rewrite (on_join_run _ _ _ _ Hroom). simpl.
    apply String.eqb_neq in Hother. now rewrite Hother.
Qed.

(** A request to leave a room has to carry a [sessionId], which is not
    looked at otherwise: without it the handler raises and the client stays
    in the room; with it, whatever its value, the client leaves the room.
    The server is not touched either way. *)
Theorem on_leave_needs_session_id (data : pyval) (h : hub) :
  (forall e, py_getitem data "sessionId" = Raise e ->
             on_leave data h = (Raise e, h))
  /\ (forall username room,
         py_getitem data "sessionId" = Ok username ->
         py_getitem data "room" = Ok (PStr room) ->
         on_leave data h
         = (Ok tt, Hub (hub_server h) (hub_calls h ++ [LeaveRoom (PStr room)]))).
Proof.
  split.
  - intros e Hid. unfold on_leave, mbind, H_bind, on_server, lift.
    rewrite Hid. now destruct h.
  - intros username room Hid Hroom.
    unfold on_leave, mbind, H_bind, on_server, lift, leave_room.
    rewrite Hid. simpl. now rewrite Hroom.
Qed.

End RoomFacts.

(* ===================================================================== *)
(** * Facts: nothing that was recorded is lost                            *)
(* ===================================================================== *)

Section KeptFacts.
Context {L : Libs}.

Lemma append_assoc (a b c : string) :
  String.append (String.append a b) c = String.append a (String.append b c).
Proof.
  induction a as [|x a IH]; [reflexivity|].
  change (String x (String.append (String.append a b) c)
          = String x (String.append a (String.append b c))).
  now rewrite IH.
Qed.

Lemma keeps_records_preorder : PreOrder keeps_records.
Proof.
  split.
  - intros st. split; [|split]; [|auto..].
    intros fname old H. exists EmptyString. now rewrite LineFacts.append_nil_r.
  - intros st1 st2 st3 (Hlog & Hfile & Huid) (Hlog' & Hfile' & Huid').
    split; [|split]; [|auto..].
    intros fname old H. destruct (Hlog _ _ H) as [more H2].
    destruct (Hlog' _ _ H2) as [more' H3].
    exists (String.append more more'). now rewrite H3, append_assoc.
Qed.

#[local] Existing Instance keeps_records_preorder.

(** A state with the same files and, if there was one, a session. *)
Lemma keeps_records_same st st' :
  logs st' = logs st -> structs st' = structs st ->
  (is_Some (session_uid st) -> is_Some (session_uid st')) ->
  keeps_records st st'.
Proof.
  intros Hlogs Hstructs Huid. split; [|split]; [| |exact Huid].
  - intros fname old H. exists EmptyString.
    now rewrite Hlogs, LineFacts.append_nil_r.
  - intros uid fname. unfold struct_file. now rewrite Hstructs.
Qed.

Lemma sends_only_keeps (P : event -> Prop) st st' :
  sends_only P st st' -> keeps_records st st'.
Proof. intros (evs & -> & _). now apply keeps_records_same. Qed.

Lemma kept_by_sending (P : event -> Prop) {A} (m : M A) :
  respects (sends_only P) m -> respects keeps_records m.
Proof. intros Hm st. eapply sends_only_keeps, Hm. Qed.

Lemma kept_by_emit name payload room :
  respects keeps_records (emit name payload room).
Proof. intros st. now apply keeps_records_same. Qed.

Lemma kept_by_append_log fname text :
  respects keeps_records (append_log fname text).
Proof.
  intros st. split; [|split]; [| |auto].
  - intros fname' old H. simpl. rewrite lookup_insert. case_decide as Hname.
    + subst fname'. rewrite H. simpl. now exists text.
    + exists EmptyString. now rewrite LineFacts.append_nil_r.
  - intros uid fname'. now unfold struct_file.
Qed.

Lemma kept_by_write_struct uid fname content :
  respects keeps_records (write_struct uid fname content).
Proof.
  intros st. unfold write_struct.
  destruct (structs st !! uid) as [folder|] eqn:Hfolder; [|reflexivity].
  split; [|split]; [| |auto].
  - intros fname' old H. exists EmptyString.
    now rewrite LineFacts.append_nil_r.
  - intros uid' fname'. unfold struct_file. simpl.
    rewrite lookup_insert. case_decide as Huid; [|auto].
    subst uid'. rewrite Hfolder. simpl.
    rewrite lookup_insert. case_decide; [now eexists|auto].
Qed.

Lemma kept_by_make_dir uid : respects keeps_records (make_dir_if_necessary uid).
Proof.
  intros st. unfold make_dir_if_necessary.
  destruct (structs st !! uid) as [folder|] eqn:Hfolder; [reflexivity|].
  split; [|split]; [| |auto].
  - intros fname' old H. exists EmptyString.
    now rewrite LineFacts.append_nil_r.
  - intros uid' fname'. unfold struct_file. simpl.
    rewrite lookup_insert. case_decide as Huid; [|auto].
    subst uid'. rewrite Hfolder. now intros [? ?].
Qed.

Lemma kept_by_listdir uid : respects keeps_records (listdir uid).
Proof.
  intros st. unfold listdir. destruct (structs st !! uid); reflexivity.
Qed.

(** The tactic [respects], with the statements that write. *)
Ltac kept :=
  repeat first
    [ apply kept_by_emit
    | apply kept_by_append_log
    | apply kept_by_write_struct
    | apply kept_by_make_dir
    | apply kept_by_listdir
    | progress respects ].

Lemma kept_by_log message : respects keeps_records (log message).
Proof. unfold log, current_unix_time. kept. Qed.

Lemma kept_by_handle_log data : respects keeps_records (handle_log data).
Proof. unfold handle_log, current_unix_time. kept. Qed.

Lemma kept_by_session sessionId : respects keeps_records (session sessionId).
Proof.
  unfold session. apply respects_bind; [|intros _].
  - intros st. apply keeps_records_same; [reflexivity..|]. now eexists.
  - kept.
Qed.

Lemma kept_by_connect : respects keeps_records connect.
Proof. unfold connect. kept. Qed.

Lemma kept_by_disconnect : respects keeps_records disconnect.
Proof. unfold disconnect. kept. Qed.

Lemma kept_by_handle_share data : respects keeps_records (handle_share data).
Proof. unfold handle_share, current_unix_time. kept. Qed.

Lemma kept_by_upvote data : respects keeps_records (upvote data).
Proof. unfold upvote. kept. Qed.

Lemma kept_by_step st st' : step st st' -> keeps_records st st'.
Proof.
  destruct 1 as [st t|st r st' H|sid st r st' H|st r st' H|data st r st' H
                |data st r st' H|data st r st' H|st r st' H].
  - now apply keeps_records_same.
  - pose proof (kept_by_connect st) as Hk. now rewrite H in Hk.
  - pose proof (kept_by_session sid st) as Hk. now rewrite H in Hk.
  - pose proof (kept_by_disconnect st) as Hk. now rewrite H in Hk.
  - pose proof (kept_by_handle_log data st) as Hk. now rewrite H in Hk.
  - pose proof (kept_by_handle_share data st) as Hk. now rewrite H in Hk.
  - pose proof (kept_by_upvote data st) as Hk. now rewrite H in Hk.
  - pose proof (kept_by_sending _ _ emit_structs_sends st) as Hk.
    now rewrite H in Hk.
Qed.

Lemma kept_by_serve h h' : serve h h' -> keeps_records (hub_server h) (hub_server h').
Proof.
  destruct 1 as [h st' Hstep|mt data h r h' Hrun|data h r h' Hrun].
  - now apply kept_by_step.
  - eapply sends_only_keeps. pose proof (on_join_sends mt data h) as Hk.
    rewrite Hrun in Hk. exact Hk.
  - eapply sends_only_keeps.
    pose proof (on_leave_sends (fun _ => True) data h) as Hk.
    rewrite Hrun in Hk. exact Hk.
Qed.


(** A request that only sends messages leaves the folders numbered. *)
Lemma well_numbered_sends (P : event -> Prop) st st' :
  sends_only P st st' -> well_numbered st -> well_numbered st'.
Proof. intros (evs & -> & _). now apply well_numbered_shape. Qed.


End KeptFacts.

(* ===================================================================== *)
(** * Facts: requests at the edges                                        *)
(* ===================================================================== *)

Section EdgeFacts.
Context {L : Libs}.

(** Before any [session] message was received there is no [session.uid]:
    a share, an upvote, a disconnection and a log request with a type all
    raise an [AttributeError], and leave the server as it was. *)
Theorem handlers_need_session (data : pyval) (st : server) :
  session_uid st = None ->
  handle_share data st = (Raise AttributeError, st)
  /\ upvote data st = (Raise AttributeError, st)
  /\ disconnect st = (Raise AttributeError, st)
  /\ (py_contains data "type" = Ok true ->
      handle_log data st = (Raise AttributeError, st)).
Proof.
  intros Hnone. repeat split.
  - unfold handle_share. now rewrite bind_session, Hnone.
  - unfold upvote. now rewrite bind_session, Hnone.
  - unfold disconnect. now rewrite bind_session, Hnone.
  - intros Htype. unfold handle_log. rewrite bind_lift, Htype. simpl.
    rewrite bind_eq. unfold log. now rewrite bind_session, Hnone.
Qed.

Lemma length_scrub_uid (uid : string) : (String.length (scrub_uid uid) <= 8)%nat.
Proof.
  unfold scrub_uid, str_take.
  rewrite NameFacts.length_chars, list_ascii_of_string_of_list_ascii, length_take.
  lia.
Qed.

(** An upvote that names no struct file does nothing. *)
Lemma upvote_no_file (data : pyval) (st : server) (uid owner id : string) :
  session_uid st = Some uid ->
  py_getitem data "uid" = Ok (PStr owner) ->
  py_getitem data "id" = Ok (PStr id) ->
  struct_file st owner (String.append id dot_json) = None ->
  upvote data st = (Ok tt, st).
Proof.
  intros Huid Howner Hid Hfile. unfold upvote. rewrite bind_session, Huid.
  destruct (String.eqb uid ""); [reflexivity|].
  rewrite bind_lift, Howner. simpl. rewrite bind_lift, Hid. simpl.
  now rewrite bind_gets, Hfile.
Qed.


Lemma among_upvotes (uid : string) (upvotes : list pyval) :
  existsb (fun x => py_eq_str x uid) upvotes = false -> PStr uid ∉ upvotes.
Proof.
  intros Hnone Hin.
  assert (Htrue : existsb (fun x => py_eq_str x uid) upvotes = true).
  { apply existsb_exists. exists (PStr uid).
    split; [now apply list_elem_of_In|apply String.eqb_refl]. }
  congruence.
Qed.


End EdgeFacts.

(* ===================================================================== *)
(** * Facts: what is stored is what is replayed                           *)
(* ===================================================================== *)

Module StoredFacts.
Import Text.

Lemma uint_plain d :
  Forall (fun c => is_space c = false)
         (list_ascii_of_string (NilZero.string_of_uint d)).
Proof.
  unfold NilZero.string_of_uint.
  destruct d; try (apply NameFacts.digits_no_space, NameFacts.string_of_uint_digits).
  repeat constructor.
Qed.

(** [str(z)] has no blank in it. *)
Lemma py_str_plain z :
  Forall (fun c => is_space c = false) (list_ascii_of_string (py_str z)).
Proof.
  unfold py_str. destruct (Z.to_int z) as [d|d]; simpl.
  - apply uint_plain.
  - constructor; [reflexivity|apply uint_plain].
Qed.

Lemma py_str_nl_free z : nl ∉ list_ascii_of_string (py_str z).
Proof.
  intros Hin. pose proof (py_str_plain z) as Hplain.
  rewrite Forall_forall in Hplain. now specialize (Hplain nl Hin).
Qed.

Lemma rstrip_newline s : rstrip (String.append s newline) = rstrip s.
Proof.
  induction s as [|c s IH]; [reflexivity|].
  change (String.append (String c s) newline)
    with (String c (String.append s newline)).
  simpl. now rewrite IH.
Qed.

(** [(s + "\n").strip()] is [s.strip()]. *)
Lemma strip_newline s : strip (String.append s newline) = strip s.
Proof. unfold strip. now rewrite rstrip_newline. Qed.

Lemma strip_py_str_line z : strip (String.append (py_str z) newline) = py_str z.
Proof. rewrite strip_newline. apply NameFacts.strip_no_space, py_str_plain. Qed.

(** [int] reads the line of a timestamp as it reads the timestamp. *)
Lemma int_of_str_line z : int_of_str (String.append (py_str z) newline) = Ok z.
Proof.
  pose proof (NameFacts.int_of_str_py_str z) as Hz. unfold int_of_str in *.
  rewrite strip_py_str_line.
  now rewrite (NameFacts.strip_no_space _ (py_str_plain z)) in Hz.
Qed.

(** A text without a line terminator is its only line. *)
Lemma readlines_one_line s :
  s <> EmptyString -> nl ∉ list_ascii_of_string s -> readlines s = [s].
Proof.
  induction s as [|c s IH]; intros Hne Hfree; [congruence|].
  simpl in Hfree. apply not_elem_of_cons in Hfree as [Hc Hs].
  simpl. assert (is_nl c = false) as -> by (now apply bool_decide_eq_false).
  destruct s as [|c' s]; [reflexivity|].
  now rewrite (IH ltac:(discriminate) Hs).
Qed.

(** The lines of a struct file cut short after its timestamp. *)
Lemma share_head_lines t :
  readlines (share_head t)
  = [String.append "[]" newline; String.append (py_str t) newline].
Proof.
  unfold share_head.
  rewrite (LineFacts.readlines_first "[]")
    by (simpl; rewrite !not_elem_of_cons; repeat split;
        (discriminate || apply not_elem_of_nil)).
  rewrite <- (LineFacts.append_nil_r (String.append (py_str t) newline)) at 1.
  rewrite append_assoc.
  now rewrite (LineFacts.readlines_first (py_str t)) by apply py_str_nl_free.
Qed.

End StoredFacts.

Section RoundTripFacts.
Context {L : Libs}.
Import Text.

(** The lines of a new struct file. *)
Lemma share_text_lines (t : Z) (s : string) :
  s <> EmptyString -> nl ∉ list_ascii_of_string s ->
  readlines (String.append (share_head t) s)
  = [String.append "[]" newline; String.append (py_str t) newline; s].
Proof.
  intros Hne Hfree. unfold share_head. rewrite !append_assoc.
  rewrite (LineFacts.readlines_first "[]")
    by (simpl; rewrite !not_elem_of_cons; repeat split;
        (discriminate || apply not_elem_of_nil)).
  rewrite (LineFacts.readlines_first (py_str t))
    by apply StoredFacts.py_str_nl_free.
  now rewrite (StoredFacts.readlines_one_line s).
Qed.

(** A share request without a struct raises, but not before the file of the
    new struct was opened and its first two lines written.  That file stays:
    nothing is announced, the replay passes over the file without a message,
    and its number is used up, so that the next struct of the owner gets the
    number after it. *)
Theorem share_without_struct (data : pyval) (st : server) (uid : string)
    (score : pyval) (e : exn) :
  session_uid st = Some uid ->
  numbered (default ∅ (structs st !! uid)) ->
  score_at (now st) (PInt (now st)) 0 = Ok score ->
  py_getitem data "struct" = Raise e ->
  let count := Z.of_nat (size (default ∅ (structs st !! uid))) in
  exists st',
    handle_share data st = (Raise e, st')
    /\ emitted st' = emitted st
    /\ struct_file st' uid (struct_name (count + 1)) = Some (share_head (now st))
    /\ (forall st2,
           emit_struct_file uid (struct_name (count + 1)) (share_head (now st)) st2
           = (Ok tt, st2))
    /\ new_struct_id_of (map fst (map_to_list (default ∅ (structs st' !! uid))))
       = Ok (py_str (count + 2)).
Proof.
  intros Huid Hnum Hscore Hstruct count.
  rewrite (handle_share_spec data st uid Huid Hnum), Hscore, Hstruct.
  fold count. eexists. split; [reflexivity|]. simpl.
  split; [reflexivity|]. split; [|split].
  - unfold struct_file. simpl. rewrite lookup_insert_eq. simpl.
    apply lookup_insert_eq.
  - intros st2. unfold emit_struct_file.
    now rewrite StoredFacts.share_head_lines.
  - rewrite lookup_insert_eq. simpl.
    rewrite (new_struct_id_numbered _ (numbered_add _ _ Hnum)).
    rewrite map_size_insert_None by now apply numbered_fresh.
    do 2 f_equal. subst count. lia.
Qed.

(** What was shared is what is replayed.  When the codec reads back what it
    wrote for the struct, a successful share stores a file for which the
    replay sends the message the share broadcast: the same scrubbed uid, the
    same number, no upvoters, the same struct, and the score of the time of
    the replay for the time of the share. *)
Theorem share_then_replay (data struct : pyval) (st : server) (uid : string)
    (score : pyval) :
  session_uid st = Some uid ->
  numbered (default ∅ (structs st !! uid)) ->
  py_getitem data "struct" = Ok struct ->
  score_at (now st) (PInt (now st)) 0 = Ok score ->
  json_loads "[]" = Some (PList []) ->
  json_loads (py_str (now st)) = Some (PInt (now st)) ->
  json_dumps struct <> EmptyString ->
  nl ∉ list_ascii_of_string (json_dumps struct) ->
  json_loads (strip (json_dumps struct)) = Some struct ->
  let count := Z.of_nat (size (default ∅ (structs st !! uid))) in
  let id := py_str (count + 1) in
  exists st' content,
    handle_share data st = (Ok tt, st')
    /\ emitted st'
       = emitted st ++ [Event "struct" (share_message uid id score struct) community]
    /\ struct_file st' uid (struct_name (count + 1)) = Some content
    /\ forall st2 score2,
         score_at (now st2) (PInt (now st)) 0 = Ok score2 ->
         emit_struct_file uid (struct_name (count + 1)) content st2
         = (Ok tt,
            with_events st2
              [Event "struct" (share_message uid id score2 struct) None]).
Proof.
  intros Huid Hnum Hstruct Hscore Hnil Htime Hne Hfree Hback count id.
  rewrite (handle_share_spec data st uid Huid Hnum), Hscore, Hstruct.
  fold count id. do 2 eexists. split; [reflexivity|]. simpl.
  split; [reflexivity|]. split.
  - unfold struct_file. simpl. rewrite lookup_insert_eq. simpl.
    apply lookup_insert_eq.
  - intros st2 score2 Hscore2. rewrite emit_struct_file_spec.
    unfold three_lines, struct_event. cbn [snd].
    rewrite (share_text_lines _ _ Hne Hfree).
    rewrite decide_True by reflexivity. cbn [nth].
    rewrite StoredFacts.strip_newline. change (strip "[]") with "[]"%string.
    rewrite Hnil. cbn [rbind].
    rewrite StoredFacts.strip_py_str_line, Htime. cbn [rbind].
    rewrite Hback. cbn [rbind py_len length].
    change (Z.of_nat 0) with 0. rewrite Hscore2. cbn [rbind].
    unfold struct_name. now rewrite NameFacts.str_drop_end_json.
Qed.

(** The score of a timestamp is the score of its line in a struct file. *)
Lemma score_at_line (t0 t n : Z) :
  score_at t0 (PStr (String.append (py_str t) newline)) n = score_at t0 (PInt t) n.
Proof. unfold score_at. cbn [py_int]. now rewrite StoredFacts.int_of_str_line. Qed.

Lemma upvoted_text_readlines (v : pyval) (content : string) :
  nl ∉ list_ascii_of_string (json_dumps v) ->
  readlines (upvoted_text v content)
  = String.append (json_dumps v) newline :: take 2 (drop 1 (readlines content)).
Proof.
  intros Hfree. unfold upvoted_text.
  rewrite LineFacts.readlines_first by assumption.
  unfold readline_nth. now rewrite (LineFacts.readlines_pair content 1).
Qed.


End RoundTripFacts.

(* ===================================================================== *)
(** * Facts: the log                                                      *)
(* ===================================================================== *)

Section LogFacts.
Context {L : Libs}.

Lemma dict_get_set_eq d k v : dict_get (dict_set d k v) k = Some v.
Proof.
  induction d as [|[k' v'] d IH]; simpl.
  - now rewrite String.eqb_refl.
  - destruct (String.eqb k' k) eqn:Hk; simpl; now rewrite Hk.
Qed.

Lemma dict_get_set_other d k k' v :
  k <> k' -> dict_get (dict_set d k v) k' = dict_get d k'.
Proof.
  intros Hother. induction d as [|[k0 v0] d IH]; simpl.
  - apply String.eqb_neq in Hother. now rewrite Hother.
  - destruct (String.eqb k0 k) eqn:Hk; simpl.
    + apply String.eqb_eq in Hk. subst k0.
      apply String.eqb_neq in Hother. now rewrite Hother.
    + now rewrite IH.
Qed.

(** What [log] does to a dictionary, for a client with a session. *)
Lemma log_run (d : list (string * pyval)) (st : server) (uid : string) :
  session_uid st = Some uid ->
  log (PDict d) st
  = (Ok (log_entry d (now st)), with_log st uid (log_line d (now st))).
Proof.
  intros Huid. unfold log. rewrite bind_session, Huid.
  unfold current_unix_time. rewrite bind_gets, bind_lift. reflexivity.
Qed.

(** What [handle_log] does with a request that has a type. *)
Lemma handle_log_run (d : list (string * pyval)) (st : server)
    (uid : string) (type : pyval) :
  session_uid st = Some uid ->
  dict_get d "type" = Some type ->
  let logged := with_log st uid (log_line d (now st)) in
  exists r evs,
    handle_log (PDict d) st = (r, with_events logged evs)
    /\ py_getitem (log_entry d (now st)) "timestamp" = Ok (PInt (now st))
    /\ (evs = []
        \/ r = Ok tt
           /\ exists name payload,
                evs = [Event name payload community]
                /\ py_getitem payload "uid" = Ok (PStr (scrub_uid uid)))
    /\ (py_eq_str type "accept" = false -> py_eq_str type "define" = false ->
        r = Ok tt /\ evs = []).
Proof.
  intros Huid Htype logged.
  assert (Hstamp : py_getitem (log_entry d (now st)) "timestamp"
                   = Ok (PInt (now st)))
    by (unfold log_entry; simpl; now rewrite dict_get_set_eq).
  assert (Hkept : py_getitem (log_entry d (now st)) "type" = Ok type).
  { unfold log_entry. simpl.
    rewrite dict_get_set_other by discriminate. now rewrite Htype. }
  assert (Hsame : forall r : result unit,
             (r, logged) = (r, with_events logged []))
    by (intros r; now rewrite with_events_nil).
  unfold handle_log. rewrite bind_lift. simpl py_contains. rewrite Htype.
  cbn [negb]. rewrite bind_eq, (log_run d st uid Huid). fold logged.
  rewrite bind_lift, Hkept.
  assert (Huid' : session_uid logged = Some uid) by exact Huid.
  destruct (py_eq_str type "accept") eqn:Haccept;
    [|destruct (py_eq_str type "define") eqn:Hdefine].
  - rewrite bind_session, Huid', bind_lift.
    destruct (py_getitem (log_entry d (now st)) "msg") as [msg|e].
    2:{ exists (Raise e), []. rewrite <- Hsame. repeat split; auto; discriminate. }
    rewrite bind_lift.
    destruct (py_getitem msg "query") as [query|e].
    2:{ exists (Raise e), []. rewrite <- Hsame. repeat split; auto; discriminate. }
    unfold current_unix_time. rewrite bind_gets.
    eexists (Ok tt), [_]. split; [reflexivity|]. split; [exact Hstamp|].
    split; [|discriminate]. right. split; [reflexivity|].
    do 2 eexists. split; reflexivity.
  - rewrite bind_session, Huid', bind_lift.
    destruct (py_getitem (log_entry d (now st)) "msg") as [msg|e].
    2:{ exists (Raise e), []. rewrite <- Hsame. repeat split; auto; discriminate. }
    rewrite bind_lift.
    destruct (py_getitem msg "defineAs") as [defined|e].
    2:{ exists (Raise e), []. rewrite <- Hsame. repeat split; auto; discriminate. }
    unfold current_unix_time. rewrite bind_gets.
    eexists (Ok tt), [_]. split; [reflexivity|]. split; [exact Hstamp|].
    split; [|discriminate]. right. split; [reflexivity|].
    do 2 eexists. split; reflexivity.
  - exists (Ok tt), []. rewrite <- Hsame. repeat split; auto.
Qed.

(** A log request with a type is on file before anything is broadcast, and
    stays there if the broadcast fails: whatever the handler's outcome, the
    log of the session has one more line, the request with the time of the
    server as its [timestamp] (a timestamp of the client's is overwritten),
    and at most one message was sent, a broadcast under the scrubbed uid.
    A type other than [accept] and [define] is logged and not broadcast. *)
Theorem handle_log_records_first (d : list (string * pyval)) (st : server)
    (uid : string) (type : pyval) :
  session_uid st = Some uid ->
  dict_get d "type" = Some type ->
  let logged := with_log st uid (log_line d (now st)) in
  exists r evs,
    handle_log (PDict d) st = (r, with_events logged evs)
    /\ py_getitem (log_entry d (now st)) "timestamp" = Ok (PInt (now st))
    /\ (evs = []
        \/ r = Ok tt
           /\ exists name payload,
                evs = [Event name payload community]
                /\ py_getitem payload "uid" = Ok (PStr (scrub_uid uid)))
    /\ (py_eq_str type "accept" = false -> py_eq_str type "define" = false ->
        r = Ok tt /\ evs = []).
Proof. exact (handle_log_run d st uid type). Qed.

Lemma log_text_app (a b : list string) :
  log_text (a ++ b) = String.append (log_text a) (log_text b).
Proof.
  induction a as [|e a IH]; [reflexivity|].
  simpl. now rewrite IH, !append_assoc.
Qed.

Lemma last_n_snoc {A} (n : nat) (l : list A) (x : A) :
  last_n (S n) (l ++ [x]) = last_n n l ++ [x].
Proof.
  unfold last_n. rewrite length_app. simpl.
  replace (length l + 1 - S n)%nat with (length l - n)%nat by lia.
  apply drop_app_le. lia.
Qed.

(** The utterances sent for a log file of entries. *)
Lemma utterances_of_entries (entries : list string) :
  Forall entry_ok entries ->
  Forall typed_entry entries ->
  utterances_of (log_text entries)
  = Some (Ok (rev (last_n 11 (filter (fun e => is_utterance e = true) entries)))).
Proof.
  intros Hok Htyped. unfold utterances_of.
  rewrite LogScanFacts.reverse_readline_log_text by (assumption || reflexivity).
  rewrite LogScanFacts.collect_utterances_spec; [|now apply Forall_rev|lia].
  simpl. rewrite LogScanFacts.filter_rev. now rewrite LogScanFacts.take_rev_last_n.
Qed.

(** The loop of [emit_utterances] leaves at the eleventh utterance: the
    lines after it are not decoded. *)
Lemma collect_utterances_stops (lines rest utts : list string) (count : Z) :
  Forall typed_entry lines ->
  0 <= count <= 10 ->
  (Z.to_nat (11 - count)
   <= length (filter (fun e => is_utterance e = true) lines))%nat ->
  collect_utterances (lines ++ rest) utts count
  = Ok (utts ++ take (Z.to_nat (11 - count))
                  (filter (fun e => is_utterance e = true) lines)).
Proof.
  intros Htyped. revert utts count.
  induction Htyped as [|line lines (v & type & Hv & Htype) _ IH];
    intros utts count Hcount Hlen.
  - rewrite filter_nil in Hlen. simpl in Hlen. lia.
  - cbn [app collect_utterances]. rewrite Hv. simpl. rewrite Htype. simpl.
    assert (Hutt : is_utterance line
                   = py_eq_str type "accept" || py_eq_str type "define")
      by (unfold is_utterance; now rewrite Hv, Htype).
    destruct (py_eq_str type "accept" || py_eq_str type "define").
    + rewrite filter_cons_True in Hlen |- * by assumption.
      destruct (count + 1 >? 10) eqn:Hfull.
      * assert (count = 10) as -> by lia. reflexivity.
      * rewrite IH; [|lia|simpl in Hlen; lia].
        replace (Z.to_nat (11 - count)) with (S (Z.to_nat (11 - (count + 1))))
          by lia.
        simpl. now rewrite <- app_assoc.
    + rewrite filter_cons_False in Hlen |- * by (rewrite Hutt; discriminate).
      assert ((count >? 10) = false) as -> by lia.
      now apply IH.
Qed.

(** The replay of a log reads no further back than its eleventh utterance
    from the end.  Where the entries from some point on decode and hold
    eleven utterances or more, the utterances sent are the last eleven of
    them, newest first, whatever the lines before that point are: a line
    there that is no JSON, or has no type, is never decoded and does no
    harm. *)
Theorem utterances_stop_at_eleven (old recent : list string) :
  Forall entry_ok (old ++ recent) ->
  Forall typed_entry recent ->
  (11 <= length (filter (fun e => is_utterance e = true) recent))%nat ->
  utterances_of (log_text (old ++ recent))
  = Some (Ok (rev (last_n 11 (filter (fun e => is_utterance e = true) recent)))).
Proof.
  intros Hok Htyped Hlen. unfold utterances_of.
  rewrite LogScanFacts.reverse_readline_log_text by (assumption || reflexivity).
  rewrite rev_app_distr.
  rewrite collect_utterances_stops.
  - simpl. rewrite LogScanFacts.filter_rev.
    now rewrite LogScanFacts.take_rev_last_n.
  - now apply Forall_rev.
  - lia.
  - rewrite LogScanFacts.filter_rev, length_rev. simpl. exact Hlen.
Qed.

(** What is logged is what is replayed.  After a log request of type
    [accept] or [define], whether or not its broadcast went through, the log
    of the session ends with the line of the request, and the replay of that
    log sends this line first, followed by the ten utterances before it,
    newest first; provided the codec writes the entry as one line and reads
    it back. *)
Theorem log_then_utterances (d : list (string * pyval)) (st : server)
    (uid : string) (type : pyval) (entries : list string) :
  let line := json_dumps (log_entry d (now st)) in
  session_uid st = Some uid ->
  dict_get d "type" = Some type ->
  py_eq_str type "accept" || py_eq_str type "define" = true ->
  default EmptyString (logs st !! log_name uid) = log_text entries ->
  Forall entry_ok entries ->
  Forall typed_entry entries ->
  entry_ok line ->
  json_loads line = Some (log_entry d (now st)) ->
  logs (handle_log (PDict d) st).2 !! log_name uid
  = Some (log_text (entries ++ [line]))
  /\ utterances_of (log_text (entries ++ [line]))
     = Some (Ok (line :: rev (last_n 10 (filter (fun e => is_utterance e = true)
                                                entries)))).
Proof.
  intros line Huid Htype Hutt Hold Hok Htyped Hline Hback. split.
  - destruct (handle_log_run d st uid type Huid Htype) as (r & evs & -> & _).
    simpl. rewrite lookup_insert_eq, Hold, log_text_app. unfold log_line.
    simpl. now rewrite LineFacts.append_nil_r.
  - assert (Hkept : py_getitem (log_entry d (now st)) "type" = Ok type).
    { unfold log_entry. simpl.
      rewrite dict_get_set_other by discriminate. now rewrite Htype. }
    assert (Hlast : is_utterance line = true)
      by (unfold is_utterance; now rewrite Hback, Hkept).
    rewrite utterances_of_entries.
    + rewrite filter_app, filter_cons_True, filter_nil by exact Hlast.
      now rewrite last_n_snoc, rev_app_distr.
    + apply Forall_app. split; [exact Hok|now constructor].
    + apply Forall_app. split; [exact Htyped|].
      constructor; [|constructor]. now exists (log_entry d (now st)), type.
Qed.

Lemma log_name_inj (a b : string) : log_name a = log_name b -> a = b.
Proof.
  unfold log_name. intros Heq.
  rewrite <- (NameFacts.str_drop_end_json a), Heq.
  apply NameFacts.str_drop_end_json.
Qed.

(** What [session] does: it always returns. *)
Lemma session_spec (sessionId : string) (st : server) :
  session sessionId st
  = (Ok tt,
     with_log (with_session st sessionId) sessionId
       (log_line connect_message (now st))).
Proof.
  unfold session. rewrite bind_eq. cbv beta iota. rewrite bind_eq.
  fold (with_session st sessionId).
  change [("type", PStr "connect")]%string with connect_message.
  now rewrite (log_run connect_message (with_session st sessionId) sessionId).
Qed.


(** A disconnection is put on record and closes nothing: the log of the
    session gets the entry of the disconnection, [session.uid] stays as it
    was, and a log request that arrives afterwards is written to the same
    log, after that entry. *)
Theorem disconnect_keeps_session (d : list (string * pyval)) (type : pyval)
    (st : server) (uid : string) :
  session_uid st = Some uid ->
  dict_get d "type" = Some type ->
  let gone := with_log st uid (log_line (disconnect_message uid) (now st)) in
  disconnect st = (Ok tt, gone)
  /\ session_uid gone = Some uid
  /\ logs (handle_log (PDict d) gone).2 !! log_name uid
     = Some (String.append (default EmptyString (logs st !! log_name uid))
               (String.append (log_line (disconnect_message uid) (now st))
                              (log_line d (now st)))).
Proof.
  intros Huid Htype gone.
  assert (Hgone : session_uid gone = Some uid) by exact Huid.
  split; [|split; [exact Hgone|]].
  - unfold disconnect. rewrite bind_session, Huid, bind_eq.
    fold (disconnect_message uid).
    now rewrite (log_run (disconnect_message uid) st uid Huid).
  - destruct (handle_log_run d gone uid type Hgone Htype) as (r & evs & -> & _).
    simpl. rewrite !lookup_insert_eq. simpl. now rewrite append_assoc.
Qed.

End LogFacts.

(* ===================================================================== *)
(** * Facts: [reverse_readline] on any file                               *)
(* ===================================================================== *)

Module AnyFileFacts.
Import Text TextFacts ReverseReadline ReverseReadlineFacts.

Lemma filter_idem {A} (P : A -> Prop) `{forall x, Decision (P x)} (l : list A) :
  filter P (filter P l) = filter P l.
Proof.
  induction l as [|x l IH]; [reflexivity|].
  destruct (decide (P x)) as [Hx|Hx].
  - rewrite !filter_cons_True by assumption. now rewrite IH.
  - now rewrite filter_cons_False by assumption.
Qed.

(** One iteration on any file: the new segment is the first line of the
    longer suffix, and the non-empty lines that are yielded extend
    [yielded]. *)
Lemma rr_body_any segment buffer s :
  buffer <> [] -> segment_of segment s ->
  exists ys,
    rr_body segment buffer = Ok (ys, hd [] (split_nl (buffer ++ s)))
    /\ yielded (buffer ++ s)
       = yielded s ++ filter (fun l => nonempty l = true) ys.
Proof.
  intros Hbuf Hseg.
  destruct (split_nl_snoc buffer) as (xs & x & Hb).
  destruct (split_nl s) as [|y ys] eqn:Hs; [now apply split_nl_nonnil in Hs|].
  pose proof (split_nl_app buffer s xs x y ys Hb Hs) as Happ.
  unfold rr_body, yielded. rewrite Happ, Hb.
  destruct segment as [g|]; simpl in Hseg.
  - destruct Hseg as [Hsne ->]. rewrite Hs in *. simpl hd in *.
    destruct (last buffer) as [c|] eqn:Hlast;
      [|destruct buffer using rev_ind; [congruence|now rewrite last_snoc in Hlast]].
    destruct (is_nl c) eqn:Hc; simpl.
    + apply is_nl_true in Hc. subst c.
      destruct (last_nl_split buffer Hlast) as (b & ->).
      rewrite split_nl_snoc_nl in Hb. apply app_inj_tail in Hb as [<- <-].
      pose proof (split_nl_nonnil b) as Hbn.
      eexists. split.
      * rewrite hd_app_nonnil by assumption.
        rewrite (hd_app_nonnil _ (split_nl b)) by assumption. reflexivity.
      * rewrite !tail_app_nonnil by assumption.
        rewrite !rev_app_distr. simpl. rewrite !filter_app.
        rewrite <- !app_assoc. f_equal.
        rewrite (filter_cons_False _ []) by (simpl; congruence).
        change (y :: filter (fun l => nonempty l = true) (rev (tail (split_nl b))))
          with ([y] ++ filter (fun l => nonempty l = true) (rev (tail (split_nl b)))).
        now rewrite filter_app, filter_idem.
    + rewrite add_to_last_snoc. eexists. split.
      * now destruct xs.
      * replace (xs ++ (x ++ y) :: ys) with ((xs ++ [x ++ y]) ++ ys)
          by (now rewrite <- app_assoc).
        rewrite tail_app_nonnil by (now destruct xs).
        rewrite rev_app_distr, filter_app, filter_idem. reflexivity.
  - subst s. simpl in Hs. injection Hs as <- <-.
    simpl. rewrite app_nil_r. eexists. split; [reflexivity|].
    now rewrite filter_idem.
Qed.

Lemma any_file_exit segment c :
  segment_of segment c ->
  yielded c
  ++ filter (fun l => nonempty l = true)
       (match segment with Some s => [s] | None => [] end)
  = filter (fun l => nonempty l = true) (reversed_lines c).
Proof.
  intros Hseg. rewrite <- (reversed_lines_exit segment c Hseg).
  rewrite filter_app. unfold yielded. now rewrite filter_idem.
Qed.

(** The loop on any file, from any iteration on: with enough fuel it runs
    to its end, and the non-empty lines it yields complete [yielded] to the
    non-empty lines of the file. *)
Lemma rr_loop_any (c : list ascii) (buf_size : Z) :
  0 < buf_size ->
  forall fuel segment offset remaining_size,
    (Z.to_nat remaining_size <= fuel)%nat ->
    0 <= offset ->
    (0 < remaining_size -> remaining_size = Z.of_nat (length c) - offset) ->
    (remaining_size <= 0 -> offset = Z.of_nat (length c)) ->
    segment_of segment (drop (Z.to_nat (Z.of_nat (length c) - offset)) c) ->
    exists zs,
      rr_loop fuel c buf_size segment offset remaining_size
        = Some (zs, StopIteration)
      /\ yielded (drop (Z.to_nat (Z.of_nat (length c) - offset)) c)
         ++ filter (fun l => nonempty l = true) zs
         = filter (fun l => nonempty l = true) (reversed_lines c).
Proof.
  intros Hbuf.
  induction fuel as [|fuel IH]; intros segment offset remaining Hfuel Hoff Hpos Hend Hseg.
  - assert (remaining <= 0) as Hle by lia.
    assert ((remaining >? 0) = false) as Hgt by lia.
    simpl. rewrite Hgt. specialize (Hend Hle). subst offset.
    rewrite Z.sub_diag in *. change (Z.to_nat 0) with 0%nat in *.
    rewrite drop_0 in *.
    eexists. split; [reflexivity|]. now apply any_file_exit.
  - destruct (remaining >? 0) eqn:Hgt.
    2:{ assert (remaining <= 0) as Hle by lia.
        simpl. rewrite Hgt. specialize (Hend Hle). subst offset.
        rewrite Z.sub_diag in *. change (Z.to_nat 0) with 0%nat in *.
        rewrite drop_0 in *.
        eexists. split; [reflexivity|]. now apply any_file_exit. }
    assert (0 < remaining) as Hrem by lia.
    specialize (Hpos Hrem).
    cbn [rr_loop]. rewrite Hgt.
    set (N := Z.of_nat (length c)) in *.
    set (offset' := Z.min N (offset + buf_size)).
    set (n := Z.min remaining buf_size).
    set (s := drop (Z.to_nat (N - offset)) c) in *.
    assert (Hk : N - offset' = Z.of_nat (Z.to_nat (N - offset'))) by lia.
    assert (Hn : n = Z.of_nat (Z.to_nat n)) by lia.
    assert (Hsum : (Z.to_nat (N - offset') + Z.to_nat n)%nat = Z.to_nat (N - offset))
      by lia.
    destruct (fh_read_chunk c (Z.to_nat (N - offset')) (Z.to_nat n))
      as [Hchunk Hne]; [lia|lia|].
    rewrite <- Hk, <- Hn, Hsum in Hchunk. rewrite <- Hk, <- Hn in Hne.
    fold s in Hchunk.
    set (buffer := fh_read (N - offset') n c) in *.
    destruct (rr_body_any segment buffer s Hne Hseg) as (ys & Hbody & Hys).
    rewrite Hbody. rewrite Hchunk in Hbody, Hys.
    destruct (IH (Some (hd [] (split_nl (drop (Z.to_nat (N - offset')) c))))
                offset' (remaining - buf_size)) as (zs & Hloop & Hzs).
    + lia.
    + lia.
    + intros ?. lia.
    + intros ?. lia.
    + simpl. split; [|reflexivity].
      rewrite <- Hchunk. now destruct buffer.
    + rewrite Hchunk, Hloop. eexists. split; [reflexivity|].
      rewrite <- Hzs, Hys, filter_app, <- app_assoc. reflexivity.
Qed.

Lemma reversed_lines_any (c : list ascii) :
  filter (fun l => nonempty l = true) (reversed_lines c)
  = rev (filter (fun l => nonempty l = true) (split_nl c)).
Proof.
  unfold reversed_lines, yielded.
  pose proof (split_nl_nonnil c) as Hsplit.
  destruct c as [|a c]; [reflexivity|].
  destruct (split_nl (a :: c)) as [|h t]; [congruence|].
  simpl hd. simpl tail. rewrite filter_app, filter_idem.
  change (h :: t) with ([h] ++ t).
  rewrite (filter_app _ [h] t), rev_app_distr, LogScanFacts.filter_rev.
  f_equal. destruct (decide (nonempty h = true)) as [Hh|Hh].
  - now rewrite filter_cons_True by assumption.
  - now rewrite filter_cons_False by assumption.
Qed.

(** The non-empty lines the generator yields on any file. *)
Lemma rr_chars_any (c : list ascii) (buf_size : Z) :
  0 < buf_size ->
  exists lines,
    rr_chars c buf_size = Some (lines, StopIteration)
    /\ filter (fun l => nonempty l = true) lines
       = rev (filter (fun l => nonempty l = true) (split_nl c)).
Proof.
  intros Hbuf. unfold rr_chars.
  destruct (rr_loop_any c buf_size Hbuf (S (length c)) None 0
              (Z.of_nat (length c))) as (zs & Hloop & Hzs).
  - lia.
  - lia.
  - lia.
  - intros ?. lia.
  - simpl. rewrite Z.sub_0_r, Nat2Z.id. apply drop_all.
  - rewrite Hloop. exists zs. split; [reflexivity|].
    rewrite Z.sub_0_r, Nat2Z.id, drop_all in Hzs.
    unfold yielded in Hzs at 1. simpl in Hzs.
    now rewrite Hzs, reversed_lines_any.
Qed.

Lemma nonempty_string (l : list ascii) :
  string_of_list_ascii l <> EmptyString <-> nonempty l = true.
Proof. destruct l; simpl; split; congruence. Qed.

Lemma filter_strings (ls : list (list ascii)) :
  filter (fun l => l <> EmptyString) (map string_of_list_ascii ls)
  = map string_of_list_ascii (filter (fun l => nonempty l = true) ls).
Proof.
  induction ls as [|l ls IH]; [reflexivity|]. simpl map.
  destruct (decide (nonempty l = true)) as [Hl|Hl].
  - rewrite !filter_cons_True by (assumption || now apply nonempty_string).
    simpl. now rewrite IH.
  - rewrite !filter_cons_False by (assumption || now rewrite nonempty_string).
    exact IH.
Qed.


(** The buffer size has to be positive: with any other, the generator
    raises an [IndexError] on every file that is not empty, before it has
    yielded a line.  On an empty file it yields nothing and stops, whatever
    the buffer size. *)
Theorem reverse_readline_bad_buffer (content : string) (buf_size : Z) :
  (content <> EmptyString -> buf_size <= 0 ->
   reverse_readline content buf_size = Some ([], Raised IndexError))
  /\ reverse_readline EmptyString buf_size = Some ([], StopIteration).
Proof.
  split; [|reflexivity].
  intros Hne Hbuf. unfold reverse_readline.
  rewrite rr_chars_no_buffer; [reflexivity|exact Hbuf|].
  intros Hnil. apply Hne.
  rewrite <- (string_of_list_ascii_of_string content). now rewrite Hnil.
Qed.

End AnyFileFacts.

(* ===================================================================== *)
(** * Facts: the order of the floats that are numbers                     *)
(* ===================================================================== *)

Module FloatOrder.

Lemma ltb_rank (x y : float) :
  finite_float x = true -> finite_float y = true ->
  PrimFloat.ltb x y = true <-> rank_lt (float_rank x) (float_rank y).
Proof.
  unfold finite_float, float_rank, rank_lt. rewrite ltb_spec.
  unfold SFltb, SFcompare.
  destruct (Prim2SF x) as [sx|sx| |sx mx ex], (Prim2SF y) as [sy|sy| |sy my ey];
    try discriminate; intros _ _;
    try destruct sx; try destruct sy; simpl; try (split; [discriminate|lia]);
    try (split; [lia|discriminate]); try (split; intros; (reflexivity || lia)).
  - change (Pos.compare_cont Eq mx my) with (Pos.compare mx my).
    destruct (Z.compare_spec ex ey), (Pos.compare_spec mx my); simpl;
      split; intros; try discriminate; try reflexivity; lia.
  - change (Pos.compare_cont Eq mx my) with (Pos.compare mx my).
    destruct (Z.compare_spec ex ey), (Pos.compare_spec mx my); simpl;
      split; intros; try discriminate; try reflexivity; lia.
Qed.

Lemma not_ltb_rank (x y : float) :
  finite_float x = true -> finite_float y = true ->
  PrimFloat.ltb x y = false <-> ~ rank_lt (float_rank x) (float_rank y).
Proof.
  intros Hx Hy. rewrite <- (ltb_rank x y Hx Hy).
  destruct (PrimFloat.ltb x y); split; congruence.
Qed.

Lemma ltb_trans (x y z : float) :
  finite_float x = true -> finite_float y = true -> finite_float z = true ->
  PrimFloat.ltb x y = true -> PrimFloat.ltb y z = true -> PrimFloat.ltb x z = true.
Proof.
  intros Hx Hy Hz. rewrite !ltb_rank by assumption.
  unfold rank_lt. lia.
Qed.

Lemma ltb_asym (x y : float) :
  finite_float x = true -> finite_float y = true ->
  PrimFloat.ltb x y = true -> PrimFloat.ltb y x = false.
Proof.
  intros Hx Hy. rewrite not_ltb_rank, ltb_rank by assumption.
  unfold rank_lt. lia.
Qed.

Lemma ltb_irrefl (x : float) : finite_float x = true -> PrimFloat.ltb x x = false.
Proof.
  intros Hx. rewrite not_ltb_rank by assumption. unfold rank_lt. lia.
Qed.

(** Not being earlier is transitive. *)
Lemma not_ltb_trans (x y z : float) :
  finite_float x = true -> finite_float y = true -> finite_float z = true ->
  PrimFloat.ltb x y = false -> PrimFloat.ltb y z = false ->
  PrimFloat.ltb x z = false.
Proof.
  intros Hx Hy Hz. rewrite !not_ltb_rank by assumption.
  unfold rank_lt. lia.
Qed.

End FloatOrder.

(* ===================================================================== *)
(** * Facts: the five latest logs                                         *)
(* ===================================================================== *)

Section LatestFacts.
Import FloatOrder.

(** The scan for the earliest file, from any point on: it ends on a file
    of the list than which none is earlier. *)
Lemma scan_earliest (l pre : list file_info) (t : float) (i : nat) :
  finite_times (pre ++ l) ->
  (exists e, (pre ++ l) !! i = Some e /\ info_mtime e = t) ->
  (forall c, c ∈ pre -> PrimFloat.ltb (info_mtime c) t = false) ->
  exists t' i' e',
    foldl earlier_of (t, i) (imap (fun idx x => (length pre + idx, x)%nat) l)
    = (t', i')
    /\ (pre ++ l) !! i' = Some e'
    /\ info_mtime e' = t'
    /\ forall c, c ∈ pre ++ l -> PrimFloat.ltb (info_mtime c) t' = false.
Proof.
  revert pre t i. induction l as [|x l IH]; intros pre t i Hfin (e & He & Ht) Hmin.
  - exists t, i, e. rewrite app_nil_r in *. auto.
  - assert (Hfin' : forall c, c ∈ pre ++ x :: l -> finite_float (info_mtime c) = true)
      by (now apply Forall_forall).
    assert (Hx : finite_float (info_mtime x) = true)
      by (apply Hfin', elem_of_app; right; left).
    assert (Hte : finite_float t = true)
      by (subst t; eapply Hfin', list_elem_of_lookup_2; exact He).
    rewrite imap_cons. simpl foldl. rewrite Nat.add_0_r.
    assert (Hwhole : (pre ++ [x]) ++ l = pre ++ x :: l)
      by (now rewrite <- app_assoc).
    assert (Himap : imap ((fun idx x0 => (length pre + idx, x0)%nat) ∘ S) l
                    = imap (fun idx x0 => (length (pre ++ [x]) + idx, x0)%nat) l).
    { apply imap_ext. intros j y _. simpl. rewrite length_app. simpl.
      f_equal. lia. }
    rewrite Himap. rewrite <- Hwhole in *.
    destruct (PrimFloat.ltb (info_mtime x) t) eqn:Hlt.
    + apply IH; [exact Hfin| |].
      * exists x. split; [|reflexivity].
        rewrite lookup_app_l by (rewrite length_app; simpl; lia).
        rewrite lookup_app_r by lia.
        now replace (length pre - length pre)%nat with 0%nat by lia.
      * intros c Hc. apply elem_of_app in Hc as [Hc|Hc].
        -- destruct (PrimFloat.ltb (info_mtime c) (info_mtime x)) eqn:Hcx;
             [|reflexivity].
           assert (Hcf : finite_float (info_mtime c) = true)
             by (apply Hfin', elem_of_app; left; apply elem_of_app; now left).
           pose proof (ltb_trans _ _ _ Hcf Hx Hte Hcx Hlt) as Hct.
           rewrite (Hmin c Hc) in Hct. discriminate.
        -- apply list_elem_of_singleton in Hc. subst c. now apply ltb_irrefl.
    + apply IH; [exact Hfin|now exists e|].
      intros c Hc. apply elem_of_app in Hc as [Hc|Hc]; [now apply Hmin|].
      apply list_elem_of_singleton in Hc. now subst c.
Qed.

(** The earliest of a list of files: a file of the list than which none is
    earlier. *)
Lemma earliest_spec (latest_5 : list file_info) :
  latest_5 <> [] -> finite_times latest_5 ->
  exists t i e,
    earliest latest_5 = Ok (t, i)
    /\ latest_5 !! i = Some e
    /\ info_mtime e = t
    /\ forall c, c ∈ latest_5 -> PrimFloat.ltb (info_mtime c) t = false.
Proof.
  intros Hne Hfin. destruct latest_5 as [|first rest]; [congruence|].
  destruct (scan_earliest (first :: rest) [] (info_mtime first) 0%nat)
    as (t & i & e & Hscan & He & Ht & Hmin).
  - exact Hfin.
  - now exists first.
  - intros c Hc. inversion Hc.
  - exists t, i, e. split; [|auto]. unfold earliest. f_equal. exact Hscan.
Qed.

(** What the walk does with one file keeps the latest: the files kept are
    as many as there were files, up to five, and no file that was passed
    over was modified after one that is kept. *)
Lemma keep_latest_spec (done latest others : list file_info) (info : file_info) :
  finite_times (done ++ [info]) ->
  length latest = (5 `min` length done)%nat ->
  done ≡ₚ latest ++ others ->
  (forall k o, k ∈ latest -> o ∈ others -> not_after k o) ->
  exists latest' others',
    keep_latest latest info = Ok latest'
    /\ length latest' = (5 `min` length (done ++ [info]))%nat
    /\ done ++ [info] ≡ₚ latest' ++ others'
    /\ forall k o, k ∈ latest' -> o ∈ others' -> not_after k o.
Proof.
  intros Hfin Hlen Hperm Hlate.
  assert (Hsize : length done = (length latest + length others)%nat)
    by (now rewrite Hperm, length_app).
  assert (Hfin' : forall c, c ∈ done ++ [info] -> finite_float (info_mtime c) = true)
    by (now apply Forall_forall).
  assert (Hinfo : finite_float (info_mtime info) = true)
    by (apply Hfin', elem_of_app; right; left).
  assert (Hkept : forall c, c ∈ latest -> finite_float (info_mtime c) = true).
  { intros c Hc. apply Hfin', elem_of_app. left. rewrite Hperm.
    apply elem_of_app. now left. }
  assert (Hpassed : forall c, c ∈ others -> finite_float (info_mtime c) = true).
  { intros c Hc. apply Hfin', elem_of_app. left. rewrite Hperm.
    apply elem_of_app. now right. }
  unfold keep_latest. destruct (length latest <? 5)%nat eqn:Hfew.
  - apply Nat.ltb_lt in Hfew.
    assert (others = []) as -> by (apply nil_length_inv; lia).
    exists (latest ++ [info]), []. split; [reflexivity|].
    rewrite !length_app. cbn [length] in *. split; [lia|]. split.
    + now rewrite Hperm, !app_nil_r.
    + intros k o _ Ho. inversion Ho.
  - apply Nat.ltb_ge in Hfew.
    destruct (earliest_spec latest) as (t & i & e & -> & He & Ht & Hmin).
    { intros ->. simpl in Hfew. lia. }
    { apply Forall_forall. exact Hkept. }
    cbn [rbind].
    assert (Hi : (i < length latest)%nat) by (eapply lookup_lt_Some; exact He).
    assert (Hlatest : latest = take i latest ++ e :: drop (S i) latest)
      by (symmetry; now apply take_drop_middle).
    assert (He' : e ∈ latest) by (eapply list_elem_of_lookup_2; exact He).
    subst t. destruct (PrimFloat.ltb (info_mtime e) (info_mtime info)) eqn:Hlt.
    + exists (<[i := info]> latest), (e :: others). split; [reflexivity|].
      rewrite length_insert, length_app. cbn [length]. split; [lia|].
      rewrite insert_take_drop by exact Hi.
      set (A := take i latest) in *. set (B := drop (S i) latest) in *.
      split.
      * rewrite Hperm, Hlatest.
        rewrite <- Permutation_cons_append.
        rewrite <- !Permutation_middle. simpl. apply Permutation_swap.
      * intros k o Hk Ho.
        assert (Hk' : k = info \/ k ∈ latest).
        { rewrite Hlatest. rewrite !elem_of_app, !elem_of_cons in *. tauto. }
        apply elem_of_cons in Ho. unfold not_after.
        destruct Hk' as [->|Hk'], Ho as [->|Ho].
        -- apply ltb_asym; auto.
        -- destruct (PrimFloat.ltb (info_mtime info) (info_mtime o)) eqn:Hio;
             [|reflexivity].
           pose proof (ltb_trans _ _ _ (Hkept e He') Hinfo (Hpassed o Ho) Hlt Hio)
             as Heo.
           rewrite (Hlate e o He' Ho) in Heo. discriminate.
        -- now apply Hmin.
        -- now apply Hlate.
    + exists latest, (info :: others). split; [reflexivity|].
      rewrite length_app. cbn [length]. split; [lia|]. split.
      * rewrite Hperm. rewrite <- Permutation_cons_append.
        now rewrite <- Permutation_middle.
      * intros k o Hk Ho. apply elem_of_cons in Ho as [->|Ho];
          [|now apply Hlate].
        unfold not_after.
        apply (not_ltb_trans _ (info_mtime e)); auto.
Qed.

(** The walk, from any file on. *)
Lemma walk_logs_spec (stat_mtime : string -> float) (files : list string) :
  forall done latest others : list file_info,
    finite_times (done ++ map (log_info stat_mtime) files) ->
    length latest = (5 `min` length done)%nat ->
    done ≡ₚ latest ++ others ->
    (forall k o, k ∈ latest -> o ∈ others -> not_after k o) ->
    exists latest' others',
      walk_logs stat_mtime files latest = Ok latest'
      /\ length latest'
         = (5 `min` length (done ++ map (log_info stat_mtime) files))%nat
      /\ done ++ map (log_info stat_mtime) files ≡ₚ latest' ++ others'
      /\ forall k o, k ∈ latest' -> o ∈ others' -> not_after k o.
Proof.
  induction files as [|fname files IH]; intros done latest others Hfin Hlen Hperm Hlate.
  - simpl. rewrite app_nil_r. now exists latest, others.
  - simpl map in *.
    assert (Hwhole : (done ++ [log_info stat_mtime fname])
                     ++ map (log_info stat_mtime) files
                     = done ++ log_info stat_mtime fname
                          :: map (log_info stat_mtime) files)
      by (now rewrite <- app_assoc).
    rewrite <- Hwhole in *.
    destruct (keep_latest_spec done latest others (log_info stat_mtime fname))
      as (latest1 & others1 & Hkeep & Hlen1 & Hperm1 & Hlate1); try assumption.
    { unfold finite_times in *. apply Forall_app in Hfin. tauto. }
    cbn [walk_logs].
    change (stat_mtime fname, str_drop_end 5 fname, fname)
      with (log_info stat_mtime fname).
    rewrite Hkeep. cbn [rbind]. now apply (IH _ _ others1).
Qed.

(** The files whose utterances are replayed are the latest: of the log
    files, the walk keeps five, or all if there are fewer, and no log file it
    passes over was modified after one it keeps; so for every listing of the
    folder in which the times of modification are numbers. *)
Theorem latest_5_are_latest (stat_mtime : string -> float) (files : list string) :
  Forall (fun fname => finite_float (stat_mtime fname) = true) files ->
  exists latest_5 others,
    walk_logs stat_mtime files [] = Ok latest_5
    /\ length latest_5 = (5 `min` length files)%nat
    /\ map (log_info stat_mtime) files ≡ₚ latest_5 ++ others
    /\ forall kept other,
         kept ∈ latest_5 -> other ∈ others ->
         PrimFloat.ltb (info_mtime kept) (info_mtime other) = false.
Proof.
  intros Hfin.
  destruct (walk_logs_spec stat_mtime files [] [] [])
    as (latest_5 & others & Hwalk & Hlen & Hperm & Hlate).
  - simpl. unfold finite_times. now apply Forall_map.
  - reflexivity.
  - reflexivity.
  - intros k o Hk. inversion Hk.
  - simpl in Hlen, Hperm. rewrite length_map in Hlen.
    now exists latest_5, others.
Qed.

End LatestFacts.

(* ===================================================================== *)
(** * Facts: the replay of the utterances                                 *)
(* ===================================================================== *)

Section SortFacts.

Lemma insert_desc_perm (x : Z * file_info) (l : list (Z * file_info)) :
  insert_desc x l ≡ₚ x :: l.
Proof.
  induction l as [|y l IH]; [reflexivity|]. simpl.
  destruct (x.1 <? y.1); [|reflexivity].
  rewrite IH. apply Permutation_swap.
Qed.

Lemma insert_desc_sorted (x : Z * file_info) (l : list (Z * file_info)) :
  StronglySorted (fun a b => b.1 <= a.1) l ->
  StronglySorted (fun a b => b.1 <= a.1) (insert_desc x l).
Proof.
  induction 1 as [|y l Hl IH Hy]; simpl.
  - repeat constructor.
  - destruct (x.1 <? y.1) eqn:Hxy.
    + constructor; [exact IH|].
      rewrite insert_desc_perm. constructor; [lia|exact Hy].
    + constructor; [now constructor|].
      constructor; [lia|].
      eapply Forall_impl; [exact Hy|]. simpl. intros z Hz. lia.
Qed.

Lemma sort_desc_spec (keyed : list (Z * file_info)) :
  foldr insert_desc [] keyed ≡ₚ keyed
  /\ StronglySorted (fun a b => b.1 <= a.1) (foldr insert_desc [] keyed).
Proof.
  induction keyed as [|x l [IHp IHs]]; simpl.
  - split; [reflexivity|constructor].
  - split; [now rewrite insert_desc_perm, IHp|now apply insert_desc_sorted].
Qed.

Lemma seconds_of_finite (info : file_info) :
  finite_float (info_mtime info) = true ->
  int_of_float (info_mtime info) = Ok (seconds_of info).
Proof.
  unfold seconds_of, finite_float, int_of_float.
  now destruct (Prim2SF (info_mtime info)).
Qed.

(** The keys of the sort: the whole seconds of each file. *)
Lemma sort_keys (l : list file_info) :
  finite_times l ->
  foldr (fun info acc =>
           k <-? int_of_float (info_mtime info);
           others <-? acc;
           Ok ((k, info) :: others))
        (Ok []) l
  = Ok (map (fun info => (seconds_of info, info)) l).
Proof.
  induction 1 as [|info l Hinfo _ IH]; [reflexivity|].
  simpl. now rewrite (seconds_of_finite info Hinfo), IH.
Qed.

(** The order of the replay: the files that were kept, from the latest
    whole second of modification down. *)
Lemma sorted_latest_spec (latest_5 : list file_info) :
  finite_times latest_5 ->
  exists ordered,
    sorted_latest latest_5 = Ok ordered
    /\ ordered ≡ₚ latest_5
    /\ StronglySorted seconds_ge ordered.
Proof.
  intros Hfin.
  assert (Hge : forall a b,
             a ∈ latest_5 -> b ∈ latest_5 -> seconds_of b <= seconds_of a ->
             seconds_ge a b).
  { intros a b Ha Hb Hle. unfold finite_times in Hfin.
    rewrite Forall_forall in Hfin. exists (seconds_of a), (seconds_of b).
    auto using seconds_of_finite. }
  unfold sorted_latest. rewrite (sort_keys _ Hfin). cbn [rbind].
  set (keyed := map (fun info => (seconds_of info, info)) latest_5).
  destruct (sort_desc_spec keyed) as [Hperm Hsorted].
  eexists. split; [reflexivity|]. split.
  - rewrite Hperm. subst keyed. rewrite map_map. simpl. now rewrite map_id.
  - assert (Hkeys : Forall (fun p => p.1 = seconds_of p.2) (foldr insert_desc [] keyed)).
    { rewrite Hperm. subst keyed. apply Forall_map. now apply Forall_forall. }
    assert (Hin : Forall (fun p => p.2 ∈ latest_5) (foldr insert_desc [] keyed)).
    { rewrite Hperm. subst keyed. apply Forall_map. now apply Forall_forall. }
    clear Hperm.
    induction Hsorted as [|p l Hl IH Hp]; simpl; constructor;
      inversion Hkeys as [|? ? Hk Hks]; inversion Hin as [|? ? Hi His]; subst.
    + now apply IH.
    + apply Forall_map. rewrite Forall_forall in *.
      intros q Hq. simpl. apply Hge; auto.
      rewrite <- Hk, <- (Hks q Hq). now apply Hp.
Qed.

End SortFacts.

Section UtteranceReplayFacts.
Context {L : Libs}.

(** The bound on the loop of [reverse_readline] is enough: the utterances
    of a log file are always defined. *)
Lemma utterances_of_defined (content : string) : utterances_of content <> None.
Proof.
  unfold utterances_of, ReverseReadline.reverse_readline, ReverseReadline.rr_chars.
  pose proof (ReverseReadlineFacts.rr_loop_enough_fuel
                (list_ascii_of_string content) ReverseReadline.default_buf_size
                ltac:(reflexivity) (S (length (list_ascii_of_string content)))
                None 0 (Z.of_nat (length (list_ascii_of_string content)))
                ltac:(lia)) as Hsome.
  destruct (ReverseReadline.rr_loop _ _ _ _ _ _) as [[lines []]|];
    [discriminate..|congruence].
Qed.

(** The loop over the ordered files, when their logs are made of entries. *)
Lemma for_each_utterances (entries_of : string -> list string) (st : server)
    (ordered : list file_info) (evs0 : list event) :
  (forall info, info ∈ ordered ->
      logs st !! info.2 = Some (log_text (entries_of info.2))
      /\ Forall entry_ok (entries_of info.2)
      /\ Forall typed_entry (entries_of info.2)) ->
  for_each ordered emit_file_utterances (with_events st evs0)
  = (Ok tt, with_events st (evs0 ++ map (utterances_event entries_of) ordered)).
Proof.
  revert evs0. induction ordered as [|info ordered IH]; intros evs0 Hlogs.
  - simpl. now rewrite app_nil_r.
  - destruct (Hlogs info ltac:(left)) as (Hfile & Hok & Htyped).
    cbn [for_each]. rewrite bind_eq.
    assert (Hone : emit_file_utterances info (with_events st evs0)
                   = (Ok tt, with_events st (evs0 ++ [utterances_event entries_of info]))).
    { unfold emit_file_utterances. destruct info as [[mtime uid] path].
      cbn [snd] in Hfile, Hok, Htyped. rewrite bind_gets.
      change (logs (with_events st evs0)) with (logs st). rewrite Hfile.
      rewrite bind_lift, (utterances_of_entries _ Hok Htyped). simpl.
      unfold emit, with_events. simpl. now rewrite <- app_assoc. }
    rewrite Hone, IH.
    + now rewrite <- app_assoc.
    + intros info' Hin. apply Hlogs. now right.
Qed.

(** What [emit_utterances] does where the log files are made of entries. *)
Lemma emit_utterances_run (stat_mtime : string -> float) (st : server)
    (entries_of : string -> list string) :
  let files := map fst (map_to_list (logs st)) in
  Forall (fun fname => finite_float (stat_mtime fname) = true) files ->
  (forall fname content,
      logs st !! fname = Some content ->
      content = log_text (entries_of fname)
      /\ Forall entry_ok (entries_of fname)
      /\ Forall typed_entry (entries_of fname)) ->
  exists latest_5 ordered,
    walk_logs stat_mtime files [] = Ok latest_5
    /\ sorted_latest latest_5 = Ok ordered
    /\ ordered ≡ₚ latest_5
    /\ StronglySorted seconds_ge ordered
    /\ emit_utterances stat_mtime st
       = (Ok tt, with_events st (map (utterances_event entries_of) ordered)).
Proof.
  intros files Hfin Hlogs.
  destruct (walk_logs_spec stat_mtime files [] [] [])
    as (latest_5 & others & Hwalk & _ & Hperm & _).
  { simpl. unfold finite_times. now apply Forall_map. }
  { reflexivity. }
  { reflexivity. }
  { intros k o Hk. inversion Hk. }
  simpl in Hperm.
  assert (Hsub : forall info, info ∈ latest_5 ->
                   exists fname, fname ∈ files /\ info = log_info stat_mtime fname).
  { intros info Hin.
    assert (Hin' : info ∈ map (log_info stat_mtime) files)
      by (rewrite Hperm; apply elem_of_app; now left).
    apply list_elem_of_fmap in Hin' as (fname & -> & Hfname). eauto. }
  assert (Hfin5 : finite_times latest_5).
  { apply Forall_forall. intros info Hin.
    destruct (Hsub info Hin) as (fname & Hfname & ->).
    rewrite Forall_forall in Hfin. now apply Hfin. }
  destruct (sorted_latest_spec latest_5 Hfin5) as (ordered & Hsort & Hperm' & Hsorted).
  exists latest_5, ordered. repeat (split; [assumption|]).
  unfold emit_utterances. rewrite bind_gets. fold files.
  rewrite bind_lift, Hwalk, bind_lift, Hsort.
  rewrite <- (with_events_nil st) at 1.
  rewrite (for_each_utterances entries_of); [reflexivity|].
  intros info Hin. rewrite Hperm' in Hin.
  destruct (Hsub info Hin) as (fname & Hfname & ->). simpl.
  apply list_elem_of_fmap in Hfname as ([fname' content] & -> & Hfile).
  apply elem_of_map_to_list in Hfile. simpl.
  destruct (Hlogs fname' content Hfile) as (-> & Hok & Htyped). auto.
Qed.

(** The replay of the utterances.  Where every log file is made of entries
    that decode, each one line, and the times of modification are numbers,
    [emit_utterances] sends one [utterances] message for each of the latest
    files, from the latest whole second of modification down: the scrubbed
    uid of the log and its last eleven utterances, newest first. *)
Theorem emit_utterances_replays (stat_mtime : string -> float) (st : server)
    (entries_of : string -> list string) :
  let files := map fst (map_to_list (logs st)) in
  Forall (fun fname => finite_float (stat_mtime fname) = true) files ->
  (forall fname content,
      logs st !! fname = Some content ->
      content = log_text (entries_of fname)
      /\ Forall entry_ok (entries_of fname)
      /\ Forall typed_entry (entries_of fname)) ->
  exists latest_5 ordered,
    walk_logs stat_mtime files [] = Ok latest_5
    /\ sorted_latest latest_5 = Ok ordered
    /\ ordered ≡ₚ latest_5
    /\ StronglySorted seconds_ge ordered
    /\ emit_utterances stat_mtime st
       = (Ok tt, with_events st (map (utterances_event entries_of) ordered)).
Proof. exact (emit_utterances_run stat_mtime st entries_of). Qed.

End UtteranceReplayFacts.

(* ===================================================================== *)
(** * Facts: what a client receives on joining                            *)
(* ===================================================================== *)

Section JoinReplayFacts.
Context {L : Libs}.

(** What [emit_structs] does where the files of three lines decode. *)
Lemma emit_structs_run (st : server) :
  (forall uid fname content,
      struct_file st uid fname = Some content ->
      three_lines (uid, fname, content) ->
      exists ev, struct_event (now st) (uid, fname, content) = Ok ev) ->
  exists evs,
    emit_structs st = (Ok tt, with_events st evs)
    /\ Forall2 (fun file ev => struct_event (now st) file = Ok ev)
         (filter three_lines (all_files st)) evs.
Proof.
  intros Hfiles. unfold emit_structs. rewrite bind_gets.
  destruct (emit_folders_spec st (map_to_list (structs st)) [])
    as (evs & Hrun & Hall).
  - intros uid folder Hin. now apply elem_of_map_to_list.
  - intros [[uid fname] content] Hin. apply Hfiles. now apply all_files_spec.
  - rewrite with_events_nil in Hrun. exists evs. now split.
Qed.

(** The whole replay.  A client that joins the community room is put into
    the room and then receives, in this order and addressed to it alone, one
    [struct] message for every struct file of three lines, as the listing has
    them, and one [utterances] message for each of the latest log files,
    from the latest whole second of modification down; provided the struct
    files of three lines decode, the log files are made of entries that
    decode, and the times of modification are numbers. *)
Theorem on_join_replays_all (stat_mtime : string -> float) (data : pyval)
    (h : hub) (entries_of : string -> list string) :
  let st := hub_server h in
  let files := map fst (map_to_list (logs st)) in
  py_getitem data "room" = Ok (PStr "community") ->
  (forall uid fname content,
      struct_file st uid fname = Some content ->
      three_lines (uid, fname, content) ->
      exists ev, struct_event (now st) (uid, fname, content) = Ok ev) ->
  Forall (fun fname => finite_float (stat_mtime fname) = true) files ->
  (forall fname content,
      logs st !! fname = Some content ->
      content = log_text (entries_of fname)
      /\ Forall entry_ok (entries_of fname)
      /\ Forall typed_entry (entries_of fname)) ->
  exists struct_evs latest_5 ordered,
    on_join stat_mtime data h
    = (Ok tt,
       Hub (with_events st
              (struct_evs ++ map (utterances_event entries_of) ordered))
           (hub_calls h ++ [JoinRoom (PStr "community")]))
    /\ Forall2 (fun file ev => struct_event (now st) file = Ok ev)
         (filter three_lines (all_files st)) struct_evs
    /\ walk_logs stat_mtime files [] = Ok latest_5
    /\ ordered ≡ₚ latest_5
    /\ StronglySorted seconds_ge ordered.
Proof.
  intros st files Hroom Hstructs Hfin Hlogs.
  destruct (emit_structs_run st Hstructs) as (struct_evs & Hrun1 & Hall).
  destruct (emit_utterances_run stat_mtime (with_events st struct_evs) entries_of)
    as (latest_5 & ordered & Hwalk & _ & Hperm & Hsorted & Hrun2).
  { exact Hfin. }
  { exact Hlogs. }
  exists struct_evs, latest_5, ordered.
  split; [|repeat split; assumption].
  rewrite (on_join_run _ _ _ _ Hroom). simpl. fold st.
  rewrite Hrun1, Hrun2. unfold with_events. simpl. now rewrite <- app_assoc.
Qed.

End JoinReplayFacts.

(* ===================================================================== *)
(** * The theorems at concrete requests                                   *)
(* ===================================================================== *)

Module Witnesses.
Import Examples.

(** The voter upvotes the struct a second time. *)
Lemma upvote_again_raises_witness :
  upvote (L := Reference.libs) (upvote_request owner "1") upvoted_server
  = (Raise UnboundLocalError, upvoted_server).
Proof.
  apply (upvote_again_raises (L := Reference.libs) _ _ voter owner "1"
           (struct_text [voter] 1480000000 cube) [PStr voter]).
  - reflexivity.
  - discriminate.
  - reflexivity.
  - reflexivity.
  - vm_compute. reflexivity.
  - vm_compute. reflexivity.
  - left.
Defined.

(** A log request without [type]. *)
Lemma handle_log_without_type_witness :
  handle_log (L := Reference.libs) untyped_log_request upvoted_server
  = (Ok tt, upvoted_server).
Proof.
  apply (handle_log_without_type (L := Reference.libs) untyped_log_request
           upvoted_server).
  discriminate.
Defined.


(** A log of two entries, read in chunks of seven characters. *)
Lemma reverse_readline_newest_first_witness :
  exists lines,
    ReverseReadline.reverse_readline (log_text two_entries) 7
    = Some (lines, ReverseReadline.StopIteration)
    /\ lines = rev two_entries
    /\ forall (P : string -> Prop) (dec : forall e, Decision (P e)) (maxCount : nat),
         take maxCount (filter P lines)
         = rev (last_n maxCount (filter P two_entries)).
Proof.
  apply (LogScanFacts.reverse_readline_newest_first two_entries 7).
  - reflexivity.
  - repeat constructor; try discriminate;
      (intros Hin; vm_compute in Hin;
       repeat (apply elem_of_cons in Hin as [Hin|Hin]; [discriminate|]);
       now apply elem_of_nil in Hin).
Defined.


(** A replay over a complete struct file and one cut short. *)
Lemma emit_structs_replays_witness :
  exists evs,
    emit_structs (L := Reference.libs) mixed_server
    = (Ok tt, with_events mixed_server evs)
    /\ Forall2 (fun file ev =>
                  struct_event (L := Reference.libs) (now mixed_server) file = Ok ev)
         (filter three_lines (all_files mixed_server)) evs.
Proof.
  apply (emit_structs_replays (L := Reference.libs) mixed_server).
  intros uid fname content Hfile Hthree.
  apply all_files_spec in Hfile. vm_compute in Hfile.
  apply elem_of_cons in Hfile as [[= -> -> ->]|Hfile];
    [eexists; vm_compute; reflexivity|].
  apply elem_of_cons in Hfile as [[= -> -> ->]|Hfile];
    [|now apply elem_of_nil in Hfile].
  vm_compute in Hthree. discriminate.
Defined.

(** C10, as stated, fails on a file of three lines that are not JSON: the
    replay raises and sends nothing. *)
Lemma emit_structs_garbled :
  Forall three_lines (all_files garbled_server)
  /\ emit_structs (L := Reference.libs) garbled_server
     = (Raise ValueError, garbled_server).
Proof.
  split.
  - vm_compute. repeat constructor.
  - vm_compute. reflexivity.
Qed.


(** The utterances of a log of two entries. *)
Lemma utterances_of_log_text_witness :
  utterances_of (L := Reference.libs) (log_text two_entries)
  = Some (Ok (rev (last_n 11
       (filter (fun e => is_utterance (L := Reference.libs) e = true) two_entries)))).
Proof.
  apply (LogScanFacts.utterances_of_log_text (L := Reference.libs) two_entries).
  - repeat constructor; try discriminate;
      (intros Hin; vm_compute in Hin;
       repeat (apply elem_of_cons in Hin as [Hin|Hin]; [discriminate|]);
       now apply elem_of_nil in Hin).
  - repeat constructor; (do 2 eexists; split; vm_compute; reflexivity).
Defined.

(** The owner shares a cube, the first struct of the owner. *)
Lemma first_share_event_witness :
  handle_share (L := Reference.libs) (share_request cube) empty_server
  = (Ok tt,
     with_events
       (with_struct empty_server owner "1.json"
          (String.append (share_head (now empty_server)) (Reference.dumps cube)))
       [Event "struct"
          (PDict [("uid", PStr (str_take 8 owner)); ("id", PStr "1");
                  ("score", PFloat (1 / Reference.pow 2 GRAVITY));
                  ("upvotes", PList []); ("struct", cube)]%string)
          community]).
Proof.
  apply (first_share_event (L := Reference.libs) (share_request cube) cube
           empty_server owner (1480000000)%float);
    vm_compute; reflexivity.
Defined.




(** A file of three lines that are not JSON stops the replay at the structs:
    the client has joined, and gets no utterances. *)
Lemma on_join_community_witness :
  on_join (L := Reference.libs) six_mtimes (join_request "community")
    (Hub garbled_server [])
  = (Raise ValueError, Hub garbled_server [JoinRoom (PStr "community")]).
Proof.
  destruct (on_join_community (L := Reference.libs) six_mtimes
              (join_request "community") (Hub garbled_server []) eq_refl)
    as [_ Hraise].
  destruct (Hraise ValueError garbled_server) as [Hrun _].
  - vm_compute. reflexivity.
  - exact Hrun.
Defined.

(** A request to join the lobby, and one that names no room. *)
Lemma on_join_other_room_witness :
  on_join (L := Reference.libs) six_mtimes (join_request "lobby")
    (Hub mixed_server [])
  = (Ok tt, Hub mixed_server [JoinRoom (PStr "lobby")])
  /\ on_join (L := Reference.libs) six_mtimes (PDict []) (Hub mixed_server [])
     = (Raise KeyError, Hub mixed_server []).
Proof.
  destruct (on_join_other_room (L := Reference.libs) six_mtimes
              (join_request "lobby") (Hub mixed_server [])) as [_ Hother].
  destruct (on_join_other_room (L := Reference.libs) six_mtimes
              (PDict []) (Hub mixed_server [])) as [Hmissing _].
  split.
  - apply (Hother "lobby"%string); [reflexivity|discriminate].
  - apply (Hmissing KeyError). reflexivity.
Defined.

(** A request to leave the community room, and one without [sessionId]. *)
Lemma on_leave_needs_session_id_witness :
  on_leave (join_request "community")
    (Hub mixed_server [JoinRoom (PStr "community")])
  = (Raise KeyError, Hub mixed_server [JoinRoom (PStr "community")])
  /\ on_leave (leave_request "community")
       (Hub mixed_server [JoinRoom (PStr "community")])
     = (Ok tt, Hub mixed_server [JoinRoom (PStr "community");
                                 LeaveRoom (PStr "community")]).
Proof.
  destruct (on_leave_needs_session_id (join_request "community")
              (Hub mixed_server [JoinRoom (PStr "community")])) as [Hmissing _].
  destruct (on_leave_needs_session_id (leave_request "community")
              (Hub mixed_server [JoinRoom (PStr "community")])) as [_ Hleave].
  split.
  - apply (Hmissing KeyError). reflexivity.
  - apply (Hleave (PStr owner) "community"%string); reflexivity.
Defined.

(** Requests before any session message. *)
Lemma handlers_need_session_witness :
  handle_share (L := Reference.libs) (PDict accept_request) fresh_server
  = (Raise AttributeError, fresh_server)
  /\ upvote (L := Reference.libs) (PDict accept_request) fresh_server
     = (Raise AttributeError, fresh_server)
  /\ disconnect (L := Reference.libs) fresh_server
     = (Raise AttributeError, fresh_server)
  /\ handle_log (L := Reference.libs) (PDict accept_request) fresh_server
     = (Raise AttributeError, fresh_server).
Proof.
  destruct (handlers_need_session (L := Reference.libs) (PDict accept_request)
              fresh_server eq_refl) as (Hshare & Hupvote & Hdisconnect & Hlog).
  split; [exact Hshare|]. split; [exact Hupvote|].
  split; [exact Hdisconnect|]. apply Hlog. reflexivity.
Defined.


(** A share request without a struct, the first request of the owner. *)
Lemma share_without_struct_witness :
  let count := Z.of_nat (size (default ∅ (structs empty_server !! owner))) in
  exists st',
    handle_share (L := Reference.libs) (PDict []) empty_server
    = (Raise KeyError, st')
    /\ emitted st' = emitted empty_server
    /\ struct_file st' owner (struct_name (count + 1))
       = Some (share_head (now empty_server))
    /\ (forall st2,
           emit_struct_file (L := Reference.libs) owner (struct_name (count + 1))
             (share_head (now empty_server)) st2
           = (Ok tt, st2))
    /\ new_struct_id_of (map fst (map_to_list (default ∅ (structs st' !! owner))))
       = Ok (py_str (count + 2)).
Proof.
  apply (share_without_struct (L := Reference.libs) (PDict []) empty_server owner
           (PFloat (1 / Reference.pow 2 GRAVITY)) KeyError).
  - reflexivity.
  - simpl. rewrite lookup_empty. apply numbered_empty.
  - vm_compute. reflexivity.
  - reflexivity.
Defined.

(** The owner shares a cube; the replay a minute later. *)
Lemma share_then_replay_witness :
  let count := Z.of_nat (size (default ∅ (structs empty_server !! owner))) in
  let id := py_str (count + 1) in
  let score := PFloat (1 / Reference.pow 2 GRAVITY) in
  exists st' content,
    handle_share (L := Reference.libs) (share_request cube) empty_server
    = (Ok tt, st')
    /\ emitted st'
       = emitted empty_server
         ++ [Event "struct" (share_message owner id score cube) community]
    /\ struct_file st' owner (struct_name (count + 1)) = Some content
    /\ forall st2 score2,
         score_at (L := Reference.libs) (now st2) (PInt (now empty_server)) 0
         = Ok score2 ->
         emit_struct_file (L := Reference.libs) owner (struct_name (count + 1))
           content st2
         = (Ok tt,
            with_events st2
              [Event "struct" (share_message owner id score2 cube) None]).
Proof.
  apply (share_then_replay (L := Reference.libs) (share_request cube) cube
           empty_server owner (PFloat (1 / Reference.pow 2 GRAVITY))).
  - reflexivity.
  - simpl. rewrite lookup_empty. apply numbered_empty.
  - reflexivity.
  - vm_compute. reflexivity.
  - vm_compute. reflexivity.
  - vm_compute. reflexivity.
  - discriminate.
  - intros Hin; vm_compute in Hin;
      repeat (apply elem_of_cons in Hin as [Hin|Hin]; [discriminate|]);
      now apply elem_of_nil in Hin.
  - vm_compute. reflexivity.
Defined.


(** The voter logs an accepted query. *)
Lemma handle_log_records_first_witness :
  let logged :=
    with_log upvoted_server voter
      (log_line (L := Reference.libs) accept_request (now upvoted_server)) in
  exists r evs,
    handle_log (L := Reference.libs) (PDict accept_request) upvoted_server
    = (r, with_events logged evs)
    /\ py_getitem (log_entry accept_request (now upvoted_server)) "timestamp"
       = Ok (PInt (now upvoted_server))
    /\ (evs = []
        \/ r = Ok tt
           /\ exists name payload,
                evs = [Event name payload community]
                /\ py_getitem payload "uid" = Ok (PStr (scrub_uid voter)))
    /\ (py_eq_str (PStr "accept") "accept" = false ->
        py_eq_str (PStr "accept") "define" = false ->
        r = Ok tt /\ evs = []).
Proof.
  apply (handle_log_records_first (L := Reference.libs) accept_request
           upvoted_server voter (PStr "accept")); reflexivity.
Defined.

(** The owner logs an accepted query after two others. *)
Lemma log_then_utterances_witness :
  let line :=
    Reference.dumps (log_entry accept_request (now logged_server)) in
  logs (handle_log (L := Reference.libs) (PDict accept_request) logged_server).2
    !! log_name owner
  = Some (log_text (two_entries ++ [line]))
  /\ utterances_of (L := Reference.libs) (log_text (two_entries ++ [line]))
     = Some (Ok (line :: rev (last_n 10
          (filter (fun e => is_utterance (L := Reference.libs) e = true)
                  two_entries)))).
Proof.
  apply (log_then_utterances (L := Reference.libs) accept_request logged_server
           owner (PStr "accept") two_entries).
  - reflexivity.
  - reflexivity.
  - reflexivity.
  - simpl. now rewrite lookup_singleton_eq.
  - repeat constructor; try discriminate;
      (intros Hin; vm_compute in Hin;
       repeat (apply elem_of_cons in Hin as [Hin|Hin]; [discriminate|]);
       now apply elem_of_nil in Hin).
  - repeat constructor; (do 2 eexists; split; vm_compute; reflexivity).
  - split; [discriminate|].
    intros Hin; vm_compute in Hin;
      repeat (apply elem_of_cons in Hin as [Hin|Hin]; [discriminate|]);
      now apply elem_of_nil in Hin.
  - vm_compute. reflexivity.
Defined.


(** The log of two entries read with a buffer of no size. *)
Lemma reverse_readline_bad_buffer_witness :
  ReverseReadline.reverse_readline (log_text two_entries) 0
  = Some ([], ReverseReadline.Raised IndexError).
Proof.
  destruct (AnyFileFacts.reverse_readline_bad_buffer (log_text two_entries) 0)
    as [Hraise _].
  apply Hraise; [discriminate|reflexivity].
Defined.

(** Six log files: the third, the earliest, is passed over. *)
Lemma latest_5_are_latest_witness :
  exists latest_5 others,
    walk_logs six_mtimes six_logs [] = Ok latest_5
    /\ length latest_5 = (5 `min` length six_logs)%nat
    /\ map (log_info six_mtimes) six_logs ≡ₚ latest_5 ++ others
    /\ forall kept other,
         kept ∈ latest_5 -> other ∈ others ->
         PrimFloat.ltb (info_mtime kept) (info_mtime other) = false.
Proof.
  apply (latest_5_are_latest six_mtimes six_logs).
  repeat constructor.
Defined.

(** The replay of the utterances of the one log there is. *)
Lemma emit_utterances_replays_witness :
  let files := map fst (map_to_list (logs logged_server)) in
  exists latest_5 ordered,
    walk_logs six_mtimes files [] = Ok latest_5
    /\ sorted_latest latest_5 = Ok ordered
    /\ ordered ≡ₚ latest_5
    /\ StronglySorted seconds_ge ordered
    /\ emit_utterances (L := Reference.libs) six_mtimes logged_server
       = (Ok tt,
          with_events logged_server
            (map (utterances_event (L := Reference.libs) (fun _ => two_entries))
                 ordered)).
Proof.
  apply (emit_utterances_replays (L := Reference.libs) six_mtimes logged_server
           (fun _ => two_entries)).
  - simpl. rewrite map_to_list_singleton. repeat constructor.
  - intros fname content Hfile. simpl in Hfile.
    apply lookup_singleton_Some in Hfile as [_ <-].
    split; [reflexivity|]. split.
    + repeat constructor; try discriminate;
        (intros Hin; vm_compute in Hin;
         repeat (apply elem_of_cons in Hin as [Hin|Hin]; [discriminate|]);
         now apply elem_of_nil in Hin).
    + repeat constructor; (do 2 eexists; split; vm_compute; reflexivity).
Defined.




(** A log whose first line was torn, with eleven accepted queries after it. *)
Lemma utterances_stop_at_eleven_witness :
  utterances_of (L := Reference.libs) (log_text ([torn_line] ++ eleven_accepts))
  = Some (Ok (rev (last_n 11
       (filter (fun e => is_utterance (L := Reference.libs) e = true)
               eleven_accepts)))).
Proof.
  apply (utterances_stop_at_eleven (L := Reference.libs) [torn_line] eleven_accepts).
  - repeat constructor; try discriminate;
      (intros Hin; vm_compute in Hin;
       repeat (apply elem_of_cons in Hin as [Hin|Hin]; [discriminate|]);
       now apply elem_of_nil in Hin).
  - repeat constructor; (do 2 eexists; split; vm_compute; reflexivity).
  - vm_compute. lia.
Defined.

(** The voter disconnects and logs an accepted query all the same. *)
Lemma disconnect_keeps_session_witness :
  let gone :=
    with_log upvoted_server voter
      (log_line (L := Reference.libs) (disconnect_message voter) (now upvoted_server)) in
  disconnect (L := Reference.libs) upvoted_server = (Ok tt, gone)
  /\ session_uid gone = Some voter
  /\ logs (handle_log (L := Reference.libs) (PDict accept_request) gone).2
       !! log_name voter
     = Some (String.append
               (default EmptyString (logs upvoted_server !! log_name voter))
               (String.append
                  (log_line (L := Reference.libs) (disconnect_message voter)
                     (now upvoted_server))
                  (log_line (L := Reference.libs) accept_request
                     (now upvoted_server)))).
Proof.
  apply (disconnect_keeps_session (L := Reference.libs) accept_request
           (PStr "accept") upvoted_server voter); reflexivity.
Defined.

(** A client joins the community room of a server with a struct and a log. *)
Lemma on_join_replays_all_witness :
  let st := community_server in
  let files := map fst (map_to_list (logs st)) in
  exists struct_evs latest_5 ordered,
    on_join (L := Reference.libs) six_mtimes (join_request "community") (Hub st [])
    = (Ok tt,
       Hub (with_events st
              (struct_evs
               ++ map (utterances_event (L := Reference.libs) (fun _ => two_entries))
                      ordered))
           ([] ++ [JoinRoom (PStr "community")]))
    /\ Forall2 (fun file ev =>
                  struct_event (L := Reference.libs) (now st) file = Ok ev)
         (filter three_lines (all_files st)) struct_evs
    /\ walk_logs six_mtimes files [] = Ok latest_5
    /\ ordered ≡ₚ latest_5
    /\ StronglySorted seconds_ge ordered.
Proof.
  apply (on_join_replays_all (L := Reference.libs) six_mtimes
           (join_request "community") (Hub community_server [])
           (fun _ => two_entries)).
  - reflexivity.
  - intros uid fname content Hfile Hthree.
    apply all_files_spec in Hfile. vm_compute in Hfile.
    apply elem_of_cons in Hfile as [[= -> -> ->]|Hfile];
      [eexists; vm_compute; reflexivity|now apply elem_of_nil in Hfile].
  - simpl. rewrite map_to_list_singleton. repeat constructor.
  - intros fname content Hfile. simpl in Hfile.
    apply lookup_singleton_Some in Hfile as [_ <-].
    split; [reflexivity|]. split.
    + repeat constructor; try discriminate;
        (intros Hin; vm_compute in Hin;
         repeat (apply elem_of_cons in Hin as [Hin|Hin]; [discriminate|]);
         now apply elem_of_nil in Hin).
    + repeat constructor; (do 2 eexists; split; vm_compute; reflexivity).
Defined.

End Witnesses.
